(** * Region swap planner of [hbase/swap_regions.py]

    A shallow embedding of the balance planner ([compute_balance_plan]),
    of the snapshot builder, the guards and the replay loop of [main], and
    of the exporter ([generate_plan]), followed by the properties proved
    about them.

    Modelling conventions.
    - A Python [dict] is an association list in insertion order: [d.get],
      [d[k]], [k in d] read the first binding of a key, [d[k] = v]
      overwrites it in place or appends a new binding at the end.
    - Python [int] is [Z].  The averages, weights and scores are Python
      floats.  [Module Planner] takes them as exact rationals ([Q]);
      rounding is not modelled there.  [Module Planner64] is the planner
      with the arithmetic of the code, given in [Module Binary64]: a float
      is the rational it stands for, an operation on floats rounds its
      exact result to binary64 (to the nearest, a tie to the even
      significand), an [int] is converted when it meets a float in an
      operation and is compared with a float exactly.  It is used for the
      property about which candidate wins, where rounding decides.
    - A raised exception is a value of the [result] type.
    - [print] calls are not modelled, except the error messages of [main];
      a file is the sequence of strings written to it.  [Module Report]
      gives what [print_distribution] and [main] compute for their
      reports, without the text of the lines.
    - [Module Dump] gives the loop of [analyze_distribution] over the
      lines of the dump, a line being what the two patterns find on it;
      matching the text of a line is not modelled.  Strings are compared
      byte by byte, which is the order of Python on text encoded in
      UTF-8.
    - [Module Planner] works on the values of the dicts.  [Module Heap]
      gives the planner once more on a store of mutable objects, for the
      one property that is about sharing; it is proved to return what the
      planner on values returns ([compute_balance_plan_refines]). *)

From Stdlib Require Import List String Ascii ZArith QArith Qabs Lia Lqa Bool.
From Stdlib Require Import Permutation Sorted DecimalString OrderedTypeEx.
From Stdlib Require Import PrimFloat FloatOps SpecFloat.
Import ListNotations.

Local Open Scope Z_scope.

(** ** Python runtime: exceptions, dicts, lists *)

Module Py.

(** [TypeError] is only raised by the object store of [Module Heap], on a
    reference that holds no object or one of another kind. *)
Inductive exn : Type := KeyError | ValueError | TypeError.

Inductive result (A : Type) : Type :=
| Ok (a : A)
| Raise (e : exn).
Arguments Ok {A} a.
Arguments Raise {A} e.

Definition bind {A B : Type} (c : result A) (k : A -> result B) : result B :=
  match c with
  | Ok a => k a
  | Raise e => Raise e
  end.

Definition dict (V : Type) : Type := list (string * V).

Definition keys {V : Type} (d : dict V) : list string := map fst d.
Definition values {V : Type} (d : dict V) : list V := map snd d.

Definition dict_wf {V : Type} (d : dict V) : Prop := NoDup (keys d).

Fixpoint dict_get {V : Type} (d : dict V) (k : string) : option V :=
  match d with
  | [] => None
  | (k', v) :: d' => if String.eqb k' k then Some v else dict_get d' k
  end.

(** [d.get(k, v0)] *)
Definition dict_get_default {V : Type} (d : dict V) (k : string) (v0 : V) : V :=
  match dict_get d k with
  | Some v => v
  | None => v0
  end.

(** [d[k]] *)
Definition dict_item {V : Type} (d : dict V) (k : string) : result V :=
  match dict_get d k with
  | Some v => Ok v
  | None => Raise KeyError
  end.

(** [k in d] *)
Definition dict_mem {V : Type} (d : dict V) (k : string) : bool :=
  match dict_get d k with
  | Some _ => true
  | None => false
  end.

(** [d[k] = v] *)
Fixpoint dict_set {V : Type} (d : dict V) (k : string) (v : V) : dict V :=
  match d with
  | [] => [(k, v)]
  | (k', v') :: d' =>
      if String.eqb k' k then (k', v) :: d' else (k', v') :: dict_set d' k v
  end.

(** [l.remove(x)]: drops the first occurrence, [ValueError] when absent. *)
Fixpoint list_remove (x : string) (l : list string) : result (list string) :=
  match l with
  | [] => Raise ValueError
  | y :: l' =>
      if String.eqb y x then Ok l'
      else bind (list_remove x l') (fun r => Ok (y :: r))
  end.

(** [sum(...)] over integers. *)
Definition sum (l : list Z) : Z := fold_right Z.add 0 l.

(** Comparison of numbers: [a < b] and [a > b]. *)
Definition Qltb (a b : Q) : bool :=
  match Qcompare a b with
  | Lt => true
  | _ => false
  end.
Definition Qgtb (a b : Q) : bool := Qltb b a.

(** [l.sort(key=key)]: the sort is stable and compares keys with [<];
    insertion from the right keeps equal keys in their original order. *)
Section Sort.
Context {A : Type} (key : A -> Q).

Fixpoint sort_insert (x : A) (l : list A) : list A :=
  match l with
  | [] => [x]
  | y :: l' =>
      if Qltb (key y) (key x) then y :: sort_insert x l' else x :: l
  end.

Definition sort_by (l : list A) : list A := fold_right sort_insert [] l.

(** Ascending in the key. *)
Definition key_le (a b : A) : Prop := (key a <= key b)%Q.
End Sort.

End Py.

Import Py.

Notation "x <- c ;; k" := (bind c (fun x => k))
  (at level 61, c at next level, right associativity).
Notation "' p <- c ;; k" := (bind c (fun x => let 'p := x in k))
  (at level 61, p pattern, c at next level, right associativity).

(** ** The planner *)

Module Planner.

(** [server_table_count]: server -> table -> number of regions. *)
Definition counts_t : Type := dict (dict Z).
(** [server_table_regions]: server -> table -> encoded region names. *)
Definition regions_t : Type := dict (dict (list string)).
(** [region_info]: encoded name -> (table, server); unused by the planner. *)
Definition region_info_t : Type := dict (string * string).

(** An element of [swap_plan]:
    [(hot_region, cold_region, cold_table, source, target)]. *)
Record swap : Type := Swap {
  hot_region : string;
  cold_region : string;
  cold_table : string;
  source : string;
  target : string
}.

(** The working copy: [stc] and [str_regions]. *)
Record state : Type := State {
  stc : counts_t;
  str_regions : regions_t
}.

(** [sum(counts.get(table, 0) for counts in server_table_count.values())] *)
Definition table_total (server_table_count : counts_t) (table : string) : Z :=
  sum (map (fun counts => dict_get_default counts table 0)
           (values server_table_count)).

(** [compute_table_avg] *)
Definition compute_table_avg (table_name : string)
    (server_table_count : counts_t) : Q :=
  let total := table_total server_table_count table_name in
  let num_servers := Z.of_nat (List.length server_table_count) in
  if 0 <? num_servers then inject_Z total / inject_Z num_servers else 0%Q.

(** [table in all_tables] *)
Definition all_tables_mem (server_table_count : counts_t) (table : string)
    : bool :=
  existsb (fun counts => dict_mem counts table) (values server_table_count).

(** [table_avg.get(table, 0)], for the [table_avg] built over [all_tables]. *)
Definition table_avg_get (server_table_count : counts_t) (table : string) : Q :=
  if all_tables_mem server_table_count table
  then inject_Z (table_total server_table_count table)
       / inject_Z (Z.of_nat (List.length (keys server_table_count)))
  else 0%Q.

(** The four in-place updates used on the nested dicts. *)

(** [d[s][t] -= 1] *)
Definition decr (d : counts_t) (s t : string) : result counts_t :=
  inner <- dict_item d s ;;
  v <- dict_item inner t ;;
  Ok (dict_set d s (dict_set inner t (v - 1))).

(** [d[s][t] = d[s].get(t, 0) + 1] *)
Definition incr (d : counts_t) (s t : string) : result counts_t :=
  inner <- dict_item d s ;;
  Ok (dict_set d s (dict_set inner t (dict_get_default inner t 0 + 1))).

(** [d[s][t].remove(x)] *)
Definition remove_region (d : regions_t) (s t x : string) : result regions_t :=
  inner <- dict_item d s ;;
  l <- dict_item inner t ;;
  l' <- list_remove x l ;;
  Ok (dict_set d s (dict_set inner t l')).

(** [if t not in d[s]: d[s][t] = []] then [d[s][t].append(x)] *)
Definition append_region (d : regions_t) (s t x : string) : result regions_t :=
  inner <- dict_item d s ;;
  let inner := if dict_mem inner t then inner else dict_set inner t [] in
  l <- dict_item inner t ;;
  Ok (dict_set d s (dict_set inner t (l ++ [x]))).

Section Iteration.
Variable hot_table : string.
Variable hot_avg : Q.
(** [fun table => table_avg.get(table, 0)] *)
Variable t_avg_of : string -> Q.

(** The classification loop of one iteration, before sorting. *)
Fixpoint classify (stc : counts_t) (servers : list string)
    : result (list (string * Q) * list (string * Q)) :=
  match servers with
  | [] => Ok ([], [])
  | server :: rest =>
      counts <- dict_item stc server ;;
      '(donors, receivers) <- classify stc rest ;;
      let count := inject_Z (dict_get_default counts hot_table 0) in
      if Qgtb count hot_avg then
        Ok ((server, count - hot_avg)%Q :: donors, receivers)
      else if Qltb count hot_avg then
        Ok (donors, (server, hot_avg - count)%Q :: receivers)
      else Ok (donors, receivers)
  end.

(** [key=lambda x: -x[1]] *)
Definition neg_weight (x : string * Q) : Q := (- snd x)%Q.

(** The score of a cold table seen on the receiver. *)
Definition cold_score (counts_r counts_d : dict Z) (table : string) : Q :=
  let t_avg := t_avg_of table in
  let t_count_on_receiver := dict_get_default counts_r table 0 in
  let score := (inject_Z t_count_on_receiver - t_avg)%Q in
  let t_count_on_donor := dict_get_default counts_d table 0 in
  if Qgtb (inject_Z (t_count_on_donor + 1)) (t_avg + 1)%Q
  then (score - (1 # 2))%Q
  else score.

(** [score > best_score]; [None] is the initial [float('-inf')]. *)
Definition beats (score : Q) (best : option (Q * string * string)) : bool :=
  match best with
  | None => true
  | Some (best_score, _, _) => Qgtb score best_score
  end.

(** The loop over [str_regions.get(receiver_server, {}).items()]; [best]
    is [(best_score, best_cold_table, best_cold_region)]. *)
Fixpoint scan_cold (stc : counts_t) (donor_server receiver_server : string)
    (items : list (string * list string))
    (best : option (Q * string * string))
    : result (option (Q * string * string)) :=
  match items with
  | [] => Ok best
  | (table, regions) :: rest =>
      match String.eqb table hot_table, regions with
      | true, _ | false, [] =>
          scan_cold stc donor_server receiver_server rest best
      | false, region0 :: _ =>
          counts_r <- dict_item stc receiver_server ;;
          counts_d <- dict_item stc donor_server ;;
          let score := cold_score counts_r counts_d table in
          if beats score best
          then scan_cold stc donor_server receiver_server rest
                 (Some (score, table, region0))
          else scan_cold stc donor_server receiver_server rest best
      end
  end.

(** The loop over [receivers] for one donor. *)
Fixpoint try_receivers (st : state) (donor_server hot_region : string)
    (receivers : list (string * Q)) : result (option swap) :=
  match receivers with
  | [] => Ok None
  | (receiver_server, _) :: rest =>
      best <- scan_cold (stc st) donor_server receiver_server
                (dict_get_default (str_regions st) receiver_server []) None ;;
      match best with
      | Some (_, best_cold_table, best_cold_region) =>
          Ok (Some (Swap hot_region best_cold_region best_cold_table
                         donor_server receiver_server))
      | None => try_receivers st donor_server hot_region rest
      end
  end.

(** The loop over [donors]. *)
Fixpoint try_donors (st : state) (donors receivers : list (string * Q))
    : result (option swap) :=
  match donors with
  | [] => Ok None
  | (donor_server, _) :: rest =>
      match dict_get_default
              (dict_get_default (str_regions st) donor_server []) hot_table []
      with
      | [] => try_donors st rest receivers
      | hot_region :: _ =>
          found <- try_receivers st donor_server hot_region receivers ;;
          match found with
          | Some sw => Ok (Some sw)
          | None => try_donors st rest receivers
          end
      end
  end.

(** The state update after a swap was found. *)
Definition apply_swap (st : state) (sw : swap) : result state :=
  let donor_server := source sw in
  let receiver_server := target sw in
  c <- decr (stc st) donor_server hot_table ;;
  c <- incr c receiver_server hot_table ;;
  r <- remove_region (str_regions st) donor_server hot_table (hot_region sw) ;;
  r <- append_region r receiver_server hot_table (hot_region sw) ;;
  c <- decr c receiver_server (cold_table sw) ;;
  c <- incr c donor_server (cold_table sw) ;;
  r <- remove_region r receiver_server (cold_table sw) (cold_region sw) ;;
  r <- append_region r donor_server (cold_table sw) (cold_region sw) ;;
  Ok (State c r).

(** The donors and the receivers of one iteration, sorted. *)
Definition classify_sorted (stc : counts_t) (servers : list string)
    : result (list (string * Q) * list (string * Q)) :=
  '(donors, receivers) <- classify stc servers ;;
  Ok (sort_by neg_weight donors, sort_by neg_weight receivers).

(** The search part of one iteration: classification, sorting, pairing.
    [None] is a [break]. *)
Definition find_swap (servers : list string) (st : state)
    : result (option swap) :=
  '(donors, receivers) <- classify_sorted (stc st) servers ;;
  match donors, receivers with
  | [], _ => Ok None
  | _, [] => Ok None
  | _, _ => try_donors st donors receivers
  end.

(** [while iteration < max_iterations]: [fuel] is
    [max_iterations - iteration]. *)
Fixpoint plan_loop (fuel : nat) (servers : list string) (st : state)
    (swap_plan : list swap) : result (list swap * state) :=
  match fuel with
  | O => Ok (swap_plan, st)
  | S fuel' =>
      found <- find_swap servers st ;;
      match found with
      | None => Ok (swap_plan, st)
      | Some sw =>
          st' <- apply_swap st sw ;;
          plan_loop fuel' servers st' (swap_plan ++ [sw])
      end
  end.
End Iteration.

Definition max_iterations : nat := 1000.

(** The working copy after at most [fuel] iterations, with the plan so far.
    The copies [{s: dict(counts) ...}] and [{s: {t: list(regions) ...} ...}]
    are equal to their originals as values. *)
Definition run_planner (fuel : nat) (hot_table : string)
    (server_table_count : counts_t) (server_table_regions : regions_t)
    : result (list swap * state) :=
  let servers := keys server_table_count in
  let st := State server_table_count server_table_regions in
  let hot_avg := table_avg_get server_table_count hot_table in
  plan_loop hot_table hot_avg (table_avg_get server_table_count)
    fuel servers st [].

Definition compute_balance_plan (hot_table : string)
    (server_table_count : counts_t) (region_info : region_info_t)
    (server_table_regions : regions_t) : result (list swap) :=
  match keys server_table_count with
  | [] => Ok []
  | _ :: _ =>
      '(swap_plan, _) <- run_planner max_iterations hot_table
                           server_table_count server_table_regions ;;
      Ok swap_plan
  end.

End Planner.

(** ** Binary64 arithmetic *)

Module Binary64.

(** [num / den] rounded to the nearest integer, a tie to the even one, for
    [0 <= num] and [0 < den]. *)
Definition round_half_even (num den : Z) : Z :=
  let q := num / den in
  let r := num mod den in
  match 2 * r ?= den with
  | Lt => q
  | Gt => q + 1
  | Eq => if Z.even q then q else q + 1
  end.

(** [a / (d * 2^e)] as a fraction of integers. *)
Definition scaled (a d e : Z) : Z * Z :=
  if 0 <=? e then (a, d * 2 ^ e) else (a * 2 ^ (- e), d).

(** The exponent of the last place of the binary64 numbers around [a / d],
    for [0 < a] and [0 < d]: the [e] with [2^52 <= a / (d * 2^e) < 2^53],
    and -1074 in the subnormal range. *)
Definition last_place (a d : Z) : Z :=
  let e := Z.log2 a - Z.log2 d - 52 in
  let '(num, den) := scaled a d e in
  let e := if num <? 2 ^ 52 * den then e - 1 else e in
  Z.max e (-1074).

(** [m * 2^e] *)
Definition times_pow2 (m e : Z) : Q :=
  if 0 <=? e then inject_Z (m * 2 ^ e)
  else Qred (Qmake m (Z.to_pos (2 ^ (- e)))).

(** The binary64 number nearest to [a / d], a tie to the one with the even
    significand. *)
Definition nearest (a d : Z) : Q :=
  let e := last_place a d in
  let '(num, den) := scaled a d e in
  times_pow2 (round_half_even num den) e.

(** Rounding to binary64, as every operation on floats does with its exact
    result.  A result of magnitude [2^1024] or more, that a float cannot
    hold, is not modelled. *)
Definition round64 (q : Q) : Q :=
  match Qnum q with
  | 0 => 0%Q
  | Zpos a => nearest (Zpos a) (Zpos (Qden q))
  | Zneg a => (- nearest (Zpos a) (Zpos (Qden q)))%Q
  end.

(** The rational that a binary64 number of the kernel stands for, with
    [None] for an infinity and for a NaN; used to compare [round64] with
    the floats of the machine. *)
Definition float_value (x : PrimFloat.float) : option Q :=
  match FloatOps.Prim2SF x with
  | SpecFloat.S754_zero _ => Some 0%Q
  | SpecFloat.S754_finite s m e =>
      Some (if s then (- times_pow2 (Zpos m) e)%Q
            else times_pow2 (Zpos m) e)
  | _ => None
  end.

(** A Python number of the planner: an [int], or a [float] given by the
    rational it stands for. *)
Inductive number : Type :=
| Int (z : Z)
| Float (x : Q).

Definition value (a : number) : Q :=
  match a with
  | Int z => inject_Z z
  | Float x => x
  end.

(** The conversion of an operand to [float] in mixed arithmetic. *)
Definition to_float (a : number) : Q :=
  match a with
  | Int z => round64 (inject_Z z)
  | Float x => x
  end.

(** [a + b] *)
Definition num_add (a b : number) : number :=
  match a, b with
  | Int x, Int y => Int (x + y)
  | _, _ => Float (round64 (to_float a + to_float b))
  end.

(** [a - b] *)
Definition num_sub (a b : number) : number :=
  match a, b with
  | Int x, Int y => Int (x - y)
  | _, _ => Float (round64 (to_float a - to_float b))
  end.

(** [-a] *)
Definition num_neg (a : number) : number :=
  match a with
  | Int z => Int (- z)
  | Float x => Float (- x)
  end.

(** [a / b] on two [int]s: the quotient, rounded once. *)
Definition true_div (a b : Z) : number :=
  Float (round64 (inject_Z a / inject_Z b)).

(** [a < b] and [a > b]: numbers are compared by their exact values, also
    an [int] with a [float]. *)
Definition num_lt (a b : number) : bool := Qltb (value a) (value b).
Definition num_gt (a b : number) : bool := num_lt b a.

(** The integers that the arithmetic of the planner takes without
    overflow. *)
Definition in_range (z : Z) : bool := Z.abs z <? 2 ^ 1000.

End Binary64.

(** ** The planner, with the arithmetic of floats *)

Module Planner64.
Import Planner Binary64.

(** [table_avg.get(table, 0)], for the [table_avg] built over [all_tables]
    with [table_avg[table] = total / num_servers]. *)
Definition table_avg_get (server_table_count : counts_t) (table : string)
    : number :=
  if all_tables_mem server_table_count table
  then true_div (table_total server_table_count table)
         (Z.of_nat (List.length (keys server_table_count)))
  else Int 0.

Section Iteration.
Variable hot_table : string.
Variable hot_avg : number.
(** [fun table => table_avg.get(table, 0)] *)
Variable t_avg_of : string -> number.

(** The classification loop of one iteration, before sorting. *)
Fixpoint classify (stc : counts_t) (servers : list string)
    : result (list (string * number) * list (string * number)) :=
  match servers with
  | [] => Ok ([], [])
  | server :: rest =>
      counts <- dict_item stc server ;;
      '(donors, receivers) <- classify stc rest ;;
      let count := Int (dict_get_default counts hot_table 0) in
      if num_gt count hot_avg then
        Ok ((server, num_sub count hot_avg) :: donors, receivers)
      else if num_lt count hot_avg then
        Ok (donors, (server, num_sub hot_avg count) :: receivers)
      else Ok (donors, receivers)
  end.

(** [key=lambda x: -x[1]] *)
Definition neg_weight (x : string * number) : Q := value (num_neg (snd x)).

(** The score of a cold table seen on the receiver. *)
Definition cold_score (counts_r counts_d : dict Z) (table : string)
    : number :=
  let t_avg := t_avg_of table in
  let t_count_on_receiver := dict_get_default counts_r table 0 in
  let score := num_sub (Int t_count_on_receiver) t_avg in
  let t_count_on_donor := dict_get_default counts_d table 0 in
  if num_gt (Int (t_count_on_donor + 1)) (num_add t_avg (Int 1))
  then num_sub score (Float (1 # 2))
  else score.

(** [score > best_score]; [None] is the initial [float('-inf')]. *)
Definition beats (score : number) (best : option (number * string * string))
    : bool :=
  match best with
  | None => true
  | Some (best_score, _, _) => num_gt score best_score
  end.

(** The loop over [str_regions.get(receiver_server, {}).items()]; [best]
    is [(best_score, best_cold_table, best_cold_region)]. *)
Fixpoint scan_cold (stc : counts_t) (donor_server receiver_server : string)
    (items : list (string * list string))
    (best : option (number * string * string))
    : result (option (number * string * string)) :=
  match items with
  | [] => Ok best
  | (table, regions) :: rest =>
      match String.eqb table hot_table, regions with
      | true, _ | false, [] =>
          scan_cold stc donor_server receiver_server rest best
      | false, region0 :: _ =>
          counts_r <- dict_item stc receiver_server ;;
          counts_d <- dict_item stc donor_server ;;
          let score := cold_score counts_r counts_d table in
          if beats score best
          then scan_cold stc donor_server receiver_server rest
                 (Some (score, table, region0))
          else scan_cold stc donor_server receiver_server rest best
      end
  end.

(** The loop over [receivers] for one donor. *)
Fixpoint try_receivers (st : state) (donor_server hot_region : string)
    (receivers : list (string * number)) : result (option swap) :=
  match receivers with
  | [] => Ok None
  | (receiver_server, _) :: rest =>
      best <- scan_cold (stc st) donor_server receiver_server
                (dict_get_default (str_regions st) receiver_server []) None ;;
      match best with
      | Some (_, best_cold_table, best_cold_region) =>
          Ok (Some (Swap hot_region best_cold_region best_cold_table
                         donor_server receiver_server))
      | None => try_receivers st donor_server hot_region rest
      end
  end.

(** The loop over [donors]. *)
Fixpoint try_donors (st : state) (donors receivers : list (string * number))
    : result (option swap) :=
  match donors with
  | [] => Ok None
  | (donor_server, _) :: rest =>
      match dict_get_default
              (dict_get_default (str_regions st) donor_server []) hot_table []
      with
      | [] => try_donors st rest receivers
      | hot_region :: _ =>
          found <- try_receivers st donor_server hot_region receivers ;;
          match found with
          | Some sw => Ok (Some sw)
          | None => try_donors st rest receivers
          end
      end
  end.

(** The donors and the receivers of one iteration, sorted. *)
Definition classify_sorted (stc : counts_t) (servers : list string)
    : result (list (string * number) * list (string * number)) :=
  '(donors, receivers) <- classify stc servers ;;
  Ok (sort_by neg_weight donors, sort_by neg_weight receivers).

(** The search part of one iteration: classification, sorting, pairing.
    [None] is a [break]. *)
Definition find_swap (servers : list string) (st : state)
    : result (option swap) :=
  '(donors, receivers) <- classify_sorted (stc st) servers ;;
  match donors, receivers with
  | [], _ => Ok None
  | _, [] => Ok None
  | _, _ => try_donors st donors receivers
  end.

(** [while iteration < max_iterations]: [fuel] is
    [max_iterations - iteration]; the state update is the one of
    [Planner.apply_swap]. *)
Fixpoint plan_loop (fuel : nat) (servers : list string) (st : state)
    (swap_plan : list swap) : result (list swap * state) :=
  match fuel with
  | O => Ok (swap_plan, st)
  | S fuel' =>
      found <- find_swap servers st ;;
      match found with
      | None => Ok (swap_plan, st)
      | Some sw =>
          st' <- apply_swap hot_table st sw ;;
          plan_loop fuel' servers st' (swap_plan ++ [sw])
      end
  end.
End Iteration.

Definition compute_balance_plan (hot_table : string)
    (server_table_count : counts_t) (region_info : region_info_t)
    (server_table_regions : regions_t) : result (list swap) :=
  match keys server_table_count with
  | [] => Ok []
  | _ :: _ =>
      let servers := keys server_table_count in
      let st := State server_table_count server_table_regions in
      let hot_avg := table_avg_get server_table_count hot_table in
      '(swap_plan, _) <- plan_loop hot_table hot_avg
                           (table_avg_get server_table_count)
                           max_iterations servers st [] ;;
      Ok swap_plan
  end.

End Planner64.

(** ** The exporter *)

Module Exporter.
Import Planner.

Local Open Scope string_scope.

Definition nl : string := String (ascii_of_nat 10) EmptyString.

(** An f-string or literal, as the concatenation of its parts. *)
Definition fstr (parts : list string) : string := String.concat "" parts.

(** [f"{n}"] for a natural number. *)
Definition str_of_nat (n : nat) : string :=
  NilEmpty.string_of_uint (Nat.to_uint n).

(** [server_fullname]: host -> "host,port,startcode". *)
Definition server_fullname_t : Type := dict string.

(** [server_fullname.get(host, host)] *)
Definition resolve (server_fullname : server_fullname_t) (host : string)
    : string :=
  dict_get_default server_fullname host host.

(** [f"move '{region}', '{server}'\n"] *)
Definition move_line (region server : string) : string :=
  fstr ["move '"; region; "', '"; server; "'"; nl].

(** The four [f.write] calls of the loop body for pair number [i]. *)
Definition write_pair (hot_table : string) (server_fullname : server_fullname_t)
    (i : nat) (sw : swap) : list string :=
  let source_full := resolve server_fullname (source sw) in
  let target_full := resolve server_fullname (target sw) in
  [ fstr ["# Pair "; str_of_nat i; ": "; hot_table;
          " ("; source sw; " -> "; target sw; "), ";
          cold_table sw; " ("; target sw; " -> "; source sw; ")"; nl];
    move_line (hot_region sw) target_full;
    move_line (cold_region sw) source_full;
    nl ].

(** [for i, (...) in enumerate(swap_plan, i)] *)
Fixpoint write_pairs (hot_table : string) (server_fullname : server_fullname_t)
    (i : nat) (swap_plan : list swap) : list string :=
  match swap_plan with
  | [] => []
  | sw :: rest =>
      (write_pair hot_table server_fullname i sw
       ++ write_pairs hot_table server_fullname (S i) rest)%list
  end.

(** A file opened with mode ['w']: its path and the strings written to it,
    in order. *)
Record file : Type := File {
  path : string;
  writes : list string
}.

Definition content (f : file) : string := fstr (writes f).

(** The last line written. *)
Definition footer : string :=
  fstr ["# balance_switch true # Uncomment to enable after verification"; nl].

Definition generate_plan (swap_plan : list swap)
    (output_file hot_table : string) (server_fullname : server_fullname_t)
    : file :=
  File output_file
    ([ fstr ["# Auto-generated swap plan for balancing"; nl];
       fstr ["# Hot table: "; hot_table; nl];
       fstr ["# Total swaps: "; str_of_nat (List.length swap_plan); nl; nl];
       fstr ["balance_switch false"; nl; nl] ]
     ++ write_pairs hot_table server_fullname 1 swap_plan
     ++ [ footer ])%list.

End Exporter.

(** ** The snapshot builder and [main] *)

Module Main.
Import Planner Exporter.

Local Open Scope string_scope.

(** One region whose [info:server] and [info:serverstartcode] rows both
    matched, as [analyze_distribution] sees it when it records the region.
    Matching the text of the dump is not modelled. *)
Record fact : Type := Fact {
  table_name : string;
  encoded_name : string;
  server_host : string;
  server_port : string;
  startcode : string
}.

(** The four values returned by [analyze_distribution]. *)
Record analysis : Type := Analysis {
  server_table_count : counts_t;
  region_info : region_info_t;
  server_table_regions : regions_t;
  server_fullname : server_fullname_t
}.

(** The body executed for one recorded region; the count and region dicts
    are [defaultdict]s, so a missing server or table is created on access. *)
Definition record_region (a : analysis) (f : fact) : analysis :=
  let full_server_name :=
    fstr [server_host f; ","; server_port f; ","; startcode f] in
  let counts := dict_get_default (server_table_count a) (server_host f) [] in
  let tables := dict_get_default (server_table_regions a) (server_host f) [] in
  Analysis
    (dict_set (server_table_count a) (server_host f)
       (dict_set counts (table_name f)
          (dict_get_default counts (table_name f) 0 + 1)%Z))
    (dict_set (region_info a) (encoded_name f) (table_name f, server_host f))
    (dict_set (server_table_regions a) (server_host f)
       (dict_set tables (table_name f)
          (dict_get_default tables (table_name f) [] ++ [encoded_name f])%list))
    (dict_set (server_fullname a) (server_host f) full_server_name).

Definition analyze_distribution (facts : list fact) : analysis :=
  fold_left record_region facts (Analysis [] [] [] []).

(** The replay of the plan on [simulated_stc]. *)
Definition replay_swap (hot_table : string) (simulated_stc : counts_t)
    (sw : swap) : result counts_t :=
  c <- decr simulated_stc (source sw) hot_table ;;
  c <- incr c (target sw) hot_table ;;
  c <- decr c (target sw) (cold_table sw) ;;
  incr c (source sw) (cold_table sw).

Fixpoint simulate (hot_table : string) (swap_plan : list swap)
    (simulated_stc : counts_t) : result counts_t :=
  match swap_plan with
  | [] => Ok simulated_stc
  | sw :: rest =>
      c <- replay_swap hot_table simulated_stc sw ;;
      simulate hot_table rest c
  end.

Record args : Type := Args {
  hot_table : string;
  output : string;
  dry_run : bool
}.

(** What a run of [main] leaves behind: the value returned, the error
    message printed (if any), the plan computed (if planning was reached)
    and the file written (if any). *)
Record outcome : Type := Outcome {
  exit_code : Z;
  error_message : option string;
  planned : option (list swap);
  written : option file
}.

Definition main (a : args) (facts : list fact) : result outcome :=
  let an := analyze_distribution facts in
  match server_table_count an with
  | [] =>
      Ok (Outcome 1 (Some "Error: No regions found in meta dump file")
            None None)
  | _ :: _ =>
      let total_hot_regions :=
        table_total (server_table_count an) (hot_table a) in
      if (total_hot_regions =? 0)%Z then
        Ok (Outcome 1
              (Some (fstr ["Error: Table '"; hot_table a;
                           "' not found in meta dump"]))
              None None)
      else
        swap_plan <- compute_balance_plan (hot_table a)
                       (server_table_count an) (region_info an)
                       (server_table_regions an) ;;
        match swap_plan with
        | [] => Ok (Outcome 0 None (Some swap_plan) None)
        | _ :: _ =>
            _ <- simulate (hot_table a) swap_plan (server_table_count an) ;;
            if negb (dry_run a) then
              Ok (Outcome 0 None (Some swap_plan)
                    (Some (generate_plan swap_plan (output a) (hot_table a)
                             (server_fullname an))))
            else Ok (Outcome 0 None (Some swap_plan) None)
        end
  end.

End Main.

(** ** The planner on a store of mutable objects

    The same function once more, with the dicts and lists as objects of a
    store that are read and updated through references, so that sharing
    between the snapshot passed in and the working copy can be stated.  A
    computation takes the store and returns its result with the store it
    leaves, also when it raises. *)

Module Heap.
Import Planner.

Definition addr : Type := nat.

Inductive obj : Type :=
| OCounts (d : dict Z)            (* table -> count *)
| ORegions (l : list string)      (* a list of encoded names *)
| OTables (d : dict addr)         (* table -> list object *)
| OServers (d : dict addr).       (* server -> dict object *)

Definition heap : Type := list obj.

Definition M (A : Type) : Type := heap -> result A * heap.

Definition ret {A : Type} (a : A) : M A := fun h => (Ok a, h).
Definition raise {A : Type} (e : exn) : M A := fun h => (Raise e, h).
Definition lift {A : Type} (r : result A) : M A := fun h => (r, h).

Definition mbind {A B : Type} (m : M A) (k : A -> M B) : M B :=
  fun h =>
    match m h with
    | (Ok a, h') => k a h'
    | (Raise e, h') => (Raise e, h')
    end.

Notation "'let*' x ':=' c 'in' k" := (mbind c (fun x => k))
  (at level 10, x pattern, c at level 100, k at level 200).

(** A new object, at the next free reference. *)
Definition alloc (o : obj) : M addr :=
  fun h => (Ok (List.length h), (h ++ [o])%list).

Definition load (a : addr) : M obj :=
  fun h =>
    match nth_error h a with
    | Some o => (Ok o, h)
    | None => (Raise TypeError, h)
    end.

Fixpoint update (h : heap) (a : addr) (o : obj) : heap :=
  match h, a with
  | [], _ => []
  | _ :: h', O => o :: h'
  | o' :: h', S a' => o' :: update h' a' o
  end.

(** In-place mutation of the object at [a]. *)
Definition store (a : addr) (o : obj) : M unit :=
  fun h =>
    match nth_error h a with
    | Some _ => (Ok tt, update h a o)
    | None => (Raise TypeError, h)
    end.

(** What an object is when read as a dict of counts, a list of regions, a
    dict of lists or a dict of dicts. *)
Definition as_counts (o : obj) : option (dict Z) :=
  match o with OCounts d => Some d | _ => None end.
Definition as_regions (o : obj) : option (list string) :=
  match o with ORegions l => Some l | _ => None end.
Definition as_tables (o : obj) : option (dict addr) :=
  match o with OTables d => Some d | _ => None end.
Definition as_servers (o : obj) : option (dict addr) :=
  match o with OServers d => Some d | _ => None end.

(** The object at [a], read as [pr] reads it. *)
Definition load_as {X : Type} (pr : obj -> option X) (a : addr) : M X :=
  let* o := load a in
  match pr o with Some x => ret x | None => raise TypeError end.

Definition load_counts : addr -> M (dict Z) := load_as as_counts.
Definition load_regions : addr -> M (list string) := load_as as_regions.
Definition load_tables : addr -> M (dict addr) := load_as as_tables.
Definition load_servers : addr -> M (dict addr) := load_as as_servers.

(** [{s: dict(counts) for s, counts in server_table_count.items()}] *)
Fixpoint copy_counts_items (items : list (string * addr)) : M (dict addr) :=
  match items with
  | [] => ret []
  | (s, counts) :: rest =>
      let* d := load_counts counts in
      let* a := alloc (OCounts d) in
      let* tl := copy_counts_items rest in
      ret ((s, a) :: tl)
  end.

Definition copy_counts (server_table_count : addr) : M addr :=
  let* outer := load_servers server_table_count in
  let* items := copy_counts_items outer in
  alloc (OServers items).

(** [{t: list(regions) for t, regions in tables.items()}] *)
Fixpoint copy_lists (items : list (string * addr)) : M (dict addr) :=
  match items with
  | [] => ret []
  | (t, regions) :: rest =>
      let* l := load_regions regions in
      let* a := alloc (ORegions l) in
      let* tl := copy_lists rest in
      ret ((t, a) :: tl)
  end.

Fixpoint copy_tables_items (items : list (string * addr)) : M (dict addr) :=
  match items with
  | [] => ret []
  | (s, tables) :: rest =>
      let* d := load_tables tables in
      let* inner := copy_lists d in
      let* a := alloc (OTables inner) in
      let* tl := copy_tables_items rest in
      ret ((s, a) :: tl)
  end.

Definition copy_regions (server_table_regions : addr) : M addr :=
  let* outer := load_servers server_table_regions in
  let* items := copy_tables_items outer in
  alloc (OServers items).

(** The value of a server -> table -> count dict, read through. *)
Fixpoint read_counts_items (items : list (string * addr)) : M counts_t :=
  match items with
  | [] => ret []
  | (s, counts) :: rest =>
      let* d := load_counts counts in
      let* tl := read_counts_items rest in
      ret ((s, d) :: tl)
  end.

Definition read_counts (server_table_count : addr) : M counts_t :=
  let* outer := load_servers server_table_count in
  read_counts_items outer.

(** The value of a server -> table -> regions dict, read through. *)
Fixpoint read_lists (items : list (string * addr)) : M (dict (list string)) :=
  match items with
  | [] => ret []
  | (t, regions) :: rest =>
      let* l := load_regions regions in
      let* tl := read_lists rest in
      ret ((t, l) :: tl)
  end.

Fixpoint read_tables_items (items : list (string * addr)) : M regions_t :=
  match items with
  | [] => ret []
  | (s, tables) :: rest =>
      let* d := load_tables tables in
      let* inner := read_lists d in
      let* tl := read_tables_items rest in
      ret ((s, inner) :: tl)
  end.

Definition read_regions (server_table_regions : addr) : M regions_t :=
  let* outer := load_servers server_table_regions in
  read_tables_items outer.

(** [d[s]] for a dict object of dict objects, loaded as counts. *)
Definition counts_at (stc : addr) (s : string) : M (addr * dict Z) :=
  let* outer := load_servers stc in
  let* a := lift (dict_item outer s) in
  let* d := load_counts a in
  ret (a, d).

(** [d[s]] for a dict object of dict objects, loaded as tables. *)
Definition tables_at (str_regions : addr) (s : string) : M (addr * dict addr) :=
  let* outer := load_servers str_regions in
  let* a := lift (dict_item outer s) in
  let* d := load_tables a in
  ret (a, d).

(** [d[s][t] -= 1] *)
Definition decr (stc : addr) (s t : string) : M unit :=
  let* (a, inner) := counts_at stc s in
  let* v := lift (dict_item inner t) in
  store a (OCounts (dict_set inner t (v - 1))).

(** [d[s][t] = d[s].get(t, 0) + 1] *)
Definition incr (stc : addr) (s t : string) : M unit :=
  let* (a, inner) := counts_at stc s in
  store a (OCounts (dict_set inner t (dict_get_default inner t 0 + 1))).

(** [d[s][t].remove(x)] *)
Definition remove_region (str_regions : addr) (s t x : string) : M unit :=
  let* (_, tables) := tables_at str_regions s in
  let* la := lift (dict_item tables t) in
  let* l := load_regions la in
  let* l' := lift (list_remove x l) in
  store la (ORegions l').

(** [if t not in d[s]: d[s][t] = []] then [d[s][t].append(x)] *)
Definition append_region (str_regions : addr) (s t x : string) : M unit :=
  let* (a, tables) := tables_at str_regions s in
  let* _ := (if dict_mem tables t then ret tt
             else let* la := alloc (ORegions []) in
                  store a (OTables (dict_set tables t la))) in
  let* (_, tables) := tables_at str_regions s in
  let* la := lift (dict_item tables t) in
  let* l := load_regions la in
  store la (ORegions (l ++ [x])%list).

Section Iteration.
Variable hot_table : string.
Variable hot_avg : Q.
Variable t_avg_of : string -> Q.
(** The working copy: the references held by [stc] and [str_regions]. *)
Variable stc : addr.
Variable str_regions : addr.

Fixpoint classify (servers : list string)
    : M (list (string * Q) * list (string * Q)) :=
  match servers with
  | [] => ret ([], [])
  | server :: rest =>
      let* (_, counts) := counts_at stc server in
      let* (donors, receivers) := classify rest in
      let count := inject_Z (dict_get_default counts hot_table 0) in
      if Qgtb count hot_avg then
        ret ((server, count - hot_avg)%Q :: donors, receivers)
      else if Qltb count hot_avg then
        ret (donors, (server, hot_avg - count)%Q :: receivers)
      else ret (donors, receivers)
  end.

Definition classify_sorted (servers : list string)
    : M (list (string * Q) * list (string * Q)) :=
  let* (donors, receivers) := classify servers in
  ret (sort_by neg_weight donors, sort_by neg_weight receivers).

Fixpoint scan_cold (donor_server receiver_server : string)
    (items : list (string * addr)) (best : option (Q * string * string))
    : M (option (Q * string * string)) :=
  match items with
  | [] => ret best
  | (table, regions_ref) :: rest =>
      let* regions := load_regions regions_ref in
      match String.eqb table hot_table, regions with
      | true, _ | false, [] =>
          scan_cold donor_server receiver_server rest best
      | false, region0 :: _ =>
          let* (_, counts_r) := counts_at stc receiver_server in
          let* (_, counts_d) := counts_at stc donor_server in
          let score := cold_score t_avg_of counts_r counts_d table in
          if beats score best
          then scan_cold donor_server receiver_server rest
                 (Some (score, table, region0))
          else scan_cold donor_server receiver_server rest best
      end
  end.

(** [str_regions.get(s, {})], as the items of the dict found. *)
Definition tables_get (s : string) : M (dict addr) :=
  let* outer := load_servers str_regions in
  match dict_get outer s with
  | Some a => load_tables a
  | None => ret []
  end.

(** [str_regions.get(s, {}).get(t, [])], as the value of the list found. *)
Definition regions_get (s t : string) : M (list string) :=
  let* tables := tables_get s in
  match dict_get tables t with
  | Some la => load_regions la
  | None => ret []
  end.

Fixpoint try_receivers (donor_server hot_region : string)
    (receivers : list (string * Q)) : M (option swap) :=
  match receivers with
  | [] => ret None
  | (receiver_server, _) :: rest =>
      let* items := tables_get receiver_server in
      let* best := scan_cold donor_server receiver_server items None in
      match best with
      | Some (_, best_cold_table, best_cold_region) =>
          ret (Some (Swap hot_region best_cold_region best_cold_table
                          donor_server receiver_server))
      | None => try_receivers donor_server hot_region rest
      end
  end.

Fixpoint try_donors (donors receivers : list (string * Q)) : M (option swap) :=
  match donors with
  | [] => ret None
  | (donor_server, _) :: rest =>
      let* hot_regions_on_donor := regions_get donor_server hot_table in
      match hot_regions_on_donor with
      | [] => try_donors rest receivers
      | hot_region :: _ =>
          let* found := try_receivers donor_server hot_region receivers in
          match found with
          | Some sw => ret (Some sw)
          | None => try_donors rest receivers
          end
      end
  end.

Definition apply_swap (sw : swap) : M unit :=
  let donor_server := source sw in
  let receiver_server := target sw in
  let* _ := decr stc donor_server hot_table in
  let* _ := incr stc receiver_server hot_table in
  let* _ := remove_region str_regions donor_server hot_table (hot_region sw) in
  let* _ := append_region str_regions receiver_server hot_table
              (hot_region sw) in
  let* _ := decr stc receiver_server (cold_table sw) in
  let* _ := incr stc donor_server (cold_table sw) in
  let* _ := remove_region str_regions receiver_server (cold_table sw)
              (cold_region sw) in
  append_region str_regions donor_server (cold_table sw) (cold_region sw).

Definition find_swap (servers : list string) : M (option swap) :=
  let* (donors, receivers) := classify_sorted servers in
  match donors, receivers with
  | [], _ => ret None
  | _, [] => ret None
  | _, _ => try_donors donors receivers
  end.

Fixpoint plan_loop (fuel : nat) (servers : list string)
    (swap_plan : list swap) : M (list swap) :=
  match fuel with
  | O => ret swap_plan
  | S fuel' =>
      let* found := find_swap servers in
      match found with
      | None => ret swap_plan
      | Some sw =>
          let* _ := apply_swap sw in
          plan_loop fuel' servers (swap_plan ++ [sw])%list
      end
  end.
End Iteration.

(** [compute_balance_plan] on references to the two dicts of the snapshot. *)
Definition compute_balance_plan (hot_table : string)
    (server_table_count server_table_regions : addr) : M (list swap) :=
  let* outer := load_servers server_table_count in
  let servers := keys outer in
  match servers with
  | [] => ret []
  | _ :: _ =>
      let* stc := copy_counts server_table_count in
      let* str_regions := copy_regions server_table_regions in
      let* c0 := read_counts server_table_count in
      let hot_avg := table_avg_get c0 hot_table in
      plan_loop hot_table hot_avg (table_avg_get c0) stc str_regions
        max_iterations servers []
  end.

(** The objects allocated from reference [n0] on refer only to objects
    allocated from [n0] on. *)
Definition fresh_dict (n0 : nat) (d : dict addr) : Prop :=
  Forall (fun kv => n0 <= snd kv)%nat d.

Definition fresh_obj (n0 : nat) (o : obj) : Prop :=
  match o with
  | OTables d | OServers d => fresh_dict n0 d
  | OCounts _ | ORegions _ => True
  end.

Definition heap_inv (n0 : nat) (h : heap) : Prop :=
  forall a o, (n0 <= a)%nat -> nth_error h a = Some o -> fresh_obj n0 o.

(** Every object below reference [n0] is the same in [h'] as in [h]. *)
Definition unchanged_below (n0 : nat) (h h' : heap) : Prop :=
  forall a, (a < n0)%nat -> nth_error h' a = nth_error h a.

(** [keeps n0 m Q]: run on a store whose objects from [n0] on are closed
    under reference, [m] leaves such a store, with every object below [n0]
    untouched, and a result that satisfies [Q]. *)
Definition keeps (n0 : nat) {A : Type} (m : M A) (Q : A -> Prop) : Prop :=
  forall h, (n0 <= List.length h)%nat -> heap_inv n0 h ->
    match m h with
    | (res, h') =>
        (n0 <= List.length h')%nat /\ heap_inv n0 h'
        /\ unchanged_below n0 h h'
        /\ match res with Ok a => Q a | Raise _ => True end
    end.

(** Every object of [h] is in [h'], unchanged. *)
Definition extends (h h' : heap) : Prop :=
  forall a o, nth_error h a = Some o -> nth_error h' a = Some o.

(** The snapshot's value as seen from its two references. *)
Definition read_snapshot (server_table_count server_table_regions : addr)
    : M (counts_t * regions_t) :=
  let* c := read_counts server_table_count in
  let* r := read_regions server_table_regions in
  ret (c, r).

End Heap.

(** ** The store against the values

    When does a store hold a state of [Module Planner] behind two
    references: the relations that tie the objects of the store to the
    values of the dicts. *)

Module Represents.
Import Planner Heap.

(** Two dicts with the same keys in the same order and related values. *)
Definition cell {V W : Type} (R : V -> W -> Prop) (kv : string * V)
    (kw : string * W) : Prop :=
  fst kv = fst kw /\ R (snd kv) (snd kw).

Definition dict_rel {V W : Type} (R : V -> W -> Prop) (d1 : dict V)
    (d2 : dict W) : Prop :=
  Forall2 (cell R) d1 d2.

(** The object behind a reference, as a value. *)
Definition is_counts (h : heap) (a : addr) (d : dict Z) : Prop :=
  nth_error h a = Some (OCounts d).
Definition is_regions (h : heap) (a : addr) (l : list string) : Prop :=
  nth_error h a = Some (ORegions l).
Definition is_tables (h : heap) (x : addr * dict addr)
    (tables : dict (list string)) : Prop :=
  nth_error h (fst x) = Some (OTables (snd x))
  /\ dict_rel (is_regions h) (snd x) tables.

(** The references of a server -> table -> regions dict: for each server
    the reference to its dict of tables and what that dict holds. *)
Definition shape_t : Type := dict (addr * dict addr).
Definition outer_of (shape : shape_t) : dict addr :=
  map (fun kx => (fst kx, fst (snd kx))) shape.
Definition table_addrs (shape : shape_t) : list addr :=
  map (fun kx => fst (snd kx)) shape.
Definition list_addrs (shape : shape_t) : list addr :=
  flat_map (fun kx => values (snd (snd kx))) shape.

(** The store holds the state [st] behind [stc] and [str]: the objects
    reached are the values of [st], and no two bindings share an object. *)
Definition holds (h : heap) (stc str : addr) (st : state) : Prop :=
  exists co shape,
    nth_error h stc = Some (OServers co)
    /\ dict_rel (is_counts h) co (Planner.stc st)
    /\ NoDup (values co)
    /\ nth_error h str = Some (OServers (outer_of shape))
    /\ dict_rel (is_tables h) shape (Planner.str_regions st)
    /\ NoDup (table_addrs shape)
    /\ NoDup (list_addrs shape).

(** The tables dict of a server, as the planner on the store reads it. *)
Definition tables_in (shape : shape_t) (s : string) : dict addr :=
  match dict_get shape s with
  | Some x => snd x
  | None => []
  end.

(** What a mutation of the store does, against its pure counterpart. *)
Definition tracks (stc str : addr) (m : M unit) (h : heap)
    (res : result state) : Prop :=
  match res with
  | Ok st' => exists h', m h = (Ok tt, h') /\ holds h' stc str st'
  | Raise e => exists h', m h = (Raise e, h')
  end.

(** A dict of lists behind a reference, with no claim on sharing. *)
Definition has_tables (h : heap) (ta : addr) (tables : dict (list string))
    : Prop :=
  exists to, nth_error h ta = Some (OTables to)
             /\ dict_rel (is_regions h) to tables.

(** A reference allocated between two sizes of the store. *)
Definition in_range (lo hi : nat) (a : addr) : Prop := (lo <= a < hi)%nat.

End Represents.

(** ** Vocabulary of the statements *)

Module Notions.
Import Planner Main.

(** [d.get(s, {}).get(t, v0)] *)
Definition get2 {V : Type} (d : dict (dict V)) (s t : string) (v0 : V) : V :=
  dict_get_default (dict_get_default d s []) t v0.

(** The count of table [t] on server [s]. *)
Definition count_of (c : counts_t) (s t : string) : Z := get2 c s t 0.

(** The regions of table [t] listed on server [s]. *)
Definition regions_of (r : regions_t) (s t : string) : list string :=
  get2 r s t [].

(** 1 at the entry [(s, t)], 0 elsewhere. *)
Definition hits (s t s' t' : string) : Z :=
  if String.eqb s s' && String.eqb t t' then 1 else 0.

(** Every count is the length of the matching region list. *)
Definition counts_agree (c : counts_t) (r : regions_t) : Prop :=
  forall s t, count_of c s t = Z.of_nat (List.length (regions_of r s t)).

(** The per-server region dicts have no repeated table. *)
Definition regions_wf (r : regions_t) : Prop :=
  forall s tables, dict_get r s = Some tables -> dict_wf tables.

(** A snapshot as [analyze_distribution] builds it. *)
Definition snapshot_wf (c : counts_t) (r : regions_t) : Prop :=
  regions_wf r /\ counts_agree c r.

(** A table of the receiver that can be traded back: not the hot table, and
    with at least one region listed. *)
Definition eligible (hot_table : string) (item : string * list string) : bool :=
  negb (String.eqb (fst item) hot_table)
  && match snd item with [] => false | _ :: _ => true end.

(** [str_regions.get(receiver_server, {}).items()], eligible ones only. *)
Definition candidates (hot_table : string) (st : state) (receiver : string)
    : list (string * list string) :=
  filter (eligible hot_table) (dict_get_default (str_regions st) receiver []).

(** The score as the specification words it: the receiver's count minus the
    average, less one half when the donor's count plus one would exceed the
    average plus one. *)
Definition spec_score (t_avg_of : string -> Q) (c : counts_t)
    (donor receiver table : string) : Q :=
  let base := (inject_Z (count_of c receiver table) - t_avg_of table)%Q in
  if Qgtb (inject_Z (count_of c donor table) + 1)%Q (t_avg_of table + 1)%Q
  then (base - (1 # 2))%Q
  else base.

(** [(t, r0)] is the best candidate of [cands] for the score [sc]: [t] is
    listed with first region [r0], no candidate scores higher, and every
    candidate met before it scores strictly lower. *)
Definition best_candidate (sc : string -> Q)
    (cands : list (string * list string)) (t r0 : string) : Prop :=
  exists before regs after,
    cands = (before ++ (t, r0 :: regs) :: after)%list
    /\ (forall item, In item before -> (sc (fst item) < sc t)%Q)
    /\ (forall item, In item after -> (sc (fst item) <= sc t)%Q).

(** A donor/receiver pair yields a swap when the donor lists a hot region
    and the receiver has a candidate. *)
Definition yields (hot_table : string) (st : state) (donor receiver : string)
    : Prop :=
  regions_of (str_regions st) donor hot_table <> []
  /\ candidates hot_table st receiver <> [].

(** [sw] is the swap of the first pair, in the priority order of [donors]
    then [receivers], that yields one: no earlier pair yields, the hot region
    is the first one listed on the donor, and the cold table and region are
    the best candidate of the receiver. *)
Definition first_pair_swap (hot_table : string) (t_avg_of : string -> Q)
    (st : state) (donors receivers : list (string * Q)) (sw : swap) : Prop :=
  exists ds1 wd ds2 rs1 wr rs2,
    donors = (ds1 ++ (source sw, wd) :: ds2)%list
    /\ receivers = (rs1 ++ (target sw, wr) :: rs2)%list
    /\ (forall d r, In d (map fst ds1) -> In r (map fst receivers) ->
          ~ yields hot_table st d r)
    /\ (forall r, In r (map fst rs1) -> ~ yields hot_table st (source sw) r)
    /\ (exists rest,
          regions_of (str_regions st) (source sw) hot_table
          = hot_region sw :: rest)
    /\ best_candidate
         (spec_score t_avg_of (stc st) (source sw) (target sw))
         (candidates hot_table st (target sw))
         (cold_table sw) (cold_region sw).

Section Steps.
Variable hot_table : string.
Variable hot_avg : Q.
Variable t_avg_of : string -> Q.
Variable servers : list string.

(** [steps st sws st']: from the working copy [st], successive iterations
    find and apply the swaps [sws] and leave the working copy [st']. *)
Inductive steps : state -> list swap -> state -> Prop :=
| steps_nil (st : state) : steps st [] st
| steps_cons (st st1 st2 : state) (sw : swap) (sws : list swap) :
    find_swap hot_table hot_avg t_avg_of servers st = Ok (Some sw) ->
    apply_swap hot_table st sw = Ok st1 ->
    steps st1 sws st2 ->
    steps st (sw :: sws) st2.
End Steps.

(** The entry [(s, t)], as a test. *)
Definition hit (s t s' t' : string) : bool :=
  String.eqb s s' && String.eqb t t'.

(** The length of a region list, as an integer. *)
Definition len_of (r : regions_t) (s t : string) : Z :=
  Z.of_nat (List.length (regions_of r s t)).

(** Descending weight. *)
Definition weight_ge (a b : string * Q) : Prop := (snd b <= snd a)%Q.

(** The invariant of the working copy. *)
Definition state_ok (servers : list string) (st : state) : Prop :=
  incl servers (keys (stc st))
  /\ regions_wf (str_regions st)
  /\ counts_agree (stc st) (str_regions st).

(** The imbalance weights of the classification. *)
Definition donor_weight (hot_avg : Q) (c : counts_t) (hot_table s : string)
    : Q :=
  (inject_Z (count_of c s hot_table) - hot_avg)%Q.
Definition receiver_weight (hot_avg : Q) (c : counts_t) (hot_table s : string)
    : Q :=
  (hot_avg - inject_Z (count_of c s hot_table))%Q.

(** The distance of a server's hot count to the average. *)
Definition deviation (hot_avg : Q) (c : counts_t) (hot_table s : string) : Q :=
  Qabs (inject_Z (count_of c s hot_table) - hot_avg).

End Notions.

(** ** Scenarios *)

Module Scenarios.
Import Planner Exporter Main.

Local Open Scope string_scope.

(** [n] regions of [table] hosted on [host], named after both. *)
Definition regions_on (table host : string) (n : nat) : list fact :=
  map (fun k => Fact table (fstr [host; "-"; table; "-"; str_of_nat k])
                  host "16020" "1740626070375")
      (seq 0 n).

(** Hot counts 10, 4, 4 (average 6); each receiver has another table. *)
Definition scenario_A : list fact :=
  (regions_on "hot" "S1" 10 ++ regions_on "a" "S1" 1
   ++ regions_on "hot" "S2" 4 ++ regions_on "a" "S2" 3
   ++ regions_on "hot" "S3" 4 ++ regions_on "b" "S3" 2)%list.

(** Hot counts 5, 5, 5. *)
Definition scenario_B : list fact :=
  (regions_on "hot" "S1" 5 ++ regions_on "hot" "S2" 5
   ++ regions_on "a" "S2" 2 ++ regions_on "hot" "S3" 5)%list.

(** Hot counts 2, 1, 1, 1 (average 5/4); only S2 has another table. *)
Definition scenario_E : list fact :=
  (regions_on "hot" "S1" 2 ++ regions_on "hot" "S2" 1
   ++ regions_on "a" "S2" 1 ++ regions_on "hot" "S3" 1
   ++ regions_on "hot" "S4" 1)%list.

Definition counts_of_facts (facts : list fact) : counts_t :=
  server_table_count (analyze_distribution facts).
Definition regions_of_facts (facts : list fact) : regions_t :=
  server_table_regions (analyze_distribution facts).

Definition counts_A : counts_t := counts_of_facts scenario_A.
Definition regions_A : regions_t := regions_of_facts scenario_A.

(** The plan expected on scenario A: four regions leave S1, two for S2 and
    two for S3, each traded for a region of the receiver's other table. *)
Definition plan_A : list swap :=
  [ Swap "S1-hot-0" "S2-a-0" "a" "S1" "S2";
    Swap "S1-hot-1" "S3-b-0" "b" "S1" "S3";
    Swap "S1-hot-2" "S2-a-1" "a" "S1" "S2";
    Swap "S1-hot-3" "S3-b-1" "b" "S1" "S3" ].

(** The working copy scenario A starts from. *)
Definition state_A : state := State counts_A regions_A.

(** A mapping that knows S1 only. *)
Definition fullname_S1 : server_fullname_t :=
  [("S1", "S1,16020,1740626070375")].

(** Counts and region lists that disagree: S1 lists a hot region it does
    not count, and the counts of S2 are negative. *)
Definition counts_bad : counts_t := [("S1", []); ("S2", [("hot", (-4)%Z)])].
Definition regions_bad : regions_t :=
  [("S1", [("hot", ["h1"])]); ("S2", [("a", ["a1"])])].

(** A store holding the snapshot [(c, r)] as objects, every dict and list
    an object of its own, with the references of the two outer dicts. *)
Fixpoint new_counts_items (c : counts_t) : Heap.M (dict Heap.addr) :=
  match c with
  | [] => Heap.ret []
  | (s, d) :: rest =>
      Heap.mbind (Heap.alloc (Heap.OCounts d)) (fun a =>
      Heap.mbind (new_counts_items rest) (fun tl =>
      Heap.ret ((s, a) :: tl)))
  end.

Fixpoint new_lists (d : dict (list string)) : Heap.M (dict Heap.addr) :=
  match d with
  | [] => Heap.ret []
  | (t, l) :: rest =>
      Heap.mbind (Heap.alloc (Heap.ORegions l)) (fun a =>
      Heap.mbind (new_lists rest) (fun tl =>
      Heap.ret ((t, a) :: tl)))
  end.

Fixpoint new_tables_items (r : regions_t) : Heap.M (dict Heap.addr) :=
  match r with
  | [] => Heap.ret []
  | (s, d) :: rest =>
      Heap.mbind (new_lists d) (fun inner =>
      Heap.mbind (Heap.alloc (Heap.OTables inner)) (fun a =>
      Heap.mbind (new_tables_items rest) (fun tl =>
      Heap.ret ((s, a) :: tl))))
  end.

Definition new_snapshot (c : counts_t) (r : regions_t)
    : Heap.M (Heap.addr * Heap.addr) :=
  Heap.mbind (new_counts_items c) (fun ci =>
  Heap.mbind (Heap.alloc (Heap.OServers ci)) (fun ca =>
  Heap.mbind (new_tables_items r) (fun ri =>
  Heap.mbind (Heap.alloc (Heap.OServers ri)) (fun ra =>
  Heap.ret (ca, ra))))).

(** Scenario A as objects of a store, and the references of its dicts. *)
Definition store_A : Heap.heap := snd (new_snapshot counts_A regions_A []).
Definition refs_A : Heap.addr * Heap.addr :=
  match fst (new_snapshot counts_A regions_A []) with
  | Ok refs => refs
  | Raise _ => (O, O)
  end.

End Scenarios.

(** ** The loop of [analyze_distribution] over the lines of the dump *)

Module Dump.
Import Planner Exporter Main.

Local Open Scope string_scope.

(** What the two patterns find on one line: the groups of [server_pattern]
    when it matches; else the groups 2 and 3 of [startcode_pattern] when
    that one matches; else nothing.  The matching itself, from the text of
    the line to the groups, is not modelled. *)
Inductive row : Type :=
| ServerRow (full_table_name encoded_name server_host server_port : string)
| StartcodeRow (encoded_name startcode : string)
| OtherRow.

(** [s.split(',')[0]] *)
Fixpoint before_comma (s : string) : string :=
  match s with
  | EmptyString => EmptyString
  | String ch s' =>
      if Ascii.eqb ch "," then EmptyString else String ch (before_comma s')
  end.

(** [region_server_info]: encoded name -> (table, host, port). *)
Definition region_server_info_t : Type := dict (string * string * string).

(** The body of [for line in f], on the pair of [region_server_info] and
    the four dicts being built. *)
Definition read_row (st : region_server_info_t * analysis) (l : row)
    : region_server_info_t * analysis :=
  match l with
  | ServerRow full_table_name encoded_name server_host server_port =>
      let table_name := before_comma full_table_name in
      if String.prefix "hbase:" table_name then st
      else (dict_set (fst st) encoded_name
              (table_name, server_host, server_port), snd st)
  | StartcodeRow encoded_name startcode =>
      match dict_get (fst st) encoded_name with
      | Some (table_name, server_host, server_port) =>
          (fst st,
           record_region (snd st)
             (Fact table_name encoded_name server_host server_port startcode))
      | None => st
      end
  | OtherRow => st
  end.

Definition analyze_distribution (rows : list row) : analysis :=
  snd (fold_left read_row rows ([], Analysis [] [] [] [])).

End Dump.

(** ** What [print_distribution] and [main] report *)

Module Report.
Import Planner Main.

Local Open Scope string_scope.

(** [sorted(l, key=key)]: stable, keys compared with [<]. *)
Section Sorted.
Context {A K : Type} (ltb : K -> K -> bool) (key : A -> K).

Fixpoint sorted_insert (x : A) (l : list A) : list A :=
  match l with
  | [] => [x]
  | y :: l' =>
      if ltb (key y) (key x) then y :: sorted_insert x l' else x :: l
  end.

Definition sorted_by (l : list A) : list A := fold_right sorted_insert [] l.

(** Ascending in the key and, between two elements whose keys do not
    differ, in the order [before]. *)
Definition in_order (before : A -> A -> Prop) (a b : A) : Prop :=
  ltb (key b) (key a) = false
  /\ (ltb (key a) (key b) = false -> before a b).
End Sorted.

(** One line of [print_distribution]: [(server, count, diff, sign)]. *)
Record dist_row : Type := DistRow {
  row_server : string;
  row_count : Z;
  row_diff : Q;
  row_sign : string
}.

(** The list [items] of [print_distribution]: one entry per server, in the
    order of [sorted(server_table_count.items())].  The keys of a dict are
    distinct, so the pairs are ordered by their server alone. *)
Definition distribution_items (table_name : string)
    (server_table_count : counts_t) : list dist_row :=
  let avg := compute_table_avg table_name server_table_count in
  map (fun item =>
         let count := dict_get_default (snd item) table_name 0 in
         let diff := (inject_Z count - avg)%Q in
         let sign := if Qgtb diff 0 then "+" else "" in
         DistRow (fst item) count diff sign)
      (sorted_by String.ltb fst server_table_count).

(** The entries in the order [print_distribution] prints them:
    [sorted(items, key=lambda x: -x[1])].  The text of a line, with its
    rounding to one decimal, is not modelled. *)
Definition print_distribution (table_name : string)
    (server_table_count : counts_t) : list dist_row :=
  sorted_by Z.ltb (fun x => - row_count x)
    (distribution_items table_name server_table_count).

(** [cold_table_stats] of [main], a [defaultdict(int)]. *)
Definition cold_table_stats (swap_plan : list swap) : dict Z :=
  fold_left
    (fun stats sw =>
       dict_set stats (cold_table sw)
         (dict_get_default stats (cold_table sw) 0 + 1))
    swap_plan [].

(** [sorted(cold_table_stats.items(), key=lambda x: -x[1])] *)
Definition cold_table_report (swap_plan : list swap) : list (string * Z) :=
  sorted_by Z.ltb (fun x => - snd x) (cold_table_stats swap_plan).

End Report.

(** ** Measures of a snapshot *)

Module Measures.
Import Planner Main Notions.

(** The number of regions of all tables counted on server [s]. *)
Definition server_total (c : counts_t) (s : string) : Z :=
  sum (values (dict_get_default c s [])).

(** The per-server count dicts have no repeated table. *)
Definition counts_wf (c : counts_t) : Prop :=
  forall s counts, dict_get c s = Some counts -> dict_wf counts.

(** The hot regions over the whole number [a], summed over the servers. *)
Definition surplus (hot_table : string) (a : Z) (c : counts_t) : Z :=
  sum (map (fun s => Z.max 0 (count_of c s hot_table - a)) (keys c)).

(** How many times region [x] of table [t] is listed, over all servers. *)
Definition region_copies (r : regions_t) (t x : string) : Z :=
  sum (map (fun s => Z.of_nat (count_occ string_dec (regions_of r s t) x))
           (keys r)).

(** Whether the recorded region [f] is of table [t] on server [s]. *)
Definition recorded_on (s t : string) (f : fact) : bool :=
  String.eqb (server_host f) s && String.eqb (table_name f) t.

(** The last element of [l] that satisfies [p]. *)
Definition find_last {A : Type} (p : A -> bool) (l : list A) : option A :=
  find p (rev l).

(** [f"{host},{port},{startcode}"] *)
Definition full_server_name (f : fact) : string :=
  Exporter.fstr [server_host f; ","; server_port f; ","; startcode f]%string.

(** No server over the average lists a hot region while a server under it
    has a table to trade back. *)
Definition no_trade (hot_table : string) (hot_avg : Q) (servers : list string)
    (st : state) : Prop :=
  forall d r,
    In d servers -> In r servers ->
    (hot_avg < inject_Z (count_of (stc st) d hot_table))%Q ->
    (inject_Z (count_of (stc st) r hot_table) < hot_avg)%Q ->
    ~ yields hot_table st d r.

(** Every table kept in [region_server_info] is a user table, read from a
    server row of [rows]. *)
Definition from_server_rows (rows : list Dump.row)
    (rsi : Dump.region_server_info_t) : Prop :=
  forall e t h p,
    dict_get rsi e = Some (t, h, p) ->
    String.prefix "hbase:" t = false
    /\ exists full_table_name,
         In (Dump.ServerRow full_table_name e h p) rows
         /\ t = Dump.before_comma full_table_name.

(** Whether [l] is a server row of region [e] that names a user table. *)
Definition user_server_row (e : string) (l : Dump.row) : bool :=
  match l with
  | Dump.ServerRow full_table_name encoded_name _ _ =>
      String.eqb encoded_name e
      && negb (String.prefix "hbase:" (Dump.before_comma full_table_name))
  | _ => false
  end.

(** The regions that the rows [rows] stand for when the rows [seen] come
    before them: one for each start code row whose region has a server row
    of a user table among the rows before it, with the table, the host and
    the port of the last such row. *)
Fixpoint recorded_after (seen rows : list Dump.row) : list fact :=
  match rows with
  | [] => []
  | l :: rest =>
      (match l with
       | Dump.StartcodeRow encoded_name startcode =>
           match find_last (user_server_row encoded_name) seen with
           | Some (Dump.ServerRow full_table_name _ server_host server_port) =>
               [Fact (Dump.before_comma full_table_name) encoded_name
                  server_host server_port startcode]
           | _ => []
           end
       | _ => []
       end ++ recorded_after (seen ++ [l]) rest)%list
  end.

(** [region_server_info] holds, for each region, what the last server row
    of a user table read for it gave. *)
Definition last_server_row (seen : list Dump.row)
    (rsi : Dump.region_server_info_t) : Prop :=
  forall e,
    dict_get rsi e
    = match find_last (user_server_row e) seen with
      | Some (Dump.ServerRow full_table_name _ h p) =>
          Some (Dump.before_comma full_table_name, h, p)
      | _ => None
      end.

(** A recorded region of a user table, with a start code row and a server
    row in [rows]. *)
Definition from_rows (rows : list Dump.row) (f : fact) : Prop :=
  String.prefix "hbase:" (table_name f) = false
  /\ In (Dump.StartcodeRow (encoded_name f) (startcode f)) rows
  /\ exists full_table_name,
       In (Dump.ServerRow full_table_name (encoded_name f) (server_host f)
             (server_port f)) rows
       /\ table_name f = Dump.before_comma full_table_name.

End Measures.

(** ** More scenarios *)

Module Cases.
Import Planner Exporter Main Scenarios.

Local Open Scope string_scope.

(** Two servers that host the hot table and nothing else, three regions
    against one. *)
Definition counts_hot_only : counts_t :=
  [("S1", [("hot", 3)]); ("S2", [("hot", 1)])].
Definition regions_hot_only : regions_t :=
  [("S1", [("hot", ["h1"; "h2"; "h3"])]); ("S2", [("hot", ["h4"])])].

(** The working copy of scenario A after two iterations. *)
Definition state_A2 : state :=
  match run_planner 2 "hot" counts_A regions_A with
  | Ok (_, st) => st
  | Raise _ => state_A
  end.

(** The working copy of scenario A at the end of the run. *)
Definition state_A_end : state :=
  match run_planner max_iterations "hot" counts_A regions_A with
  | Ok (_, st) => st
  | Raise _ => state_A
  end.

(** A run of [main] on scenario A that writes the file. *)
Definition args_A : args := Args "hot" "move_plan.rb" false.
Definition file_A : file :=
  generate_plan plan_A "move_plan.rb" "hot"
    (server_fullname (analyze_distribution scenario_A)).
Definition outcome_A : outcome := Outcome 0 None (Some plan_A) (Some file_A).

(** The rows of a dump: a system table, a user region with both rows, a
    start code row with no server row before it. *)
Definition rows_D : list Dump.row :=
  [ Dump.ServerRow "hbase:namespace" "0a" "S1" "16020";
    Dump.StartcodeRow "0a" "1740626070375";
    Dump.ServerRow "search:ads,,1638534531339" "b9" "S2" "16020";
    Dump.OtherRow;
    Dump.StartcodeRow "b9" "1740626070375";
    Dump.StartcodeRow "c7" "1740626070375" ].

(** Rows with no start code row. *)
Definition rows_no_startcode : list Dump.row :=
  [ Dump.ServerRow "search:ads,,1638534531339" "b9" "S2" "16020";
    Dump.OtherRow ].

End Cases.

(** ** Notions for the planner with the arithmetic of floats *)

Module Notions64.
Import Planner Main Notions Binary64 Scenarios.

Local Open Scope string_scope.

(** Every count of the dict is in the range of [in_range]. *)
Definition counts_in_range (c : counts_t) : bool :=
  forallb (fun counts => forallb in_range (values counts)) (values c).

(** The score as the code computes it: the receiver's count minus the
    average, less 0.5 when the donor's count plus one exceeds the average
    plus one, each operation on a float rounding its result. *)
Definition score64 (t_avg_of : string -> number) (c : counts_t)
    (donor receiver table : string) : Q :=
  let t_avg := t_avg_of table in
  let base := num_sub (Int (count_of c receiver table)) t_avg in
  let over_average :=
    num_gt (Int (count_of c donor table + 1)) (num_add t_avg (Int 1)) in
  value (if over_average then num_sub base (Float (1 # 2)) else base).

(** [Planner64.beats], on the value of the score. *)
Definition over (x : Q) (best : option (number * string * string)) : bool :=
  match best with
  | None => true
  | Some (best_score, _, _) => Qgtb x (value best_score)
  end.

(** [Notions.first_pair_swap], for the score [score64]. *)
Definition first_pair_swap64 (hot_table : string)
    (t_avg_of : string -> number) (st : state)
    (donors receivers : list (string * number)) (sw : swap) : Prop :=
  exists ds1 wd ds2 rs1 wr rs2,
    donors = (ds1 ++ (source sw, wd) :: ds2)%list
    /\ receivers = (rs1 ++ (target sw, wr) :: rs2)%list
    /\ (forall d r, In d (map fst ds1) -> In r (map fst receivers) ->
          ~ yields hot_table st d r)
    /\ (forall r, In r (map fst rs1) -> ~ yields hot_table st (source sw) r)
    /\ (exists rest,
          regions_of (str_regions st) (source sw) hot_table
          = hot_region sw :: rest)
    /\ best_candidate
         (score64 t_avg_of (stc st) (source sw) (target sw))
         (candidates hot_table st (target sw))
         (cold_table sw) (cold_region sw).

(** Hot counts 2, 0, 1 (average 1).  The receiver S2 has two regions of
    [a] (5 in all, average 5/3) and then one of [b] (2 in all, average
    2/3): the exact scores 2 - 5/3 and 1 - 2/3 are equal. *)
Definition scenario_T : list fact :=
  (regions_on "hot" "S1" 2 ++ regions_on "a" "S1" 1
   ++ regions_on "a" "S2" 2 ++ regions_on "b" "S2" 1
   ++ regions_on "hot" "S3" 1 ++ regions_on "a" "S3" 2
   ++ regions_on "b" "S3" 1)%list.

Definition counts_T : counts_t := counts_of_facts scenario_T.
Definition regions_T : regions_t := regions_of_facts scenario_T.
Definition state_T : state := State counts_T regions_T.

End Notions64.

(** * Properties *)

(** ** Facts about the runtime model *)

Module PyFacts.

Lemma bind_ok {A B : Type} (c : result A) (k : A -> result B) (b : B) :
  bind c k = Ok b -> exists a, c = Ok a /\ k a = Ok b.
Proof.
  destruct c as [a | e]; simpl; intros H; [eauto | discriminate].
Qed.

Lemma dict_get_set {V : Type} (d : dict V) (k k' : string) (v : V) :
  dict_get (dict_set d k v) k' =
  if String.eqb k k' then Some v else dict_get d k'.
Proof.
  induction d as [| [k0 v0] d IH]; simpl.
  - reflexivity.
  - destruct (String.eqb k0 k) eqn:E0; simpl.
    + apply String.eqb_eq in E0; subst k0.
      destruct (String.eqb k k'); reflexivity.
    + destruct (String.eqb k0 k') eqn:E1.
      * apply String.eqb_eq in E1; subst k0.
        rewrite String.eqb_sym, E0. reflexivity.
      * exact IH.
Qed.

Lemma dict_get_set_same {V : Type} (d : dict V) (k : string) (v : V) :
  dict_get (dict_set d k v) k = Some v.
Proof. rewrite dict_get_set, String.eqb_refl. reflexivity. Qed.

Lemma dict_get_In {V : Type} (d : dict V) (k : string) :
  In k (keys d) <-> dict_get d k <> None.
Proof.
  induction d as [| [k0 v0] d IH]; simpl.
  - split; [tauto | congruence].
  - destruct (String.eqb k0 k) eqn:E.
    + apply String.eqb_eq in E. split; [congruence | auto].
    + apply String.eqb_neq in E. rewrite <- IH. split; [| tauto].
      intros [H | H]; [contradiction | assumption].
Qed.

Lemma dict_get_some_In {V : Type} (d : dict V) (k : string) (v : V) :
  dict_get d k = Some v -> In k (keys d).
Proof. intros H. apply dict_get_In. congruence. Qed.

Lemma dict_get_in_items {V : Type} (d : dict V) (k : string) (v : V) :
  dict_get d k = Some v -> In (k, v) d.
Proof.
  induction d as [| [k0 v0] d IH]; simpl; [discriminate |].
  destruct (String.eqb k0 k) eqn:E.
  - apply String.eqb_eq in E. intros [= ->]. subst. auto.
  - auto.
Qed.

(** In a well-formed dict every listed item is the binding of its key. *)
Lemma dict_wf_item {V : Type} (d : dict V) (k : string) (v : V) :
  dict_wf d -> In (k, v) d -> dict_get d k = Some v.
Proof.
  unfold dict_wf. induction d as [| [k0 v0] d IH]; simpl; [tauto |].
  intros Hnd [H | H].
  - inversion H; subst. rewrite String.eqb_refl. reflexivity.
  - inversion Hnd as [| ? ? Hnotin Hnd']; subst.
    destruct (String.eqb k0 k) eqn:E.
    + apply String.eqb_eq in E; subst k0. exfalso. apply Hnotin.
      unfold keys. change k with (fst (k, v)). now apply in_map.
    + auto.
Qed.

Lemma keys_dict_set {V : Type} (d : dict V) (k : string) (v : V) :
  keys (dict_set d k v) = if dict_mem d k then keys d else (keys d ++ [k])%list.
Proof.
  unfold dict_mem. induction d as [| [k0 v0] d IH]; simpl.
  - reflexivity.
  - destruct (String.eqb k0 k) eqn:E; simpl.
    + reflexivity.
    + rewrite IH. destruct (dict_get d k); reflexivity.
Qed.

Lemma keys_dict_set_present {V : Type} (d : dict V) (k : string) (v v' : V) :
  dict_get d k = Some v' -> keys (dict_set d k v) = keys d.
Proof. intros H. rewrite keys_dict_set. unfold dict_mem. now rewrite H. Qed.

Lemma dict_wf_set {V : Type} (d : dict V) (k : string) (v : V) :
  dict_wf d -> dict_wf (dict_set d k v).
Proof.
  unfold dict_wf. intros H. rewrite keys_dict_set. unfold dict_mem.
  destruct (dict_get d k) eqn:E; [assumption |].
  apply NoDup_app; [assumption | repeat constructor; simpl; tauto |].
  intros x Hx [<- | []]. apply dict_get_In in Hx. congruence.
Qed.

Lemma length_dict_set_present {V : Type} (d : dict V) (k : string) (v v' : V) :
  dict_get d k = Some v' ->
  List.length (dict_set d k v) = List.length d.
Proof.
  intros H.
  pose proof (keys_dict_set_present d k v v' H) as Hk.
  apply (f_equal (@List.length _)) in Hk. unfold keys in Hk.
  now rewrite !length_map in Hk.
Qed.

(** The sum of a per-entry measure after overwriting a present key. *)
Lemma sum_values_set {V : Type} (f : V -> Z) (d : dict V) (k : string)
    (v v' : V) :
  dict_get d k = Some v' ->
  sum (map f (values (dict_set d k v))) =
  sum (map f (values d)) - f v' + f v.
Proof.
  induction d as [| [k0 v0] d IH]; simpl; [discriminate |].
  destruct (String.eqb k0 k) eqn:E; simpl.
  - intros [= ->]. lia.
  - intros H. rewrite (IH H). lia.
Qed.

Lemma list_remove_head (x : string) (l : list string) :
  list_remove x (x :: l) = Ok l.
Proof. simpl. now rewrite String.eqb_refl. Qed.

Lemma Qltb_lt (a b : Q) : Qltb a b = true <-> (a < b)%Q.
Proof.
  unfold Qltb. rewrite Qlt_alt. destruct (a ?= b)%Q; split; congruence.
Qed.

Lemma Qltb_ge (a b : Q) : Qltb a b = false <-> (b <= a)%Q.
Proof.
  rewrite <- not_true_iff_false, Qltb_lt. split.
  - apply Qnot_lt_le.
  - intros H H'. apply (Qlt_not_le _ _ H' H).
Qed.

Lemma Qgtb_gt (a b : Q) : Qgtb a b = true <-> (b < a)%Q.
Proof. apply Qltb_lt. Qed.

Lemma Qgtb_le (a b : Q) : Qgtb a b = false <-> (a <= b)%Q.
Proof. apply Qltb_ge. Qed.

Section SortFacts.
Context {A : Type} (key : A -> Q).

Lemma sort_insert_perm (x : A) (l : list A) :
  Permutation (x :: l) (sort_insert key x l).
Proof.
  induction l as [| y l IH]; simpl.
  - apply Permutation_refl.
  - destruct (Qltb (key y) (key x)).
    + eapply perm_trans; [apply perm_swap | now apply perm_skip].
    + apply Permutation_refl.
Qed.

Lemma sort_by_perm (l : list A) : Permutation l (sort_by key l).
Proof.
  induction l as [| x l IH]; simpl.
  - constructor.
  - eapply perm_trans; [apply perm_skip, IH | apply sort_insert_perm].
Qed.

Lemma sort_insert_sorted (x : A) (l : list A) :
  StronglySorted (key_le key) l ->
  StronglySorted (key_le key) (sort_insert key x l).
Proof.
  induction l as [| y l IH]; simpl; intros Hs.
  - repeat constructor.
  - inversion Hs as [| ? ? Hs' Hall]; subst.
    destruct (Qltb (key y) (key x)) eqn:E.
    + constructor; [auto |].
      apply Qltb_lt in E.
      eapply Permutation_Forall; [apply sort_insert_perm |].
      constructor; [apply Qlt_le_weak, E | assumption].
    + apply Qltb_ge in E. constructor; [assumption |].
      constructor; [exact E |].
      eapply Forall_impl; [| exact Hall].
      intros a Ha. unfold key_le in *. eapply Qle_trans; eassumption.
Qed.

Lemma sort_by_sorted (l : list A) : StronglySorted (key_le key) (sort_by key l).
Proof.
  induction l as [| x l IH]; simpl.
  - constructor.
  - now apply sort_insert_sorted.
Qed.

Lemma sort_by_nil (l : list A) : sort_by key l = [] -> l = [].
Proof.
  intros H. apply Permutation_nil. rewrite <- H.
  apply Permutation_sym, sort_by_perm.
Qed.
End SortFacts.

End PyFacts.

(** ** Facts about the nested updates *)

Module UpdateFacts.
Import Planner Main Notions PyFacts.

Lemma get2_set2 {V : Type} (d : dict (dict V)) (s t s' t' : string)
    (inner : dict V) (x v0 : V) :
  dict_get d s = Some inner ->
  get2 (dict_set d s (dict_set inner t x)) s' t' v0 =
  if String.eqb s s' && String.eqb t t' then x else get2 d s' t' v0.
Proof.
  intros H. unfold get2, dict_get_default. rewrite dict_get_set.
  destruct (String.eqb s s') eqn:Es; simpl.
  - apply String.eqb_eq in Es; subst s'. rewrite H, dict_get_set.
    destruct (String.eqb t t'); reflexivity.
  - reflexivity.
Qed.

Lemma get2_item {V : Type} (d : dict (dict V)) (s t : string)
    (inner : dict V) (v v0 : V) :
  dict_get d s = Some inner -> dict_get inner t = Some v -> get2 d s t v0 = v.
Proof. intros H1 H2. unfold get2, dict_get_default. now rewrite H1, H2. Qed.

Lemma table_total_set2 (c : counts_t) (s t t' : string) (inner : dict Z)
    (x : Z) :
  dict_get c s = Some inner ->
  table_total (dict_set c s (dict_set inner t x)) t' =
  table_total c t'
  + (if String.eqb t t' then x - dict_get_default inner t 0 else 0).
Proof.
  intros H. unfold table_total.
  rewrite (sum_values_set _ _ _ _ _ H).
  unfold dict_get_default at 3. rewrite dict_get_set.
  destruct (String.eqb t t') eqn:E.
  - apply String.eqb_eq in E; subst t'. lia.
  - unfold dict_get_default. lia.
Qed.

Lemma decr_inv (c c' : counts_t) (s t : string) :
  decr c s t = Ok c' ->
  exists inner v, dict_get c s = Some inner /\ dict_get inner t = Some v
                  /\ c' = dict_set c s (dict_set inner t (v - 1)).
Proof.
  unfold decr, dict_item. intros H.
  destruct (dict_get c s) as [inner |] eqn:E1; simpl in H; [| discriminate].
  destruct (dict_get inner t) as [v |] eqn:E2; simpl in H; [| discriminate].
  injection H as <-. eauto.
Qed.

Lemma incr_inv (c c' : counts_t) (s t : string) :
  incr c s t = Ok c' ->
  exists inner, dict_get c s = Some inner
                /\ c' = dict_set c s
                          (dict_set inner t (dict_get_default inner t 0 + 1)).
Proof.
  unfold incr, dict_item. intros H.
  destruct (dict_get c s) as [inner |] eqn:E1; simpl in H; [| discriminate].
  injection H as <-. eauto.
Qed.

Lemma decr_count (c c' : counts_t) (s t : string) :
  decr c s t = Ok c' ->
  forall s' t', count_of c' s' t' = count_of c s' t' - hits s t s' t'.
Proof.
  intros H s' t'. apply decr_inv in H as (inner & v & H1 & H2 & ->).
  unfold count_of, hits. rewrite (get2_set2 _ _ _ _ _ _ _ _ H1).
  destruct (String.eqb s s' && String.eqb t t') eqn:E; [| lia].
  apply andb_prop in E as [Es Et].
  apply String.eqb_eq in Es, Et; subst.
  rewrite (get2_item _ _ _ _ _ _ H1 H2). lia.
Qed.

Lemma incr_count (c c' : counts_t) (s t : string) :
  incr c s t = Ok c' ->
  forall s' t', count_of c' s' t' = count_of c s' t' + hits s t s' t'.
Proof.
  intros H s' t'. apply incr_inv in H as (inner & H1 & ->).
  unfold count_of, hits. rewrite (get2_set2 _ _ _ _ _ _ _ _ H1).
  destruct (String.eqb s s' && String.eqb t t') eqn:E; [| lia].
  apply andb_prop in E as [Es Et].
  apply String.eqb_eq in Es, Et; subst.
  unfold get2, dict_get_default at 3. rewrite H1. lia.
Qed.

Lemma decr_total (c c' : counts_t) (s t : string) :
  decr c s t = Ok c' ->
  forall t', table_total c' t' =
             table_total c t' - (if String.eqb t t' then 1 else 0).
Proof.
  intros H t'. apply decr_inv in H as (inner & v & H1 & H2 & ->).
  rewrite (table_total_set2 _ _ _ _ _ _ H1).
  unfold dict_get_default. rewrite H2. destruct (String.eqb t t'); lia.
Qed.

Lemma incr_total (c c' : counts_t) (s t : string) :
  incr c s t = Ok c' ->
  forall t', table_total c' t' =
             table_total c t' + (if String.eqb t t' then 1 else 0).
Proof.
  intros H t'. apply incr_inv in H as (inner & H1 & ->).
  rewrite (table_total_set2 _ _ _ _ _ _ H1).
  destruct (String.eqb t t'); lia.
Qed.

Lemma decr_keys (c c' : counts_t) (s t : string) :
  decr c s t = Ok c' -> keys c' = keys c.
Proof.
  intros H. apply decr_inv in H as (inner & v & H1 & H2 & ->).
  eapply keys_dict_set_present; eassumption.
Qed.

Lemma incr_keys (c c' : counts_t) (s t : string) :
  incr c s t = Ok c' -> keys c' = keys c.
Proof.
  intros H. apply incr_inv in H as (inner & H1 & ->).
  eapply keys_dict_set_present; eassumption.
Qed.

Lemma decr_ok (c : counts_t) (s t : string) :
  In s (keys c) -> count_of c s t <> 0 -> exists c', decr c s t = Ok c'.
Proof.
  intros Hs Hc. unfold decr, dict_item.
  apply dict_get_In in Hs.
  destruct (dict_get c s) as [inner |] eqn:E1; [| congruence]. simpl.
  destruct (dict_get inner t) as [v |] eqn:E2; simpl; [eauto |].
  exfalso. apply Hc. unfold count_of, get2, dict_get_default.
  now rewrite E1, E2.
Qed.

Lemma incr_ok (c : counts_t) (s t : string) :
  In s (keys c) -> exists c', incr c s t = Ok c'.
Proof.
  intros Hs. unfold incr, dict_item. apply dict_get_In in Hs.
  destruct (dict_get c s) as [inner |] eqn:E1; [| congruence]. simpl. eauto.
Qed.

End UpdateFacts.

(** ** Facts about one iteration's search *)

Module SearchFacts.
Import Planner Main Notions PyFacts UpdateFacts.

Ltac inv_bind H :=
  let a := fresh "a" in
  let E := fresh "E" in
  apply bind_ok in H as (a & E & H).

Section Search.
Variable hot_table : string.
Variable hot_avg : Q.

Lemma count_of_item (c : counts_t) (s : string) (counts : dict Z) (t : string) :
  dict_get c s = Some counts -> dict_get_default counts t 0 = count_of c s t.
Proof.
  intros H. unfold count_of, get2.
  replace (dict_get_default c s []) with counts; [reflexivity |].
  unfold dict_get_default. now rewrite H.
Qed.

Lemma classify_total (c : counts_t) (servers : list string) :
  incl servers (keys c) ->
  exists donors receivers,
    classify hot_table hot_avg c servers = Ok (donors, receivers).
Proof.
  induction servers as [| s servers IH]; intros Hincl; simpl.
  - eauto.
  - assert (Hs : In s (keys c)) by (apply Hincl; now left).
    apply dict_get_In in Hs. unfold dict_item.
    destruct (dict_get c s) as [counts |]; [| congruence]. simpl.
    destruct IH as (ds & rs & ->); [intros x Hx; apply Hincl; now right |].
    simpl.
    destruct (Qgtb _ hot_avg); [eauto |].
    destruct (Qltb _ hot_avg); eauto.
Qed.

Lemma classify_inv (c : counts_t) (servers : list string)
    (donors receivers : list (string * Q)) :
  classify hot_table hot_avg c servers = Ok (donors, receivers) ->
  (forall s w, In (s, w) donors <->
     In s servers /\ (hot_avg < inject_Z (count_of c s hot_table))%Q
     /\ w = (inject_Z (count_of c s hot_table) - hot_avg)%Q)
  /\ (forall s w, In (s, w) receivers <->
     In s servers /\ (inject_Z (count_of c s hot_table) < hot_avg)%Q
     /\ w = (hot_avg - inject_Z (count_of c s hot_table))%Q)
  /\ (forall s, In s servers -> In s (keys c)).
Proof.
  revert donors receivers.
  induction servers as [| s servers IH]; intros donors receivers H;
    simpl in H.
  - injection H as <- <-. simpl. repeat split; tauto.
  - inv_bind H. unfold dict_item in E.
    destruct (dict_get c s) as [counts |] eqn:Ec; [| discriminate].
    injection E as <-.
    inv_bind H. destruct a as [ds rs].
    destruct (IH _ _ E) as (IHd & IHr & IHk). clear IH.
    rewrite (count_of_item _ _ _ _ Ec) in H.
    assert (Hk : forall s0, s = s0 \/ In s0 servers -> In s0 (keys c)).
    { intros s0 [<- | H0]; [eapply dict_get_some_In; eassumption | auto]. }
    destruct (Qgtb (inject_Z (count_of c s hot_table)) hot_avg) eqn:Eg.
    + injection H as <- <-. apply Qgtb_gt in Eg.
      split; [| split; [| exact Hk]].
      * intros s0 w. simpl. rewrite IHd. split.
        -- intros [[= <- <-] | (? & ? & ?)]; auto.
        -- intros ([<- | Hin] & Hlt & ->); auto.
      * intros s0 w. simpl. rewrite IHr. split.
        -- intros (? & ? & ?); auto.
        -- intros ([<- | Hin] & Hlt & ->); auto.
           exfalso. apply (Qlt_irrefl hot_avg).
           eapply Qlt_trans; eassumption.
    + apply Qgtb_le in Eg.
      destruct (Qltb (inject_Z (count_of c s hot_table)) hot_avg) eqn:El.
      * injection H as <- <-. apply Qltb_lt in El.
        split; [| split; [| exact Hk]].
        -- intros s0 w. simpl. rewrite IHd. split.
           ++ intros (? & ? & ?); auto.
           ++ intros ([<- | Hin] & Hlt & ->); auto.
              exfalso. apply (Qlt_not_le _ _ Hlt Eg).
        -- intros s0 w. simpl. rewrite IHr. split.
           ++ intros [[= <- <-] | (? & ? & ?)]; auto.
           ++ intros ([<- | Hin] & Hlt & ->); auto.
      * injection H as <- <-. apply Qltb_ge in El.
        split; [| split; [| exact Hk]].
        -- intros s0 w. simpl. rewrite IHd. split.
           ++ intros (? & ? & ?); auto.
           ++ intros ([<- | Hin] & Hlt & ->); auto.
              exfalso. apply (Qlt_not_le _ _ Hlt Eg).
        -- intros s0 w. simpl. rewrite IHr. split.
           ++ intros (? & ? & ?); auto.
           ++ intros ([<- | Hin] & Hlt & ->); auto.
              exfalso. apply (Qlt_not_le _ _ Hlt El).
Qed.

Lemma sort_descending (l : list (string * Q)) :
  StronglySorted weight_ge (sort_by neg_weight l).
Proof.
  pose proof (sort_by_sorted neg_weight l) as H.
  induction H as [| a l' Hs IH Hall]; constructor; [assumption |].
  eapply Forall_impl; [| exact Hall].
  intros b Hb. unfold key_le, neg_weight in Hb. unfold weight_ge.
  apply Qopp_le_compat in Hb. now rewrite !Qopp_involutive in Hb.
Qed.

Lemma classify_sorted_inv (c : counts_t) (servers : list string)
    (donors receivers : list (string * Q)) :
  classify_sorted hot_table hot_avg c servers = Ok (donors, receivers) ->
  exists ds rs,
    classify hot_table hot_avg c servers = Ok (ds, rs)
    /\ donors = sort_by neg_weight ds /\ receivers = sort_by neg_weight rs.
Proof.
  unfold classify_sorted. intros H. inv_bind H. destruct a as [ds rs].
  injection H as <- <-. eauto.
Qed.

Lemma classify_sorted_members (c : counts_t) (servers : list string)
    (donors receivers : list (string * Q)) :
  classify_sorted hot_table hot_avg c servers = Ok (donors, receivers) ->
  (forall s w, In (s, w) donors <->
     In s servers /\ (hot_avg < inject_Z (count_of c s hot_table))%Q
     /\ w = (inject_Z (count_of c s hot_table) - hot_avg)%Q)
  /\ (forall s w, In (s, w) receivers <->
     In s servers /\ (inject_Z (count_of c s hot_table) < hot_avg)%Q
     /\ w = (hot_avg - inject_Z (count_of c s hot_table))%Q)
  /\ (forall s, In s servers -> In s (keys c)).
Proof.
  intros H. apply classify_sorted_inv in H as (ds & rs & H & -> & ->).
  destruct (classify_inv _ _ _ _ H) as (Hd & Hr & Hk).
  split; [| split; [| exact Hk]]; intros s w.
  - rewrite <- Hd. split; apply Permutation_in;
      [apply Permutation_sym |]; apply sort_by_perm.
  - rewrite <- Hr. split; apply Permutation_in;
      [apply Permutation_sym |]; apply sort_by_perm.
Qed.
End Search.

End SearchFacts.

(** ** Facts about the choice of the cold candidate and of the pair *)

Module PairingFacts.
Import Planner Main Notions PyFacts UpdateFacts SearchFacts.

Section Pairing.
Variable hot_table : string.
Variable t_avg_of : string -> Q.

Lemma Qgtb_compat (a a' b b' : Q) :
  (a == a')%Q -> (b == b')%Q -> Qgtb a b = Qgtb a' b'.
Proof.
  intros Ha Hb. destruct (Qgtb a' b') eqn:E.
  - apply Qgtb_gt. apply Qgtb_gt in E. now rewrite Ha, Hb.
  - apply Qgtb_le. apply Qgtb_le in E. now rewrite Ha, Hb.
Qed.

(** The score computed by the code is the specification's score. *)
Lemma cold_score_spec (c : counts_t) (d r : string) (cd cr : dict Z)
    (t : string) :
  dict_get c d = Some cd -> dict_get c r = Some cr ->
  cold_score t_avg_of cr cd t = spec_score t_avg_of c d r t.
Proof.
  intros Hd Hr. unfold cold_score, spec_score.
  rewrite (count_of_item _ _ _ _ Hd), (count_of_item _ _ _ _ Hr).
  rewrite (Qgtb_compat (inject_Z (count_of c d t + 1))
             (inject_Z (count_of c d t) + 1)%Q
             (t_avg_of t + 1)%Q (t_avg_of t + 1)%Q);
    [reflexivity | | reflexivity].
  rewrite inject_Z_plus. reflexivity.
Qed.

Lemma eligible_true (t : string) (r0 : string) (regs : list string) :
  String.eqb t hot_table = false -> eligible hot_table (t, r0 :: regs) = true.
Proof. intros H. unfold eligible. simpl. now rewrite H. Qed.

Lemma eligible_inv (item : string * list string) :
  eligible hot_table item = true ->
  fst item <> hot_table /\ exists r0 regs, snd item = r0 :: regs.
Proof.
  unfold eligible. destruct item as [t [| r0 regs]]; simpl;
    intros H; apply andb_prop in H as [H1 H2]; [discriminate |].
  split; [| eauto]. apply String.eqb_neq.
  now destruct (String.eqb t hot_table).
Qed.

Section Scan.
Variable c : counts_t.
Variables d r : string.
Variables cd cr : dict Z.
Hypothesis Hd : dict_get c d = Some cd.
Hypothesis Hr : dict_get c r = Some cr.

Local Notation "'sc'" := (spec_score t_avg_of c d r).

Lemma scan_cold_spec (items : list (string * list string))
    (best : option (Q * string * string)) :
  exists res,
    scan_cold hot_table t_avg_of c d r items best = Ok res
    /\ ((res = best
         /\ forall item, In item (filter (eligible hot_table) items) ->
              beats (sc (fst item)) best = false)
        \/ (exists t r0,
              res = Some (sc t, t, r0)
              /\ beats (sc t) best = true
              /\ best_candidate sc (filter (eligible hot_table) items)
                   t r0)).
Proof.
  revert best. induction items as [| [t regs] items IH]; intros best.
  - simpl. eexists; split; [reflexivity |]. left. split; [reflexivity |].
    intros item [].
  - simpl scan_cold.
    destruct (String.eqb t hot_table) eqn:Et.
    { destruct (IH best) as (res & Hres & Hcase).
      exists res. split; [exact Hres |]. simpl filter.
      replace (eligible hot_table (t, regs)) with false; [exact Hcase |].
      unfold eligible. simpl. now rewrite Et. }
    destruct regs as [| r0 regs].
    { destruct (IH best) as (res & Hres & Hcase).
      exists res. split; [exact Hres |]. simpl filter.
      replace (eligible hot_table (t, [])) with false; [exact Hcase |].
      unfold eligible. simpl. now rewrite Et. }
    unfold dict_item. rewrite Hr, Hd. simpl bind.
    rewrite (cold_score_spec c d r cd cr t Hd Hr).
    simpl filter. rewrite (eligible_true t r0 regs Et).
    destruct (beats (sc t) best) eqn:Eb.
    + destruct (IH (Some (sc t, t, r0))) as (res & Hres & Hcase).
      exists res. split; [exact Hres |]. right.
      destruct Hcase as [[-> Hall] | (t' & r0' & -> & Hb & Hbest)].
      * exists t, r0. split; [reflexivity |]. split; [exact Eb |].
        exists [], regs, (filter (eligible hot_table) items).
        split; [reflexivity |]. split; [intros item [] |].
        intros item Hin. apply Hall in Hin. simpl in Hin.
        now apply Qgtb_le in Hin.
      * simpl in Hb. apply Qgtb_gt in Hb.
        exists t', r0'. split; [reflexivity |]. split.
        -- destruct best as [[[bs ?] ?] |]; [| reflexivity].
           simpl in *. apply Qgtb_gt. apply Qgtb_gt in Eb.
           eapply Qlt_trans; eassumption.
        -- destruct Hbest as (before & regs' & after & Hsplit & Hb1 & Hb2).
           exists ((t, r0 :: regs) :: before), regs', after.
           split; [simpl; now rewrite Hsplit |]. split; [| exact Hb2].
           intros item [<- | Hin]; [exact Hb | auto].
    + destruct best as [[[bs bt] br] |]; [| discriminate].
      simpl in Eb. apply Qgtb_le in Eb.
      destruct (IH (Some (bs, bt, br))) as (res & Hres & Hcase).
      exists res. split; [exact Hres |].
      destruct Hcase as [[-> Hall] | (t' & r0' & -> & Hb & Hbest)].
      * left. split; [reflexivity |].
        intros item [<- | Hin]; [| auto]. simpl. now apply Qgtb_le.
      * right. simpl in Hb.
        exists t', r0'. split; [reflexivity |]. split; [exact Hb |].
        apply Qgtb_gt in Hb.
        destruct Hbest as (before & regs' & after & Hsplit & Hb1 & Hb2).
        exists ((t, r0 :: regs) :: before), regs', after.
        split; [simpl; now rewrite Hsplit |]. split; [| exact Hb2].
        intros item [<- | Hin]; [| auto]. simpl.
        eapply Qle_lt_trans; eassumption.
Qed.

Lemma scan_cold_top (items : list (string * list string)) :
  exists res,
    scan_cold hot_table t_avg_of c d r items None = Ok res
    /\ match res with
       | None => filter (eligible hot_table) items = []
       | Some (_, t, r0) =>
           best_candidate sc (filter (eligible hot_table) items) t r0
       end.
Proof.
  destruct (scan_cold_spec items None) as (res & Hres & Hcase).
  exists res. split; [exact Hres |].
  destruct Hcase as [[-> Hall] | (t & r0 & -> & _ & Hbest)];
    [| exact Hbest].
  destruct (filter (eligible hot_table) items) as [| item l];
    [reflexivity |].
  specialize (Hall item (or_introl eq_refl)). discriminate.
Qed.
End Scan.

Lemma try_receivers_spec (st : state) (d hr : string) (cd : dict Z)
    (receivers : list (string * Q)) :
  dict_get (stc st) d = Some cd ->
  (forall r, In r (map fst receivers) -> In r (keys (stc st))) ->
  exists found,
    try_receivers hot_table t_avg_of st d hr receivers = Ok found
    /\ match found with
       | None =>
           forall r, In r (map fst receivers) ->
                     candidates hot_table st r = []
       | Some sw =>
           source sw = d /\ hot_region sw = hr
           /\ exists rs1 wr rs2,
                receivers = (rs1 ++ (target sw, wr) :: rs2)%list
                /\ (forall r, In r (map fst rs1) ->
                              candidates hot_table st r = [])
                /\ best_candidate
                     (spec_score t_avg_of (stc st) d (target sw))
                     (candidates hot_table st (target sw))
                     (cold_table sw) (cold_region sw)
       end.
Proof.
  intros Hd. induction receivers as [| [r w] receivers IH]; intros Hkeys.
  - simpl. eexists; split; [reflexivity |]. intros r [].
  - simpl try_receivers.
    assert (Hr : In r (keys (stc st))) by (apply Hkeys; now left).
    apply dict_get_In in Hr.
    destruct (dict_get (stc st) r) as [cr |] eqn:Er; [| congruence].
    destruct (scan_cold_top (stc st) d r cd cr Hd Er
                (dict_get_default (str_regions st) r []))
      as (res & -> & Hres).
    simpl bind. destruct res as [[[s t] r0] |].
    + eexists; split; [reflexivity |]. simpl.
      split; [reflexivity |]. split; [reflexivity |].
      exists [], w, receivers. split; [reflexivity |].
      split; [intros ? [] | exact Hres].
    + destruct IH as (found & Hfound & Hcase);
        [intros r' Hr'; apply Hkeys; now right |].
      exists found. split; [exact Hfound |].
      destruct found as [sw |].
      * destruct Hcase as (Hs & Hh & rs1 & wr & rs2 & -> & Hnone & Hbest).
        split; [exact Hs |]. split; [exact Hh |].
        exists ((r, w) :: rs1), wr, rs2. split; [reflexivity |].
        split; [| exact Hbest].
        intros r' [<- | Hr']; [exact Hres | auto].
      * intros r' [<- | Hr']; [exact Hres | auto].
Qed.

Lemma try_donors_spec (st : state) (donors receivers : list (string * Q)) :
  (forall d, In d (map fst donors) -> In d (keys (stc st))) ->
  (forall r, In r (map fst receivers) -> In r (keys (stc st))) ->
  exists found,
    try_donors hot_table t_avg_of st donors receivers = Ok found
    /\ match found with
       | None =>
           forall d r, In d (map fst donors) -> In r (map fst receivers) ->
                       ~ yields hot_table st d r
       | Some sw => first_pair_swap hot_table t_avg_of st donors receivers sw
       end.
Proof.
  intros Hdk Hrk. induction donors as [| [d w] donors IH].
  - simpl. eexists; split; [reflexivity |]. intros d r [].
  - simpl try_donors.
    destruct IH as (found' & Hfound' & Hcase');
      [intros d' Hd'; apply Hdk; now right |].
    assert (Hskip : (forall r, In r (map fst receivers) ->
                               ~ yields hot_table st d r) ->
      exists found,
        Ok found' = Ok found
        /\ match found with
           | None =>
               forall d0 r, In d0 (map fst ((d, w) :: donors)) ->
                 In r (map fst receivers) -> ~ yields hot_table st d0 r
           | Some sw =>
               first_pair_swap hot_table t_avg_of st ((d, w) :: donors)
                 receivers sw
           end).
    { intros Hno. exists found'. split; [reflexivity |].
      destruct found' as [sw |].
      - destruct Hcase'
          as (ds1 & wd & ds2 & rs1 & wr & rs2 & -> & -> & H1 & H2 & H3 & H4).
        exists ((d, w) :: ds1), wd, ds2, rs1, wr, rs2.
        split; [reflexivity |]. split; [reflexivity |].
        split; [| auto].
        intros d0 r [<- | Hd0] Hr0; [apply Hno; exact Hr0 | auto].
      - intros d0 r [<- | Hd0] Hr0; [apply Hno; exact Hr0 | auto]. }
    fold (get2 (str_regions st) d hot_table ([] : list string)).
    fold (regions_of (str_regions st) d hot_table).
    destruct (regions_of (str_regions st) d hot_table) as [| hr rest] eqn:Eh.
    + rewrite Hfound'. apply Hskip.
      intros r _ [Hy _]. apply Hy. exact Eh.
    + assert (Hd : In d (keys (stc st))) by (apply Hdk; now left).
      apply dict_get_In in Hd.
      destruct (dict_get (stc st) d) as [cd |] eqn:Ed; [| congruence].
      destruct (try_receivers_spec st d hr cd receivers Ed Hrk)
        as (found & -> & Hcase).
      simpl bind. destruct found as [sw |].
      * eexists; split; [reflexivity |].
        destruct Hcase as (Hs & Hh & rs1 & wr & rs2 & -> & Hnone & Hbest).
        exists [], w, donors, rs1, wr, rs2. subst d hr.
        split; [reflexivity |]. split; [reflexivity |].
        split; [intros ? ? [] |].
        split; [intros r Hr [_ Hy]; apply Hy; auto |].
        split; [eauto | exact Hbest].
      * rewrite Hfound'. apply Hskip.
        intros r Hr [_ Hy]. apply Hy. auto.
Qed.

Lemma find_swap_spec (hot_avg : Q) (servers : list string) (st : state) :
  incl servers (keys (stc st)) ->
  exists donors receivers found,
    classify_sorted hot_table hot_avg (stc st) servers
    = Ok (donors, receivers)
    /\ find_swap hot_table hot_avg t_avg_of servers st = Ok found
    /\ match found with
       | None =>
           forall d r, In d (map fst donors) -> In r (map fst receivers) ->
                       ~ yields hot_table st d r
       | Some sw => first_pair_swap hot_table t_avg_of st donors receivers sw
       end.
Proof.
  intros Hincl.
  destruct (classify_total hot_table hot_avg _ _ Hincl) as (ds & rs & Hc).
  assert (Hcs : classify_sorted hot_table hot_avg (stc st) servers
                = Ok (sort_by neg_weight ds, sort_by neg_weight rs)).
  { unfold classify_sorted. now rewrite Hc. }
  destruct (classify_sorted_members _ _ _ _ _ _ Hcs) as (Hd & Hr & Hk).
  set (donors := sort_by neg_weight ds) in *.
  set (receivers := sort_by neg_weight rs) in *.
  assert (Hdk : forall d, In d (map fst donors) -> In d (keys (stc st))).
  { intros d Hin. apply in_map_iff in Hin as ([d' w] & <- & Hin).
    apply Hd in Hin. apply Hk. tauto. }
  assert (Hrk : forall r, In r (map fst receivers) -> In r (keys (stc st))).
  { intros r Hin. apply in_map_iff in Hin as ([r' w] & <- & Hin).
    apply Hr in Hin. apply Hk. tauto. }
  destruct (try_donors_spec st donors receivers Hdk Hrk)
    as (found & Hfound & Hcase).
  unfold find_swap. rewrite Hcs. simpl bind.
  destruct donors as [| d0 donors'] eqn:Edon.
  { exists [], receivers, None. repeat split. intros d r []. }
  destruct receivers as [| r0 receivers'] eqn:Erec.
  { exists (d0 :: donors'), [], None. repeat split. intros d r _ []. }
  exists (d0 :: donors'), (r0 :: receivers'), found. auto.
Qed.
End Pairing.

End PairingFacts.

(** ** The search of one iteration, with the arithmetic of floats *)

Module Pairing64Facts.
Import Planner Main Notions Binary64 Planner64 Notions64.
Import PyFacts UpdateFacts SearchFacts PairingFacts.

(** [round64] gives the floats of the machine: the quotients, the
    differences and the comparison behind the scores of [scenario_T], a
    tie, a number over [2^53] and a subnormal number. *)
Example round64_is_binary64 :
  float_value (5 / 3)%float = Some (round64 (5 # 3))
  /\ float_value (2 / 3)%float = Some (round64 (2 # 3))
  /\ float_value (2 - 5 / 3)%float = Some (round64 (2 - round64 (5 # 3)))
  /\ float_value (1 - 2 / 3)%float = Some (round64 (1 - round64 (2 # 3)))
  /\ PrimFloat.ltb (2 - 5 / 3)%float (1 - 2 / 3)%float = true
  /\ float_value (9007199254740992 + 1)%float
     = Some (round64 (inject_Z (2 ^ 53 + 1)))
  /\ float_value (9007199254740992 + 3)%float
     = Some (round64 (inject_Z (2 ^ 53 + 3)))
  /\ float_value (1 / 9007199254740992 / 9007199254740992 - 1 / 2)%float
     = Some (round64 (round64 (1 # (2 ^ 106)) - (1 # 2)))
  /\ float_value (3 / 0x1p537 / 0x1p538)%float
     = Some (round64 (3 # (2 ^ 1075))).
Proof. vm_compute. repeat split. Qed.

Section Pairing64.
Variable hot_table : string.
Variable t_avg_of : string -> number.

Lemma classify64_total (hot_avg : number) (c : counts_t)
    (servers : list string) :
  incl servers (keys c) ->
  exists donors receivers,
    classify hot_table hot_avg c servers = Ok (donors, receivers).
Proof.
  induction servers as [| s servers IH]; intros Hincl; simpl.
  - eauto.
  - assert (Hs : In s (keys c)) by (apply Hincl; now left).
    apply dict_get_In in Hs. unfold dict_item.
    destruct (dict_get c s) as [counts |]; [| congruence]. simpl.
    destruct IH as (ds & rs & ->); [intros x Hx; apply Hincl; now right |].
    simpl.
    destruct (num_gt _ hot_avg); [eauto |].
    destruct (num_lt _ hot_avg); eauto.
Qed.

(** A classified server is one of the servers passed in, with its hot
    count over the average for a donor and under it for a receiver. *)
Lemma classify64_inv (hot_avg : number) (c : counts_t)
    (servers : list string) (donors receivers : list (string * number)) :
  classify hot_table hot_avg c servers = Ok (donors, receivers) ->
  (forall s w, In (s, w) donors ->
     In s servers
     /\ (value hot_avg < inject_Z (count_of c s hot_table))%Q)
  /\ (forall s w, In (s, w) receivers ->
     In s servers
     /\ (inject_Z (count_of c s hot_table) < value hot_avg)%Q).
Proof.
  revert donors receivers.
  induction servers as [| s servers IH]; intros donors receivers H;
    simpl in H.
  - injection H as <- <-. split; intros s w [].
  - inv_bind H. unfold dict_item in E.
    destruct (dict_get c s) as [counts |] eqn:Ec; [| discriminate].
    injection E as <-.
    inv_bind H. destruct a as [ds rs].
    destruct (IH _ _ E) as (IHd & IHr). clear IH.
    rewrite (count_of_item _ _ _ _ Ec) in H.
    assert (Hd : forall s0 w, In (s0, w) ds ->
              (s = s0 \/ In s0 servers)
              /\ (value hot_avg < inject_Z (count_of c s0 hot_table))%Q).
    { intros s0 w Hin. destruct (IHd _ _ Hin). auto. }
    assert (Hr : forall s0 w, In (s0, w) rs ->
              (s = s0 \/ In s0 servers)
              /\ (inject_Z (count_of c s0 hot_table) < value hot_avg)%Q).
    { intros s0 w Hin. destruct (IHr _ _ Hin). auto. }
    destruct (num_gt (Int (count_of c s hot_table)) hot_avg) eqn:Eg.
    + injection H as <- <-. apply Qgtb_gt in Eg. cbn [value] in Eg.
      split; [| exact Hr].
      intros s0 w [[= <- <-] | Hin]; [| exact (Hd _ _ Hin)].
      split; [now left | exact Eg].
    + destruct (num_lt (Int (count_of c s hot_table)) hot_avg) eqn:El.
      * injection H as <- <-. apply Qltb_lt in El. cbn [value] in El.
        split; [exact Hd |].
        intros s0 w [[= <- <-] | Hin]; [| exact (Hr _ _ Hin)].
        split; [now left | exact El].
      * injection H as <- <-. split; assumption.
Qed.

Lemma classify_sorted64_members (hot_avg : number) (c : counts_t)
    (servers : list string) (donors receivers : list (string * number)) :
  classify_sorted hot_table hot_avg c servers = Ok (donors, receivers) ->
  (forall s, In s (map fst donors) ->
     In s servers
     /\ (value hot_avg < inject_Z (count_of c s hot_table))%Q)
  /\ (forall s, In s (map fst receivers) ->
     In s servers
     /\ (inject_Z (count_of c s hot_table) < value hot_avg)%Q).
Proof.
  unfold classify_sorted. intros H. inv_bind H. destruct a as [ds rs].
  injection H as <- <-.
  destruct (classify64_inv _ _ _ _ _ E) as (Hd & Hr).
  split; intros s Hin; apply in_map_iff in Hin as ([s' w] & <- & Hin);
    cbn [fst].
  - apply (Hd s' w). eapply Permutation_in;
      [apply Permutation_sym, sort_by_perm | exact Hin].
  - apply (Hr s' w). eapply Permutation_in;
      [apply Permutation_sym, sort_by_perm | exact Hin].
Qed.

(** The score computed by the code is [score64]. *)
Lemma cold_score64_spec (c : counts_t) (d r : string) (cd cr : dict Z)
    (t : string) :
  dict_get c d = Some cd -> dict_get c r = Some cr ->
  value (cold_score t_avg_of cr cd t) = score64 t_avg_of c d r t.
Proof.
  intros Hd Hr. unfold cold_score, score64.
  now rewrite (count_of_item _ _ _ _ Hd), (count_of_item _ _ _ _ Hr).
Qed.

Section Scan64.
Variable c : counts_t.
Variables d r : string.
Variables cd cr : dict Z.
Hypothesis Hd : dict_get c d = Some cd.
Hypothesis Hr : dict_get c r = Some cr.

Local Notation "'sc'" := (score64 t_avg_of c d r).

Lemma scan_cold64_spec (items : list (string * list string))
    (best : option (number * string * string)) :
  exists res,
    scan_cold hot_table t_avg_of c d r items best = Ok res
    /\ ((res = best
         /\ forall item, In item (filter (eligible hot_table) items) ->
              over (sc (fst item)) best = false)
        \/ (exists s t r0,
              res = Some (s, t, r0)
              /\ value s = sc t
              /\ over (sc t) best = true
              /\ best_candidate sc (filter (eligible hot_table) items)
                   t r0)).
Proof.
  revert best. induction items as [| [t regs] items IH]; intros best.
  - simpl. eexists; split; [reflexivity |]. left. split; [reflexivity |].
    intros item [].
  - simpl scan_cold.
    destruct (String.eqb t hot_table) eqn:Et.
    { destruct (IH best) as (res & Hres & Hcase).
      exists res. split; [exact Hres |]. simpl filter.
      replace (eligible hot_table (t, regs)) with false; [exact Hcase |].
      unfold eligible. simpl. now rewrite Et. }
    destruct regs as [| r0 regs].
    { destruct (IH best) as (res & Hres & Hcase).
      exists res. split; [exact Hres |]. simpl filter.
      replace (eligible hot_table (t, [])) with false; [exact Hcase |].
      unfold eligible. simpl. now rewrite Et. }
    unfold dict_item. rewrite Hr, Hd. simpl bind.
    pose proof (cold_score64_spec c d r cd cr t Hd Hr) as Hsc.
    set (s0 := cold_score t_avg_of cr cd t) in *.
    assert (Hbeats : beats s0 best = over (sc t) best).
    { rewrite <- Hsc. destruct best as [[[bs ?] ?] |]; reflexivity. }
    rewrite Hbeats.
    simpl filter. rewrite (eligible_true hot_table t r0 regs Et).
    destruct (over (sc t) best) eqn:Eb.
    + destruct (IH (Some (s0, t, r0))) as (res & Hres & Hcase).
      exists res. split; [exact Hres |]. right.
      destruct Hcase as [[-> Hall] | (s' & t' & r0' & -> & Hs' & Hb & Hbest)].
      * exists s0, t, r0. split; [reflexivity |]. split; [exact Hsc |].
        split; [exact Eb |].
        exists [], regs, (filter (eligible hot_table) items).
        split; [reflexivity |]. split; [intros item [] |].
        intros item Hin. apply Hall in Hin. cbn [over] in Hin.
        rewrite Hsc in Hin. now apply Qgtb_le in Hin.
      * cbn [over] in Hb. rewrite Hsc in Hb. apply Qgtb_gt in Hb.
        exists s', t', r0'. split; [reflexivity |]. split; [exact Hs' |].
        split.
        -- destruct best as [[[bs ?] ?] |]; [| reflexivity].
           cbn [over] in *. apply Qgtb_gt. apply Qgtb_gt in Eb.
           eapply Qlt_trans; eassumption.
        -- destruct Hbest as (before & regs' & after & Hsplit & Hb1 & Hb2).
           exists ((t, r0 :: regs) :: before), regs', after.
           split; [simpl; now rewrite Hsplit |]. split; [| exact Hb2].
           intros item [<- | Hin]; [exact Hb | auto].
    + destruct best as [[[bs bt] br] |]; [| discriminate].
      cbn [over] in Eb. apply Qgtb_le in Eb.
      destruct (IH (Some (bs, bt, br))) as (res & Hres & Hcase).
      exists res. split; [exact Hres |].
      destruct Hcase as [[-> Hall] | (s' & t' & r0' & -> & Hs' & Hb & Hbest)].
      * left. split; [reflexivity |].
        intros item [<- | Hin]; [| auto]. cbn [over fst].
        now apply Qgtb_le.
      * right. cbn [over] in Hb.
        exists s', t', r0'. split; [reflexivity |]. split; [exact Hs' |].
        split; [exact Hb |].
        apply Qgtb_gt in Hb.
        destruct Hbest as (before & regs' & after & Hsplit & Hb1 & Hb2).
        exists ((t, r0 :: regs) :: before), regs', after.
        split; [simpl; now rewrite Hsplit |]. split; [| exact Hb2].
        intros item [<- | Hin]; [| auto]. cbn [fst].
        eapply Qle_lt_trans; eassumption.
Qed.

Lemma scan_cold64_top (items : list (string * list string)) :
  exists res,
    scan_cold hot_table t_avg_of c d r items None = Ok res
    /\ match res with
       | None => filter (eligible hot_table) items = []
       | Some (_, t, r0) =>
           best_candidate sc (filter (eligible hot_table) items) t r0
       end.
Proof.
  destruct (scan_cold64_spec items None) as (res & Hres & Hcase).
  exists res. split; [exact Hres |].
  destruct Hcase as [[-> Hall] | (s & t & r0 & -> & _ & _ & Hbest)];
    [| exact Hbest].
  destruct (filter (eligible hot_table) items) as [| item l];
    [reflexivity |].
  specialize (Hall item (or_introl eq_refl)). discriminate.
Qed.
End Scan64.

Lemma try_receivers64_spec (st : state) (d hr : string) (cd : dict Z)
    (receivers : list (string * number)) :
  dict_get (stc st) d = Some cd ->
  (forall r, In r (map fst receivers) -> In r (keys (stc st))) ->
  exists found,
    try_receivers hot_table t_avg_of st d hr receivers = Ok found
    /\ match found with
       | None =>
           forall r, In r (map fst receivers) ->
                     candidates hot_table st r = []
       | Some sw =>
           source sw = d /\ hot_region sw = hr
           /\ exists rs1 wr rs2,
                receivers = (rs1 ++ (target sw, wr) :: rs2)%list
                /\ (forall r, In r (map fst rs1) ->
                              candidates hot_table st r = [])
                /\ best_candidate
                     (score64 t_avg_of (stc st) d (target sw))
                     (candidates hot_table st (target sw))
                     (cold_table sw) (cold_region sw)
       end.
Proof.
  intros Hd. induction receivers as [| [r w] receivers IH]; intros Hkeys.
  - simpl. eexists; split; [reflexivity |]. intros r [].
  - simpl try_receivers.
    assert (Hr : In r (keys (stc st))) by (apply Hkeys; now left).
    apply dict_get_In in Hr.
    destruct (dict_get (stc st) r) as [cr |] eqn:Er; [| congruence].
    destruct (scan_cold64_top (stc st) d r cd cr Hd Er
                (dict_get_default (str_regions st) r []))
      as (res & -> & Hres).
    simpl bind. destruct res as [[[s t] r0] |].
    + eexists; split; [reflexivity |]. simpl.
      split; [reflexivity |]. split; [reflexivity |].
      exists [], w, receivers. split; [reflexivity |].
      split; [intros ? [] | exact Hres].
    + destruct IH as (found & Hfound & Hcase);
        [intros r' Hr'; apply Hkeys; now right |].
      exists found. split; [exact Hfound |].
      destruct found as [sw |].
      * destruct Hcase as (Hs & Hh & rs1 & wr & rs2 & -> & Hnone & Hbest).
        split; [exact Hs |]. split; [exact Hh |].
        exists ((r, w) :: rs1), wr, rs2. split; [reflexivity |].
        split; [| exact Hbest].
        intros r' [<- | Hr']; [exact Hres | auto].
      * intros r' [<- | Hr']; [exact Hres | auto].
Qed.

Lemma try_donors64_spec (st : state)
    (donors receivers : list (string * number)) :
  (forall d, In d (map fst donors) -> In d (keys (stc st))) ->
  (forall r, In r (map fst receivers) -> In r (keys (stc st))) ->
  exists found,
    try_donors hot_table t_avg_of st donors receivers = Ok found
    /\ match found with
       | None =>
           forall d r, In d (map fst donors) -> In r (map fst receivers) ->
                       ~ yields hot_table st d r
       | Some sw =>
           first_pair_swap64 hot_table t_avg_of st donors receivers sw
       end.
Proof.
  intros Hdk Hrk. induction donors as [| [d w] donors IH].
  - simpl. eexists; split; [reflexivity |]. intros d r [].
  - simpl try_donors.
    destruct IH as (found' & Hfound' & Hcase');
      [intros d' Hd'; apply Hdk; now right |].
    assert (Hskip : (forall r, In r (map fst receivers) ->
                               ~ yields hot_table st d r) ->
      exists found,
        Ok found' = Ok found
        /\ match found with
           | None =>
               forall d0 r, In d0 (map fst ((d, w) :: donors)) ->
                 In r (map fst receivers) -> ~ yields hot_table st d0 r
           | Some sw =>
               first_pair_swap64 hot_table t_avg_of st ((d, w) :: donors)
                 receivers sw
           end).
    { intros Hno. exists found'. split; [reflexivity |].
      destruct found' as [sw |].
      - destruct Hcase'
          as (ds1 & wd & ds2 & rs1 & wr & rs2 & -> & -> & H1 & H2 & H3 & H4).
        exists ((d, w) :: ds1), wd, ds2, rs1, wr, rs2.
        split; [reflexivity |]. split; [reflexivity |].
        split; [| auto].
        intros d0 r [<- | Hd0] Hr0; [apply Hno; exact Hr0 | auto].
      - intros d0 r [<- | Hd0] Hr0; [apply Hno; exact Hr0 | auto]. }
    fold (get2 (str_regions st) d hot_table ([] : list string)).
    fold (regions_of (str_regions st) d hot_table).
    destruct (regions_of (str_regions st) d hot_table) as [| hr rest] eqn:Eh.
    + rewrite Hfound'. apply Hskip.
      intros r _ [Hy _]. apply Hy. exact Eh.
    + assert (Hd : In d (keys (stc st))) by (apply Hdk; now left).
      apply dict_get_In in Hd.
      destruct (dict_get (stc st) d) as [cd |] eqn:Ed; [| congruence].
      destruct (try_receivers64_spec st d hr cd receivers Ed Hrk)
        as (found & -> & Hcase).
      simpl bind. destruct found as [sw |].
      * eexists; split; [reflexivity |].
        destruct Hcase as (Hs & Hh & rs1 & wr & rs2 & -> & Hnone & Hbest).
        exists [], w, donors, rs1, wr, rs2. subst d hr.
        split; [reflexivity |]. split; [reflexivity |].
        split; [intros ? ? [] |].
        split; [intros r Hr [_ Hy]; apply Hy; auto |].
        split; [eauto | exact Hbest].
      * rewrite Hfound'. apply Hskip.
        intros r Hr [_ Hy]. apply Hy. auto.
Qed.

Lemma find_swap64_spec (hot_avg : number) (servers : list string)
    (st : state) :
  incl servers (keys (stc st)) ->
  exists donors receivers found,
    classify_sorted hot_table hot_avg (stc st) servers
    = Ok (donors, receivers)
    /\ find_swap hot_table hot_avg t_avg_of servers st = Ok found
    /\ match found with
       | None =>
           forall d r, In d (map fst donors) -> In r (map fst receivers) ->
                       ~ yields hot_table st d r
       | Some sw =>
           first_pair_swap64 hot_table t_avg_of st donors receivers sw
       end.
Proof.
  intros Hincl.
  destruct (classify64_total hot_avg _ _ Hincl) as (ds & rs & Hc).
  assert (Hcs : classify_sorted hot_table hot_avg (stc st) servers
                = Ok (sort_by neg_weight ds, sort_by neg_weight rs)).
  { unfold classify_sorted. now rewrite Hc. }
  destruct (classify_sorted64_members _ _ _ _ _ Hcs) as (Hd & Hr).
  set (donors := sort_by neg_weight ds) in *.
  set (receivers := sort_by neg_weight rs) in *.
  assert (Hdk : forall d, In d (map fst donors) -> In d (keys (stc st))).
  { intros d Hin. apply Hincl. now apply Hd. }
  assert (Hrk : forall r, In r (map fst receivers) -> In r (keys (stc st))).
  { intros r Hin. apply Hincl. now apply Hr. }
  destruct (try_donors64_spec st donors receivers Hdk Hrk)
    as (found & Hfound & Hcase).
  unfold find_swap. rewrite Hcs. simpl bind.
  destruct donors as [| d0 donors'] eqn:Edon.
  { exists [], receivers, None. repeat split. intros d r []. }
  destruct receivers as [| r0 receivers'] eqn:Erec.
  { exists (d0 :: donors'), [], None. repeat split. intros d r _ []. }
  exists (d0 :: donors'), (r0 :: receivers'), found. auto.
Qed.
End Pairing64.

End Pairing64Facts.

(** ** Facts about applying a swap *)

Module SwapFacts.
Import Planner Main Notions PyFacts UpdateFacts SearchFacts PairingFacts.

Lemma hits_hit (s t s' t' : string) :
  hits s t s' t' = if hit s t s' t' then 1 else 0.
Proof. reflexivity. Qed.

Lemma hit_true (s t s' t' : string) :
  hit s t s' t' = true <-> s = s' /\ t = t'.
Proof.
  unfold hit. rewrite andb_true_iff, !String.eqb_eq. tauto.
Qed.

Lemma hits_same (s t : string) : hits s t s t = 1.
Proof. unfold hits. now rewrite !String.eqb_refl. Qed.

Lemma hits_other_server (s t s' t' : string) : s <> s' -> hits s t s' t' = 0.
Proof.
  intros H. unfold hits. apply String.eqb_neq in H. now rewrite H.
Qed.

Lemma hits_other_table (s t s' t' : string) : t <> t' -> hits s t s' t' = 0.
Proof.
  intros H. unfold hits. apply String.eqb_neq in H. rewrite H.
  now rewrite andb_false_r.
Qed.

Lemma get2_set {V : Type} (d : dict (dict V)) (s s' t' : string)
    (inner : dict V) (v0 : V) :
  get2 (dict_set d s inner) s' t' v0 =
  if String.eqb s s' then dict_get_default inner t' v0 else get2 d s' t' v0.
Proof.
  unfold get2, dict_get_default at 2. rewrite dict_get_set.
  destruct (String.eqb s s'); reflexivity.
Qed.

Lemma get2_inner {V : Type} (d : dict (dict V)) (s t : string)
    (inner : dict V) (v0 : V) :
  dict_get d s = Some inner -> get2 d s t v0 = dict_get_default inner t v0.
Proof.
  intros H. unfold get2.
  replace (dict_get_default d s []) with inner; [reflexivity |].
  unfold dict_get_default. now rewrite H.
Qed.

Lemma regions_of_present (r : regions_t) (s t x : string) (l : list string) :
  regions_of r s t = x :: l ->
  exists inner, dict_get r s = Some inner /\ dict_get inner t = Some (x :: l).
Proof.
  unfold regions_of, get2, dict_get_default.
  destruct (dict_get r s) as [inner |] eqn:E1; simpl; [| discriminate].
  destruct (dict_get inner t) as [l' |] eqn:E2; [| discriminate].
  intros ->. eauto.
Qed.

Lemma regions_wf_set (r : regions_t) (s : string) (inner : dict (list string)) :
  regions_wf r -> dict_wf inner -> regions_wf (dict_set r s inner).
Proof.
  intros Hwf Hin s' tables. rewrite dict_get_set.
  destruct (String.eqb s s'); [intros [= <-]; exact Hin | apply Hwf].
Qed.

Lemma remove_region_spec (r : regions_t) (s t x : string) (l : list string) :
  regions_of r s t = x :: l ->
  exists r',
    remove_region r s t x = Ok r'
    /\ (forall s' t', regions_of r' s' t' =
                      if hit s t s' t' then l else regions_of r s' t')
    /\ (regions_wf r -> regions_wf r')
    /\ keys r' = keys r.
Proof.
  intros H. destruct (regions_of_present _ _ _ _ _ H) as (inner & H1 & H2).
  unfold remove_region, dict_item. rewrite H1. simpl. rewrite H2. simpl.
  rewrite String.eqb_refl. simpl.
  eexists; split; [reflexivity |]. split; [| split].
  - intros s' t'. unfold regions_of. apply (get2_set2 _ _ _ _ _ _ _ _ H1).
  - intros Hwf. apply regions_wf_set; [exact Hwf |].
    apply dict_wf_set. exact (Hwf _ _ H1).
  - eapply keys_dict_set_present; eassumption.
Qed.

Lemma append_region_spec (r : regions_t) (s t x : string) :
  In s (keys r) ->
  exists r',
    append_region r s t x = Ok r'
    /\ (forall s' t', regions_of r' s' t' =
                      if hit s t s' t' then (regions_of r s t ++ [x])%list
                      else regions_of r s' t')
    /\ (regions_wf r -> regions_wf r')
    /\ keys r' = keys r.
Proof.
  intros Hs. apply dict_get_In in Hs.
  destruct (dict_get r s) as [inner |] eqn:E1; [| congruence].
  unfold append_region, dict_item. rewrite E1. simpl.
  set (inner' := if dict_mem inner t then inner else dict_set inner t []).
  assert (Hget : forall t', dict_get_default inner' t' []
                            = dict_get_default inner t' []).
  { intros t'. unfold inner', dict_mem, dict_get_default.
    destruct (dict_get inner t) eqn:E2; [reflexivity |].
    rewrite dict_get_set. destruct (String.eqb t t') eqn:Et; [| reflexivity].
    apply String.eqb_eq in Et; subst t'. now rewrite E2. }
  assert (Hitem : dict_get inner' t = Some (dict_get_default inner t [])).
  { unfold inner', dict_mem, dict_get_default.
    destruct (dict_get inner t) eqn:E2; [exact E2 |].
    apply dict_get_set_same. }
  rewrite Hitem. simpl.
  eexists; split; [reflexivity |]. split; [| split].
  - intros s' t'. unfold regions_of, hit. rewrite get2_set.
    destruct (String.eqb s s') eqn:Es; simpl; [| reflexivity].
    apply String.eqb_eq in Es; subst s'.
    unfold dict_get_default at 1. rewrite dict_get_set.
    destruct (String.eqb t t') eqn:Et.
    + now rewrite (get2_inner _ _ _ _ [] E1).
    + fold (dict_get_default inner' t' []). rewrite Hget.
      now rewrite (get2_inner _ _ _ _ [] E1).
  - intros Hwf. apply regions_wf_set; [exact Hwf |].
    apply dict_wf_set. unfold inner'.
    destruct (dict_mem inner t); [| apply dict_wf_set]; exact (Hwf _ _ E1).
  - eapply keys_dict_set_present; eassumption.
Qed.

(** The count updates of [apply_swap] are those of the replay. *)
Lemma apply_swap_stc (hot_table : string) (st st' : state) (sw : swap) :
  apply_swap hot_table st sw = Ok st' ->
  replay_swap hot_table (stc st) sw = Ok (stc st').
Proof.
  unfold apply_swap, replay_swap. intros H.
  inv_bind H. rewrite E. simpl. inv_bind H. rewrite E0. simpl.
  inv_bind H. inv_bind H. inv_bind H. rewrite E3. simpl.
  inv_bind H. rewrite E4. inv_bind H. inv_bind H.
  injection H as <-. reflexivity.
Qed.

(** The effect of one replayed swap on every count. *)
Lemma replay_swap_count (hot_table : string) (c c' : counts_t) (sw : swap) :
  replay_swap hot_table c sw = Ok c' ->
  forall s t,
    count_of c' s t =
    count_of c s t
    - hits (source sw) hot_table s t + hits (target sw) hot_table s t
    - hits (target sw) (cold_table sw) s t
    + hits (source sw) (cold_table sw) s t.
Proof.
  unfold replay_swap. intros H s t.
  inv_bind H. inv_bind H. inv_bind H.
  rewrite (incr_count _ _ _ _ H), (decr_count _ _ _ _ E1),
    (incr_count _ _ _ _ E0), (decr_count _ _ _ _ E).
  lia.
Qed.

Lemma replay_swap_total (hot_table : string) (c c' : counts_t) (sw : swap) :
  replay_swap hot_table c sw = Ok c' ->
  forall t, table_total c' t = table_total c t.
Proof.
  unfold replay_swap. intros H t.
  inv_bind H. inv_bind H. inv_bind H.
  rewrite (incr_total _ _ _ _ H), (decr_total _ _ _ _ E1),
    (incr_total _ _ _ _ E0), (decr_total _ _ _ _ E).
  lia.
Qed.

Lemma replay_swap_keys (hot_table : string) (c c' : counts_t) (sw : swap) :
  replay_swap hot_table c sw = Ok c' -> keys c' = keys c.
Proof.
  unfold replay_swap. intros H.
  inv_bind H. inv_bind H. inv_bind H.
  rewrite (incr_keys _ _ _ _ H), (decr_keys _ _ _ _ E1),
    (incr_keys _ _ _ _ E0), (decr_keys _ _ _ _ E).
  reflexivity.
Qed.

Lemma remove_region_len (r r' : regions_t) (s t x : string) (l : list string) :
  regions_of r s t = x :: l ->
  (forall s' t', regions_of r' s' t' =
                 if hit s t s' t' then l else regions_of r s' t') ->
  forall s' t', len_of r' s' t' = len_of r s' t' - hits s t s' t'.
Proof.
  intros H Hspec s' t'. unfold len_of. rewrite Hspec, hits_hit.
  destruct (hit s t s' t') eqn:E; [| lia].
  apply hit_true in E as [<- <-]. rewrite H. simpl List.length. lia.
Qed.

Lemma append_region_len (r r' : regions_t) (s t x : string) :
  (forall s' t', regions_of r' s' t' =
                 if hit s t s' t' then (regions_of r s t ++ [x])%list
                 else regions_of r s' t') ->
  forall s' t', len_of r' s' t' = len_of r s' t' + hits s t s' t'.
Proof.
  intros Hspec s' t'. unfold len_of. rewrite Hspec, hits_hit.
  destruct (hit s t s' t') eqn:E; [| lia].
  apply hit_true in E as [<- <-]. rewrite length_app. simpl. lia.
Qed.

(** On a well-formed working copy, a swap whose two regions head the lists
    they are taken from is applied without error and keeps it well formed. *)
Lemma apply_swap_ok (hot_table : string) (st : state) (sw : swap)
    (rest regs : list string) :
  regions_wf (str_regions st) ->
  counts_agree (stc st) (str_regions st) ->
  In (source sw) (keys (stc st)) ->
  In (target sw) (keys (stc st)) ->
  cold_table sw <> hot_table ->
  regions_of (str_regions st) (source sw) hot_table = hot_region sw :: rest ->
  regions_of (str_regions st) (target sw) (cold_table sw)
  = cold_region sw :: regs ->
  exists st',
    apply_swap hot_table st sw = Ok st'
    /\ regions_wf (str_regions st')
    /\ counts_agree (stc st') (str_regions st').
Proof.
  destruct st as [c r]. destruct sw as [hr cr cold d rcv]. simpl.
  intros Hwf Hagree Hd Hr Hcold Hhot Hcr.
  assert (Hne : hot_table <> cold) by congruence.
  unfold apply_swap. simpl.
  (* counts: the hot table *)
  destruct (decr_ok c d hot_table Hd) as (c1 & E1).
  { rewrite Hagree, Hhot. simpl List.length. lia. }
  rewrite E1. simpl bind.
  destruct (incr_ok c1 rcv hot_table) as (c2 & E2).
  { rewrite (decr_keys _ _ _ _ E1). exact Hr. }
  rewrite E2. simpl bind.
  (* regions: the hot region *)
  destruct (remove_region_spec r d hot_table hr rest Hhot)
    as (r1 & F1 & S1 & W1 & K1).
  rewrite F1. simpl bind.
  assert (Hrk : In rcv (keys r)).
  { destruct (regions_of_present _ _ _ _ _ Hcr) as (inner & Hin & _).
    eapply dict_get_some_In; eassumption. }
  assert (Hdk : In d (keys r)).
  { destruct (regions_of_present _ _ _ _ _ Hhot) as (inner & Hin & _).
    eapply dict_get_some_In; eassumption. }
  destruct (append_region_spec r1 rcv hot_table hr) as (r2 & F2 & S2 & W2 & K2).
  { now rewrite K1. }
  rewrite F2. simpl bind.
  (* counts: the cold table *)
  destruct (decr_ok c2 rcv cold) as (c3 & E3).
  { rewrite (incr_keys _ _ _ _ E2), (decr_keys _ _ _ _ E1). exact Hr. }
  { rewrite (incr_count _ _ _ _ E2), (decr_count _ _ _ _ E1).
    rewrite !(hits_other_table _ hot_table _ cold Hne).
    rewrite Hagree, Hcr. simpl List.length. lia. }
  rewrite E3. simpl bind.
  destruct (incr_ok c3 d cold) as (c4 & E4).
  { rewrite (decr_keys _ _ _ _ E3), (incr_keys _ _ _ _ E2),
      (decr_keys _ _ _ _ E1). exact Hd. }
  rewrite E4. simpl bind.
  (* regions: the cold region *)
  assert (Hcr2 : regions_of r2 rcv cold = cr :: regs).
  { assert (Hmiss : forall s, hit s hot_table rcv cold = false).
    { intros s. apply not_true_iff_false. rewrite hit_true. tauto. }
    rewrite S2, Hmiss, S1, Hmiss. exact Hcr. }
  destruct (remove_region_spec r2 rcv cold cr regs Hcr2)
    as (r3 & F3 & S3 & W3 & K3).
  rewrite F3. simpl bind.
  destruct (append_region_spec r3 d cold cr) as (r4 & F4 & S4 & W4 & K4).
  { now rewrite K3, K2, K1. }
  rewrite F4. simpl bind.
  eexists; split; [reflexivity |]. simpl. split; [auto |].
  intros s t. fold (len_of r4 s t).
  rewrite (append_region_len _ _ _ _ _ S4),
    (remove_region_len _ _ _ _ _ _ Hcr2 S3),
    (append_region_len _ _ _ _ _ S2),
    (remove_region_len _ _ _ _ _ _ Hhot S1).
  rewrite (incr_count _ _ _ _ E4), (decr_count _ _ _ _ E3),
    (incr_count _ _ _ _ E2), (decr_count _ _ _ _ E1).
  unfold len_of. rewrite (Hagree s t). lia.
Qed.

End SwapFacts.

(** ** Facts about the loop *)

Module LoopFacts.
Import Planner Main Notions PyFacts UpdateFacts SearchFacts PairingFacts.
Import SwapFacts.

Section Loop.
Variable hot_table : string.
Variable hot_avg : Q.
Variable t_avg_of : string -> Q.
Variable servers : list string.

Local Notation "'steps''" := (steps hot_table hot_avg t_avg_of servers).
Local Notation "'find_swap''" :=
  (find_swap hot_table hot_avg t_avg_of servers).

(** What a found swap looks like in the working copy it was found in. *)
Lemma find_swap_facts (st : state) (sw : swap) :
  incl servers (keys (stc st)) ->
  find_swap' st = Ok (Some sw) ->
  In (source sw) servers
  /\ (hot_avg < inject_Z (count_of (stc st) (source sw) hot_table))%Q
  /\ In (target sw) servers
  /\ (inject_Z (count_of (stc st) (target sw) hot_table) < hot_avg)%Q
  /\ cold_table sw <> hot_table
  /\ (exists rest,
        regions_of (str_regions st) (source sw) hot_table
        = hot_region sw :: rest)
  /\ (exists regs,
        In (cold_table sw, cold_region sw :: regs)
           (dict_get_default (str_regions st) (target sw) [])).
Proof.
  intros Hincl Hfind.
  destruct (find_swap_spec hot_table t_avg_of hot_avg servers st Hincl)
    as (donors & receivers & found & Hcs & Hfound & Hcase).
  rewrite Hfind in Hfound. injection Hfound as <-.
  destruct (classify_sorted_members _ _ _ _ _ _ Hcs) as (Hd & Hr & _).
  destruct Hcase
    as (ds1 & wd & ds2 & rs1 & wr & rs2 & Edon & Erec & _ & _ & Hhot & Hbest).
  assert (Hind : In (source sw, wd) donors).
  { rewrite Edon. apply in_or_app. right. now left. }
  assert (Hinr : In (target sw, wr) receivers).
  { rewrite Erec. apply in_or_app. right. now left. }
  apply Hd in Hind as (? & ? & _). apply Hr in Hinr as (? & ? & _).
  destruct Hbest as (before & regs & after & Hsplit & _ & _).
  assert (Hin : In (cold_table sw, cold_region sw :: regs)
                   (candidates hot_table st (target sw))).
  { rewrite Hsplit. apply in_or_app. right. now left. }
  unfold candidates in Hin. apply filter_In in Hin as [Hin Hel].
  apply eligible_inv in Hel as [Hne _]. simpl in Hne.
  repeat split; eauto.
Qed.

Lemma listed_regions (r : regions_t) (s t : string) (l : list string) :
  regions_wf r -> In (t, l) (dict_get_default r s []) ->
  regions_of r s t = l.
Proof.
  intros Hwf. unfold dict_get_default at 1.
  destruct (dict_get r s) as [inner |] eqn:E; [| intros []].
  intros Hin. unfold regions_of. rewrite (get2_inner _ _ _ _ [] E).
  unfold dict_get_default.
  now rewrite (dict_wf_item _ _ _ (Hwf _ _ E) Hin).
Qed.

Lemma apply_swap_keys (st st' : state) (sw : swap) :
  apply_swap hot_table st sw = Ok st' -> keys (stc st') = keys (stc st).
Proof.
  intros H. apply apply_swap_stc in H. eapply replay_swap_keys, H.
Qed.

Lemma step_ok (st : state) (sw : swap) :
  state_ok servers st -> find_swap' st = Ok (Some sw) ->
  exists st', apply_swap hot_table st sw = Ok st' /\ state_ok servers st'.
Proof.
  intros (Hincl & Hwf & Hagree) Hfind.
  destruct (find_swap_facts st sw Hincl Hfind)
    as (Hs & _ & Ht & _ & Hne & (rest & Hhot) & (regs & Hcold)).
  apply (listed_regions _ _ _ _ Hwf) in Hcold.
  destruct (apply_swap_ok hot_table st sw rest regs Hwf Hagree
              (Hincl _ Hs) (Hincl _ Ht) Hne Hhot Hcold)
    as (st' & Happ & Hwf' & Hagree').
  exists st'. split; [exact Happ |]. split; [| split; assumption].
  rewrite (apply_swap_keys _ _ _ Happ). exact Hincl.
Qed.

Lemma find_swap_total (st : state) :
  incl servers (keys (stc st)) -> exists found, find_swap' st = Ok found.
Proof.
  intros Hincl.
  destruct (find_swap_spec hot_table t_avg_of hot_avg servers st Hincl)
    as (_ & _ & found & _ & Hfound & _).
  eauto.
Qed.

Lemma plan_loop_steps (fuel : nat) (st st' : state) (acc plan : list swap) :
  plan_loop hot_table hot_avg t_avg_of fuel servers st acc = Ok (plan, st') ->
  exists sws,
    plan = (acc ++ sws)%list /\ steps' st sws st'
    /\ (List.length sws <= fuel)%nat.
Proof.
  revert st acc. induction fuel as [| fuel IH]; intros st acc H; simpl in H.
  - injection H as <- <-. exists []. rewrite app_nil_r.
    repeat split; [constructor | simpl; lia].
  - inv_bind H. destruct a as [sw |].
    + inv_bind H. apply IH in H as (sws & -> & Hsteps & Hlen).
      exists (sw :: sws). rewrite <- app_assoc. simpl.
      repeat split; [econstructor; eassumption | lia].
    + injection H as <- <-. exists []. rewrite app_nil_r.
      repeat split; [constructor | simpl; lia].
Qed.

Lemma plan_loop_ok (fuel : nat) (st : state) (acc : list swap) :
  state_ok servers st ->
  exists plan st',
    plan_loop hot_table hot_avg t_avg_of fuel servers st acc = Ok (plan, st')
    /\ state_ok servers st'.
Proof.
  revert st acc. induction fuel as [| fuel IH]; intros st acc Hok; simpl.
  - eauto.
  - destruct (find_swap_total st (proj1 Hok)) as (found & Hfound).
    rewrite Hfound. simpl bind. destruct found as [sw |]; [| eauto].
    destruct (step_ok st sw Hok Hfound) as (st1 & -> & Hok1). simpl bind.
    apply IH. exact Hok1.
Qed.

Lemma steps_nth (st st' : state) (sws : list swap) :
  steps' st sws st' ->
  forall i sw, nth_error sws i = Some sw ->
  exists sa sb,
    steps' st (firstn i sws) sa
    /\ find_swap' sa = Ok (Some sw)
    /\ apply_swap hot_table sa sw = Ok sb
    /\ steps' st (firstn (S i) sws) sb.
Proof.
  induction 1 as [st | st st1 st2 sw0 sws Hfind Happ Hsteps IH];
    intros i sw Hnth.
  - destruct i; discriminate.
  - destruct i as [| i]; simpl in Hnth.
    + injection Hnth as <-. exists st, st1. simpl.
      repeat split; try assumption; [constructor |].
      econstructor; [eassumption | eassumption | constructor].
    + destruct (IH i sw Hnth) as (sa & sb & H1 & H2 & H3 & H4).
      exists sa, sb. repeat split; try assumption.
      * simpl. econstructor; eassumption.
      * change (firstn (S (S i)) (sw0 :: sws))
          with (sw0 :: firstn (S i) sws).
        econstructor; eassumption.
Qed.

Lemma steps_firstn (st st' : state) (sws : list swap) :
  steps' st sws st' ->
  forall n, exists sn, steps' st (firstn n sws) sn.
Proof.
  induction 1 as [st | st st1 st2 sw0 sws Hfind Happ Hsteps IH]; intros n.
  - exists st. rewrite firstn_nil. constructor.
  - destruct n as [| n]; simpl.
    + exists st. constructor.
    + destruct (IH n) as (sn & Hsn). exists sn. econstructor; eassumption.
Qed.

Lemma steps_simulate (st st' : state) (sws : list swap) :
  steps' st sws st' -> simulate hot_table sws (stc st) = Ok (stc st').
Proof.
  induction 1 as [st | st st1 st2 sw0 sws Hfind Happ Hsteps IH]; simpl.
  - reflexivity.
  - rewrite (apply_swap_stc _ _ _ _ Happ). simpl. exact IH.
Qed.

Lemma steps_keys (st st' : state) (sws : list swap) :
  steps' st sws st' -> keys (stc st') = keys (stc st).
Proof.
  induction 1 as [st | st st1 st2 sw0 sws Hfind Happ Hsteps IH].
  - reflexivity.
  - rewrite IH. eapply apply_swap_keys, Happ.
Qed.

Lemma steps_total (st st' : state) (sws : list swap) :
  steps' st sws st' ->
  forall t, table_total (stc st') t = table_total (stc st) t.
Proof.
  induction 1 as [st | st st1 st2 sw0 sws Hfind Happ Hsteps IH]; intros t.
  - reflexivity.
  - rewrite IH. eapply replay_swap_total, apply_swap_stc, Happ.
Qed.
End Loop.

(** [compute_balance_plan] is [run_planner] at the iteration cap. *)
Lemma compute_balance_plan_run (hot_table : string) (c : counts_t)
    (ri : region_info_t) (r : regions_t) (plan : list swap) :
  compute_balance_plan hot_table c ri r = Ok plan ->
  plan = []
  \/ exists st', run_planner max_iterations hot_table c r = Ok (plan, st').
Proof.
  unfold compute_balance_plan. destruct (keys c) eqn:Ek.
  - intros [= <-]. now left.
  - intros H. inv_bind H. destruct a as [p st']. injection H as <-.
    right. eauto.
Qed.

Lemma run_planner_steps (fuel : nat) (hot_table : string) (c : counts_t)
    (r : regions_t) (plan : list swap) (st' : state) :
  run_planner fuel hot_table c r = Ok (plan, st') ->
  steps hot_table (table_avg_get c hot_table) (table_avg_get c) (keys c)
    (State c r) plan st'
  /\ (List.length plan <= fuel)%nat.
Proof.
  unfold run_planner. intros H.
  apply plan_loop_steps in H as (sws & -> & Hsteps & Hlen). simpl.
  split; assumption.
Qed.

End LoopFacts.

(** ** Facts about the snapshot builder and the averages *)

Module SnapshotFacts.
Import Planner Exporter Main Notions PyFacts UpdateFacts SearchFacts.
Import PairingFacts SwapFacts LoopFacts.

Lemma get2_set2_default {V : Type} (d : dict (dict V)) (s t s' t' : string)
    (x v0 : V) :
  get2 (dict_set d s (dict_set (dict_get_default d s []) t x)) s' t' v0 =
  if hit s t s' t' then x else get2 d s' t' v0.
Proof.
  rewrite get2_set. unfold hit.
  destruct (String.eqb s s') eqn:Es; simpl; [| reflexivity].
  apply String.eqb_eq in Es; subst s'.
  unfold dict_get_default at 1. rewrite dict_get_set.
  destruct (String.eqb t t'); reflexivity.
Qed.

Lemma record_region_wf (a : analysis) (f : fact) :
  snapshot_wf (server_table_count a) (server_table_regions a) ->
  snapshot_wf (server_table_count (record_region a f))
              (server_table_regions (record_region a f)).
Proof.
  intros [Hwf Hagree]. unfold record_region. simpl. split.
  - apply regions_wf_set; [exact Hwf |]. apply dict_wf_set.
    unfold dict_get_default.
    destruct (dict_get (server_table_regions a) (server_host f)) eqn:E.
    + exact (Hwf _ _ E).
    + constructor.
  - intros s t. unfold count_of, regions_of.
    rewrite !get2_set2_default.
    destruct (hit (server_host f) (table_name f) s t) eqn:E.
    + apply hit_true in E as [<- <-].
      fold (get2 (server_table_count a) (server_host f) (table_name f) 0).
      fold (get2 (server_table_regions a) (server_host f) (table_name f) []).
      fold (count_of (server_table_count a) (server_host f) (table_name f)).
      fold (regions_of (server_table_regions a) (server_host f) (table_name f)).
      rewrite Hagree, length_app. simpl. lia.
    + apply Hagree.
Qed.

Lemma analyze_distribution_wf (facts : list fact) :
  snapshot_wf (server_table_count (analyze_distribution facts))
              (server_table_regions (analyze_distribution facts)).
Proof.
  unfold analyze_distribution.
  assert (H0 : snapshot_wf (server_table_count (Analysis [] [] [] []))
                           (server_table_regions (Analysis [] [] [] []))).
  { split; [intros s tables; discriminate | intros s t; reflexivity]. }
  revert H0. generalize (Analysis [] [] [] []).
  induction facts as [| f facts IH]; intros a Ha; simpl.
  - exact Ha.
  - apply IH, record_region_wf, Ha.
Qed.

Lemma table_total_absent (c : counts_t) (t : string) :
  all_tables_mem c t = false -> table_total c t = 0.
Proof.
  unfold all_tables_mem, table_total, values.
  induction c as [| [s counts] c IH]; simpl; [reflexivity |].
  intros H. apply orb_false_elim in H as [H1 H2]. rewrite (IH H2).
  unfold dict_mem in H1. unfold dict_get_default.
  destruct (dict_get counts t); [discriminate | reflexivity].
Qed.

(** The planner's [table_avg.get(table, 0)] is the table's global average. *)
Lemma table_avg_get_compute (c : counts_t) (t : string) :
  (table_avg_get c t == compute_table_avg t c)%Q.
Proof.
  unfold table_avg_get, compute_table_avg, keys. rewrite length_map.
  destruct (all_tables_mem c t) eqn:Em.
  - destruct c as [| x c]; [discriminate |].
    replace (0 <? Z.of_nat (List.length (x :: c))) with true; [reflexivity |].
    symmetry. apply Z.ltb_lt. simpl List.length. lia.
  - rewrite (table_total_absent _ _ Em).
    destruct (0 <? Z.of_nat (List.length c)); [| reflexivity].
    unfold Qdiv. ring.
Qed.

Lemma compute_table_avg_same (c c' : counts_t) (t : string) :
  keys c' = keys c -> table_total c' t = table_total c t ->
  compute_table_avg t c' = compute_table_avg t c.
Proof.
  intros Hk Ht. unfold compute_table_avg. rewrite Ht.
  apply (f_equal (@List.length _)) in Hk. unfold keys in Hk.
  rewrite !length_map in Hk. now rewrite Hk.
Qed.

Lemma plan_loop_break (hot_table : string) (hot_avg : Q)
    (t_avg_of : string -> Q) (fuel : nat) (servers : list string)
    (st : state) (acc : list swap) :
  find_swap hot_table hot_avg t_avg_of servers st = Ok None ->
  plan_loop hot_table hot_avg t_avg_of (S fuel) servers st acc = Ok (acc, st).
Proof. intros H. simpl. now rewrite H. Qed.

Lemma plan_loop_continue (hot_table : string) (hot_avg : Q)
    (t_avg_of : string -> Q) (fuel : nat) (servers : list string)
    (st : state) (acc : list swap) (sw : swap) :
  find_swap hot_table hot_avg t_avg_of servers st = Ok (Some sw) ->
  plan_loop hot_table hot_avg t_avg_of (S fuel) servers st acc =
  (st' <- apply_swap hot_table st sw ;;
   plan_loop hot_table hot_avg t_avg_of fuel servers st' (acc ++ [sw])%list).
Proof. intros H. simpl. now rewrite H. Qed.

Lemma planner_total (hot_table : string) (c : counts_t) (ri : region_info_t)
    (r : regions_t) :
  snapshot_wf c r ->
  exists plan,
    compute_balance_plan hot_table c ri r = Ok plan
    /\ (List.length plan <= max_iterations)%nat
    /\ exists c', simulate hot_table plan c = Ok c'.
Proof.
  intros [Hwf Hagree]. unfold compute_balance_plan.
  destruct (keys c) as [| s0 ks] eqn:Ek.
  - exists []. split; [reflexivity |]. split; [simpl; lia |].
    exists c. reflexivity.
  - assert (Hok : state_ok (keys c) (State c r)).
    { split; [apply incl_refl | split; assumption]. }
    destruct (plan_loop_ok hot_table (table_avg_get c hot_table)
                (table_avg_get c) (keys c) max_iterations (State c r) [] Hok)
      as (plan & st' & Hrun & _).
    unfold run_planner. rewrite Hrun. simpl bind.
    exists plan. split; [reflexivity |].
    apply plan_loop_steps in Hrun as (sws & -> & Hsteps & Hlen).
    split; [exact Hlen |]. exists (stc st').
    exact (steps_simulate _ _ _ _ _ _ _ Hsteps).
Qed.

(** Running [k] iterations and then [m] more is running [k + m]. *)
Lemma plan_loop_split (hot_table : string) (hot_avg : Q)
    (t_avg_of : string -> Q) (servers : list string) (k m : nat)
    (st : state) (acc : list swap) :
  plan_loop hot_table hot_avg t_avg_of (k + m) servers st acc =
  ('(plan, st') <- plan_loop hot_table hot_avg t_avg_of k servers st acc ;;
   plan_loop hot_table hot_avg t_avg_of m servers st' plan).
Proof.
  revert st acc. induction k as [| k IH]; intros st acc.
  - reflexivity.
  - simpl.
    destruct (find_swap hot_table hot_avg t_avg_of servers st)
      as [[sw |] | e] eqn:Ef; simpl.
    + destruct (apply_swap hot_table st sw) as [st1 | e]; simpl;
        [apply IH | reflexivity].
    + destruct m as [| m]; [reflexivity |].
      now rewrite plan_loop_break.
    + reflexivity.
Qed.

End SnapshotFacts.

(** ** Properties of the planner *)

Module PlannerProps.
Import Planner Exporter Main Notions Scenarios PyFacts UpdateFacts SearchFacts.
Import PairingFacts SwapFacts LoopFacts SnapshotFacts.
Import Binary64 Notions64 Pairing64Facts.

Local Open Scope string_scope.





(** C5.  When every server's hot count equals the hot table's average, the
    plan is empty. *)
Theorem balanced_gives_empty_plan (hot_table : string) (c : counts_t)
    (ri : region_info_t) (r : regions_t) :
  (forall s, In s (keys c) ->
     (inject_Z (count_of c s hot_table) == compute_table_avg hot_table c)%Q) ->
  compute_balance_plan hot_table c ri r = Ok [].
Proof.
  intros Hbal. unfold compute_balance_plan.
  destruct (keys c) as [| s0 ks] eqn:Ek; [reflexivity |].
  unfold run_planner, max_iterations. rewrite Ek.
  rewrite plan_loop_break; [reflexivity |].
  assert (Hincl : incl (s0 :: ks) (keys (stc (State c r)))).
  { simpl. rewrite Ek. apply incl_refl. }
  destruct (classify_total hot_table (table_avg_get c hot_table) _ _ Hincl)
    as (ds & rs & Hc).
  assert (Hcs : classify_sorted hot_table (table_avg_get c hot_table)
                  (stc (State c r)) (s0 :: ks)
                = Ok (sort_by neg_weight ds, sort_by neg_weight rs)).
  { unfold classify_sorted. now rewrite Hc. }
  destruct (classify_sorted_members _ _ _ _ _ _ Hcs) as (Hd & _ & _).
  unfold find_swap. rewrite Hcs. simpl bind.
  destruct (sort_by neg_weight ds) as [| [s w] donors]; [reflexivity |].
  exfalso. destruct (Hd s w) as [Hin _].
  destruct (Hin (or_introl eq_refl)) as (Hs & Hlt & _).
  simpl in Hlt. rewrite table_avg_get_compute in Hlt.
  rewrite (Hbal s Hs) in Hlt. exact (Qlt_irrefl _ Hlt).
Qed.



(** *** The theorems at concrete snapshots *)





Lemma balanced_gives_empty_plan_witness :
  compute_balance_plan "hot" (counts_of_facts scenario_B) []
    (regions_of_facts scenario_B) = Ok [].
Proof.
  apply (balanced_gives_empty_plan "hot" (counts_of_facts scenario_B) []
           (regions_of_facts scenario_B)).
  intros s Hin. apply Qeq_bool_iff. revert s Hin.
  apply (proj1 (forallb_forall
                  (fun s => Qeq_bool
                              (inject_Z (count_of (counts_of_facts scenario_B)
                                           s "hot"))
                              (compute_table_avg "hot"
                                 (counts_of_facts scenario_B)))
                  (keys (counts_of_facts scenario_B)))).
  vm_compute. reflexivity.
Defined.



(** *** Remarks *)

(** The scores are those of the floats.  On [scenario_T] the receiver S2
    lists [a] and then [b]; their exact scores, 2 - 5/3 and 1 - 2/3, are
    equal, the floats are not: 2 - fl(5/3) is under 1 - fl(2/3), so [b],
    met second, is traded back.  With exact scores the planner of
    [Module Planner] trades back [a]. *)
Example rounding_breaks_tie :
  map fst (candidates "hot" state_T "S2") = ["a"; "b"]
  /\ (spec_score (Planner.table_avg_get counts_T) counts_T "S1" "S2" "a"
      == spec_score (Planner.table_avg_get counts_T) counts_T "S1" "S2" "b")%Q
  /\ (score64 (Planner64.table_avg_get counts_T) counts_T "S1" "S2" "a"
      < score64 (Planner64.table_avg_get counts_T) counts_T "S1" "S2" "b")%Q
  /\ Planner64.compute_balance_plan "hot" counts_T [] regions_T
     = Ok [Swap "S1-hot-0" "S2-b-0" "b" "S1" "S2"]
  /\ Planner.compute_balance_plan "hot" counts_T [] regions_T
     = Ok [Swap "S1-hot-0" "S2-a-0" "a" "S1" "S2"].
Proof. vm_compute. repeat split. Qed.

(** On scenario E the loop stops at the cap: the plan has [max_iterations]
    swaps, a hot region going back and forth between S1 and S2. *)
Example cap_reached :
  match compute_balance_plan "hot" (counts_of_facts scenario_E) []
          (regions_of_facts scenario_E) with
  | Ok plan =>
      List.length plan = max_iterations
      /\ firstn 2 plan = [ Swap "S1-hot-0" "S2-a-0" "a" "S1" "S2";
                           Swap "S2-hot-0" "S2-a-0" "a" "S2" "S1" ]
  | Raise _ => False
  end.
Proof. vm_compute. split; reflexivity. Qed.


(** C6 on the snapshots [analyze_distribution] builds: no hypothesis is
    left. *)
Lemma planner_returns_on_dump (hot_table : string) (facts : list fact) :
  exists plan,
    compute_balance_plan hot_table (counts_of_facts facts)
      (region_info (analyze_distribution facts)) (regions_of_facts facts)
    = Ok plan
    /\ (List.length plan <= max_iterations)%nat.
Proof.
  destruct (planner_total hot_table (counts_of_facts facts)
              (region_info (analyze_distribution facts))
              (regions_of_facts facts) (analyze_distribution_wf facts))
    as (plan & Hplan & Hlen & _).
  exists plan. split; assumption.
Qed.

(** The agreement between counts and region lists is needed in C6 and C10:
    on dicts that disagree the update of a count can raise. *)
Example inconsistent_snapshot_raises :
  compute_balance_plan "hot" counts_bad [] regions_bad = Raise KeyError.
Proof. vm_compute. reflexivity. Qed.

End PlannerProps.

(** ** Facts about the object store *)

Module HeapFacts.
Import Planner Heap PyFacts.

Lemma nth_error_update (h : heap) (a b : addr) (o : obj) :
  nth_error (update h a o) b =
  if Nat.eqb a b then
    match nth_error h b with Some _ => Some o | None => None end
  else nth_error h b.
Proof.
  revert a b. induction h as [| o' h IH]; intros a b; simpl.
  - destruct (Nat.eqb a b); destruct b; reflexivity.
  - destruct a as [| a], b as [| b]; simpl; try reflexivity. apply IH.
Qed.

Lemma length_update (h : heap) (a : addr) (o : obj) :
  List.length (update h a o) = List.length h.
Proof.
  revert a. induction h as [| o' h IH]; intros a; simpl; [reflexivity |].
  destruct a; simpl; [reflexivity | now rewrite IH].
Qed.

Section Rules.
Variable n0 : nat.

Lemma unchanged_refl (h : heap) : unchanged_below n0 h h.
Proof. intros a _. reflexivity. Qed.

Lemma unchanged_trans (h1 h2 h3 : heap) :
  unchanged_below n0 h1 h2 -> unchanged_below n0 h2 h3 ->
  unchanged_below n0 h1 h3.
Proof. intros H12 H23 a Ha. now rewrite H23, H12. Qed.

Lemma keeps_ret {A : Type} (a : A) (Q : A -> Prop) : Q a -> keeps n0 (ret a) Q.
Proof.
  intros HQ h Hlen Hinv. simpl. repeat split; auto using unchanged_refl.
Qed.

Lemma keeps_raise {A : Type} (e : exn) (Q : A -> Prop) : keeps n0 (raise e) Q.
Proof.
  intros h Hlen Hinv. simpl. repeat split; auto using unchanged_refl.
Qed.

Lemma keeps_lift {A : Type} (r : result A) (Q : A -> Prop) :
  (forall a, r = Ok a -> Q a) -> keeps n0 (lift r) Q.
Proof.
  intros HQ h Hlen Hinv. unfold lift.
  repeat split; auto using unchanged_refl. destruct r; auto.
Qed.

Lemma keeps_bind {A B : Type} (m : M A) (k : A -> M B) (P : A -> Prop)
    (Q : B -> Prop) :
  keeps n0 m P -> (forall a, P a -> keeps n0 (k a) Q) ->
  keeps n0 (mbind m k) Q.
Proof.
  intros Hm Hk h Hlen Hinv. unfold mbind.
  specialize (Hm h Hlen Hinv). destruct (m h) as [[a | e] h1].
  - destruct Hm as (Hlen1 & Hinv1 & Hun1 & HP).
    specialize (Hk a HP h1 Hlen1 Hinv1). destruct (k a h1) as [res h2].
    destruct Hk as (Hlen2 & Hinv2 & Hun2 & HQ).
    repeat split; auto. eapply unchanged_trans; eassumption.
  - destruct Hm as (Hlen1 & Hinv1 & Hun1 & _). repeat split; auto.
Qed.

Lemma keeps_weaken {A : Type} (m : M A) (P Q : A -> Prop) :
  keeps n0 m P -> (forall a, P a -> Q a) -> keeps n0 m Q.
Proof.
  intros Hm HPQ h Hlen Hinv. specialize (Hm h Hlen Hinv).
  destruct (m h) as [[a | e] h1]; destruct Hm as (? & ? & ? & ?);
    repeat split; auto.
Qed.

Lemma keeps_alloc (o : obj) :
  fresh_obj n0 o -> keeps n0 (alloc o) (fun a => (n0 <= a)%nat).
Proof.
  intros Ho h Hlen Hinv. unfold alloc. rewrite length_app. simpl.
  split; [lia |]. split; [| split; [| exact Hlen]].
  - intros a o' Ha Hnth.
    destruct (Nat.lt_ge_cases a (List.length h)) as [Hlt | Hge].
    + rewrite nth_error_app1 in Hnth by exact Hlt. eapply Hinv; eassumption.
    + rewrite nth_error_app2 in Hnth by exact Hge.
      destruct (a - List.length h)%nat as [| k]; simpl in Hnth.
      * injection Hnth as <-. exact Ho.
      * destruct k; discriminate.
  - intros a Ha. apply nth_error_app1. lia.
Qed.

Lemma keeps_load (a : addr) :
  keeps n0 (load a) (fun o => (n0 <= a)%nat -> fresh_obj n0 o).
Proof.
  intros h Hlen Hinv. unfold load.
  destruct (nth_error h a) as [o |] eqn:E;
    repeat split; auto using unchanged_refl.
  intros Ha. eapply Hinv; eassumption.
Qed.

Lemma keeps_store (a : addr) (o : obj) :
  (n0 <= a)%nat -> fresh_obj n0 o -> keeps n0 (store a o) (fun _ => True).
Proof.
  intros Ha Ho h Hlen Hinv. unfold store.
  destruct (nth_error h a) as [o' |] eqn:E;
    [| repeat split; auto using unchanged_refl].
  rewrite length_update. split; [exact Hlen |].
  split; [| split; [| exact I]].
  - intros b ob Hb Hnth. rewrite nth_error_update in Hnth.
    destruct (Nat.eqb a b) eqn:Eab.
    + destruct (nth_error h b); [| discriminate].
      injection Hnth as <-. exact Ho.
    + eapply Hinv; eassumption.
  - intros b Hb. rewrite nth_error_update.
    replace (Nat.eqb a b) with false; [reflexivity |].
    symmetry. apply Nat.eqb_neq. lia.
Qed.

Lemma fresh_dict_get (d : dict addr) (k : string) (a : addr) :
  fresh_dict n0 d -> dict_get d k = Some a -> (n0 <= a)%nat.
Proof.
  intros Hd Hget. apply dict_get_in_items in Hget.
  unfold fresh_dict in Hd. rewrite Forall_forall in Hd.
  exact (Hd _ Hget).
Qed.

Lemma fresh_dict_set (d : dict addr) (k : string) (a : addr) :
  fresh_dict n0 d -> (n0 <= a)%nat -> fresh_dict n0 (dict_set d k a).
Proof.
  unfold fresh_dict. intros Hd Ha.
  induction d as [| [k' a'] d IH]; simpl.
  - repeat constructor. exact Ha.
  - inversion Hd as [| ? ? Hhd Htl]; subst.
    destruct (String.eqb k' k); constructor; auto.
Qed.

Lemma keeps_load_as {X : Type} (pr : obj -> option X) (a : addr)
    (Q : X -> Prop) :
  (forall o x, pr o = Some x -> ((n0 <= a)%nat -> fresh_obj n0 o) -> Q x) ->
  keeps n0 (load_as pr a) Q.
Proof.
  intros HQ. unfold load_as. eapply keeps_bind; [apply keeps_load |].
  intros o Ho. destruct (pr o) as [x |] eqn:E; [| apply keeps_raise].
  apply keeps_ret. eapply HQ; eassumption.
Qed.

Lemma keeps_load_counts (a : addr) :
  keeps n0 (load_counts a) (fun _ => True).
Proof. apply keeps_load_as. auto. Qed.

Lemma keeps_load_regions (a : addr) :
  keeps n0 (load_regions a) (fun _ => True).
Proof. apply keeps_load_as. auto. Qed.

Lemma keeps_load_tables (a : addr) :
  keeps n0 (load_tables a) (fun d => (n0 <= a)%nat -> fresh_dict n0 d).
Proof.
  apply keeps_load_as. intros o d Ho Hfresh Ha.
  destruct o; inversion Ho; subst. exact (Hfresh Ha).
Qed.

Lemma keeps_load_servers (a : addr) :
  keeps n0 (load_servers a) (fun d => (n0 <= a)%nat -> fresh_dict n0 d).
Proof.
  apply keeps_load_as. intros o d Ho Hfresh Ha.
  destruct o; inversion Ho; subst. exact (Hfresh Ha).
Qed.

Lemma keeps_counts_at (stc : addr) (s : string) :
  (n0 <= stc)%nat ->
  keeps n0 (counts_at stc s) (fun ad => (n0 <= fst ad)%nat).
Proof.
  intros Hstc. unfold counts_at.
  eapply keeps_bind; [apply keeps_load_servers |]. intros outer Hout.
  eapply keeps_bind; [apply (keeps_lift _ (fun a => (n0 <= a)%nat)) |].
  { intros a Ha. unfold dict_item in Ha.
    destruct (dict_get outer s) eqn:E; inversion Ha; subst.
    eapply fresh_dict_get; [apply Hout, Hstc | exact E]. }
  intros a Ha. eapply keeps_bind; [apply keeps_load_counts |].
  intros d _. apply keeps_ret. exact Ha.
Qed.

Lemma keeps_tables_at (str_regions : addr) (s : string) :
  (n0 <= str_regions)%nat ->
  keeps n0 (tables_at str_regions s)
    (fun ad => (n0 <= fst ad)%nat /\ fresh_dict n0 (snd ad)).
Proof.
  intros Hstr. unfold tables_at.
  eapply keeps_bind; [apply keeps_load_servers |]. intros outer Hout.
  eapply keeps_bind; [apply (keeps_lift _ (fun a => (n0 <= a)%nat)) |].
  { intros a Ha. unfold dict_item in Ha.
    destruct (dict_get outer s) eqn:E; inversion Ha; subst.
    eapply fresh_dict_get; [apply Hout, Hstr | exact E]. }
  intros a Ha. eapply keeps_bind; [apply keeps_load_tables |].
  intros d Hd. apply keeps_ret. simpl. auto.
Qed.

Lemma keeps_decr (stc : addr) (s t : string) :
  (n0 <= stc)%nat -> keeps n0 (decr stc s t) (fun _ => True).
Proof.
  intros Hstc. unfold decr.
  eapply keeps_bind; [apply keeps_counts_at, Hstc |]. intros [a inner] Ha.
  eapply keeps_bind; [apply (keeps_lift _ (fun _ => True)); auto |].
  intros v _. apply keeps_store; [exact Ha | exact I].
Qed.

Lemma keeps_incr (stc : addr) (s t : string) :
  (n0 <= stc)%nat -> keeps n0 (incr stc s t) (fun _ => True).
Proof.
  intros Hstc. unfold incr.
  eapply keeps_bind; [apply keeps_counts_at, Hstc |]. intros [a inner] Ha.
  apply keeps_store; [exact Ha | exact I].
Qed.

Lemma keeps_item_fresh (d : dict addr) (t : string) :
  fresh_dict n0 d ->
  keeps n0 (lift (dict_item d t)) (fun la => (n0 <= la)%nat).
Proof.
  intros Hd. apply keeps_lift. intros la Hla. unfold dict_item in Hla.
  destruct (dict_get d t) eqn:E; inversion Hla; subst.
  eapply fresh_dict_get; eassumption.
Qed.

Lemma keeps_remove_region (str_regions : addr) (s t x : string) :
  (n0 <= str_regions)%nat ->
  keeps n0 (remove_region str_regions s t x) (fun _ => True).
Proof.
  intros Hstr. unfold remove_region.
  eapply keeps_bind; [apply keeps_tables_at, Hstr |].
  intros [a tables] [Ha Htables]. simpl in Ha, Htables.
  eapply keeps_bind; [apply keeps_item_fresh, Htables |]. intros la Hla.
  eapply keeps_bind; [apply keeps_load_regions |]. intros l _.
  eapply keeps_bind; [apply (keeps_lift _ (fun _ => True)); auto |].
  intros l' _. apply keeps_store; [exact Hla | exact I].
Qed.

Lemma keeps_append_region (str_regions : addr) (s t x : string) :
  (n0 <= str_regions)%nat ->
  keeps n0 (append_region str_regions s t x) (fun _ => True).
Proof.
  intros Hstr. unfold append_region.
  eapply keeps_bind; [apply keeps_tables_at, Hstr |].
  intros [a tables] [Ha Htables]. simpl in Ha, Htables.
  eapply keeps_bind with (P := fun _ => True).
  { destruct (dict_mem tables t); [now apply keeps_ret |].
    eapply keeps_bind; [apply keeps_alloc; exact I |]. intros la Hla.
    apply keeps_store; [exact Ha |]. simpl.
    apply fresh_dict_set; assumption. }
  intros _ _.
  eapply keeps_bind; [apply keeps_tables_at, Hstr |].
  intros [a' tables'] [Ha' Htables']. simpl in Ha', Htables'.
  eapply keeps_bind; [apply keeps_item_fresh, Htables' |]. intros la Hla.
  eapply keeps_bind; [apply keeps_load_regions |]. intros l _.
  apply keeps_store; [exact Hla | exact I].
Qed.

Lemma keeps_copy_counts_items (items : list (string * addr)) :
  keeps n0 (copy_counts_items items) (fresh_dict n0).
Proof.
  induction items as [| [s counts] items IH]; simpl.
  - apply keeps_ret. constructor.
  - eapply keeps_bind; [apply keeps_load_counts |]. intros d _.
    eapply keeps_bind; [apply keeps_alloc; exact I |]. intros a Ha.
    eapply keeps_bind; [exact IH |]. intros tl Htl.
    apply keeps_ret. constructor; assumption.
Qed.

Lemma keeps_copy_counts (a : addr) :
  keeps n0 (copy_counts a) (fun stc => (n0 <= stc)%nat).
Proof.
  unfold copy_counts.
  eapply keeps_bind; [apply keeps_load_servers |]. intros outer _.
  eapply keeps_bind; [apply keeps_copy_counts_items |]. intros items Hitems.
  apply keeps_alloc. exact Hitems.
Qed.

Lemma keeps_copy_lists (items : list (string * addr)) :
  keeps n0 (copy_lists items) (fresh_dict n0).
Proof.
  induction items as [| [t regions] items IH]; simpl.
  - apply keeps_ret. constructor.
  - eapply keeps_bind; [apply keeps_load_regions |]. intros l _.
    eapply keeps_bind; [apply keeps_alloc; exact I |]. intros a Ha.
    eapply keeps_bind; [exact IH |]. intros tl Htl.
    apply keeps_ret. constructor; assumption.
Qed.

Lemma keeps_copy_tables_items (items : list (string * addr)) :
  keeps n0 (copy_tables_items items) (fresh_dict n0).
Proof.
  induction items as [| [s tables] items IH]; simpl.
  - apply keeps_ret. constructor.
  - eapply keeps_bind; [apply keeps_load_tables |]. intros d _.
    eapply keeps_bind; [apply keeps_copy_lists |]. intros inner Hinner.
    eapply keeps_bind; [apply keeps_alloc; exact Hinner |]. intros a Ha.
    eapply keeps_bind; [exact IH |]. intros tl Htl.
    apply keeps_ret. constructor; assumption.
Qed.

Lemma keeps_copy_regions (a : addr) :
  keeps n0 (copy_regions a) (fun str => (n0 <= str)%nat).
Proof.
  unfold copy_regions.
  eapply keeps_bind; [apply keeps_load_servers |]. intros outer _.
  eapply keeps_bind; [apply keeps_copy_tables_items |]. intros items Hitems.
  apply keeps_alloc. exact Hitems.
Qed.

Lemma keeps_read_counts (a : addr) :
  keeps n0 (read_counts a) (fun _ => True).
Proof.
  unfold read_counts.
  eapply keeps_bind; [apply keeps_load_servers |]. intros outer _.
  induction outer as [| [s counts] items IH]; simpl.
  - now apply keeps_ret.
  - eapply keeps_bind; [apply keeps_load_counts |]. intros d _.
    eapply keeps_bind; [exact IH |]. intros tl _. now apply keeps_ret.
Qed.

Section Search.
Variable hot_table : string.
Variable hot_avg : Q.
Variable t_avg_of : string -> Q.
Variables stc str_regions : addr.
Hypothesis Hstc : (n0 <= stc)%nat.
Hypothesis Hstr : (n0 <= str_regions)%nat.

Lemma keeps_classify (servers : list string) :
  keeps n0 (classify hot_table hot_avg stc servers) (fun _ => True).
Proof.
  induction servers as [| server rest IH]; simpl.
  - now apply keeps_ret.
  - eapply keeps_bind; [apply keeps_counts_at, Hstc |]. intros [a counts] _.
    eapply keeps_bind; [exact IH |]. intros [donors receivers] _.
    destruct (Qgtb _ hot_avg); [now apply keeps_ret |].
    destruct (Qltb _ hot_avg); now apply keeps_ret.
Qed.

Lemma keeps_classify_sorted (servers : list string) :
  keeps n0 (classify_sorted hot_table hot_avg stc servers) (fun _ => True).
Proof.
  unfold classify_sorted.
  eapply keeps_bind; [apply keeps_classify |]. intros [donors receivers] _.
  now apply keeps_ret.
Qed.

Lemma keeps_scan_cold (d r : string) (items : list (string * addr))
    (best : option (Q * string * string)) :
  keeps n0 (scan_cold hot_table t_avg_of stc d r items best) (fun _ => True).
Proof.
  revert best. induction items as [| [table la] items IH]; intros best; simpl.
  - now apply keeps_ret.
  - eapply keeps_bind; [apply keeps_load_regions |]. intros regions _.
    destruct (String.eqb table hot_table); [apply IH |].
    destruct regions as [| region0 regions]; [apply IH |].
    eapply keeps_bind; [apply keeps_counts_at, Hstc |]. intros [a1 cr] _.
    eapply keeps_bind; [apply keeps_counts_at, Hstc |]. intros [a2 cd] _.
    destruct (beats _ best); apply IH.
Qed.

Lemma keeps_tables_get (s : string) :
  keeps n0 (tables_get str_regions s) (fun _ => True).
Proof.
  unfold tables_get.
  eapply keeps_bind; [apply keeps_load_servers |]. intros outer _.
  destruct (dict_get outer s) as [a |]; [| now apply keeps_ret].
  eapply keeps_weaken; [apply keeps_load_tables | auto].
Qed.

Lemma keeps_regions_get (s t : string) :
  keeps n0 (regions_get str_regions s t) (fun _ => True).
Proof.
  unfold regions_get.
  eapply keeps_bind; [apply keeps_tables_get |]. intros tables _.
  destruct (dict_get tables t) as [la |]; [| now apply keeps_ret].
  apply keeps_load_regions.
Qed.

Lemma keeps_try_receivers (d hr : string) (receivers : list (string * Q)) :
  keeps n0 (try_receivers hot_table t_avg_of stc str_regions d hr receivers)
    (fun _ => True).
Proof.
  induction receivers as [| [r w] receivers IH]; simpl.
  - now apply keeps_ret.
  - eapply keeps_bind; [apply keeps_tables_get |]. intros items _.
    eapply keeps_bind; [apply keeps_scan_cold |]. intros best _.
    destruct best as [[[sc t] r0] |]; [now apply keeps_ret | exact IH].
Qed.

Lemma keeps_try_donors (donors receivers : list (string * Q)) :
  keeps n0 (try_donors hot_table t_avg_of stc str_regions donors receivers)
    (fun _ => True).
Proof.
  induction donors as [| [d w] donors IH]; simpl.
  - now apply keeps_ret.
  - eapply keeps_bind; [apply keeps_regions_get |]. intros hot_regions _.
    destruct hot_regions as [| hr rest]; [exact IH |].
    eapply keeps_bind; [apply keeps_try_receivers |]. intros found _.
    destruct found; [now apply keeps_ret | exact IH].
Qed.

Lemma keeps_find_swap (servers : list string) :
  keeps n0 (find_swap hot_table hot_avg t_avg_of stc str_regions servers)
    (fun _ => True).
Proof.
  unfold find_swap.
  eapply keeps_bind; [apply keeps_classify_sorted |].
  intros [donors receivers] _.
  destruct donors; [now apply keeps_ret |].
  destruct receivers; [now apply keeps_ret |].
  apply keeps_try_donors.
Qed.

Lemma keeps_apply_swap (sw : swap) :
  keeps n0 (apply_swap hot_table stc str_regions sw) (fun _ => True).
Proof.
  unfold apply_swap.
  eapply keeps_bind; [apply keeps_decr, Hstc |]. intros _ _.
  eapply keeps_bind; [apply keeps_incr, Hstc |]. intros _ _.
  eapply keeps_bind; [apply keeps_remove_region, Hstr |]. intros _ _.
  eapply keeps_bind; [apply keeps_append_region, Hstr |]. intros _ _.
  eapply keeps_bind; [apply keeps_decr, Hstc |]. intros _ _.
  eapply keeps_bind; [apply keeps_incr, Hstc |]. intros _ _.
  eapply keeps_bind; [apply keeps_remove_region, Hstr |]. intros _ _.
  apply keeps_append_region, Hstr.
Qed.

Lemma keeps_plan_loop (fuel : nat) (servers : list string)
    (swap_plan : list swap) :
  keeps n0
    (plan_loop hot_table hot_avg t_avg_of stc str_regions fuel servers
       swap_plan)
    (fun _ => True).
Proof.
  revert swap_plan. induction fuel as [| fuel IH]; intros swap_plan; simpl.
  - now apply keeps_ret.
  - eapply keeps_bind; [apply keeps_find_swap |]. intros found _.
    destruct found as [sw |]; [| now apply keeps_ret].
    eapply keeps_bind; [apply keeps_apply_swap |]. intros _ _. apply IH.
Qed.
End Search.

Lemma keeps_compute_balance_plan (hot_table : string) (ca ra : addr) :
  keeps n0 (compute_balance_plan hot_table ca ra) (fun _ => True).
Proof.
  unfold compute_balance_plan.
  eapply keeps_bind; [apply keeps_load_servers |]. intros outer _.
  destruct (keys outer); [now apply keeps_ret |].
  eapply keeps_bind; [apply keeps_copy_counts |]. intros stc Hstc.
  eapply keeps_bind; [apply keeps_copy_regions |]. intros str Hstr.
  eapply keeps_bind; [apply keeps_read_counts |]. intros c0 _.
  apply keeps_plan_loop; assumption.
Qed.
End Rules.

(** The planner leaves every object of the store it is started on as it
    found it. *)
Lemma compute_balance_plan_frame (hot_table : string) (ca ra : addr)
    (h : heap) :
  unchanged_below (List.length h) h
    (snd (compute_balance_plan hot_table ca ra h)).
Proof.
  pose proof (keeps_compute_balance_plan (List.length h) hot_table ca ra h
                (le_n _)) as H.
  destruct (compute_balance_plan hot_table ca ra h) as [res h'].
  apply H. intros a o Ha Hnth. exfalso.
  apply nth_error_None in Ha. congruence.
Qed.

Lemma unchanged_extends (h h' : heap) :
  unchanged_below (List.length h) h h' -> extends h h'.
Proof.
  intros H a o Hnth. rewrite H; [exact Hnth |].
  apply nth_error_Some. congruence.
Qed.

Lemma load_inv (a : addr) (h h1 : heap) (o : obj) :
  load a h = (Ok o, h1) -> h1 = h /\ nth_error h a = Some o.
Proof.
  unfold load. destruct (nth_error h a); intros H; inversion H; auto.
Qed.

Lemma mbind_inv {A B : Type} (m : M A) (k : A -> M B) (h h2 : heap) (b : B) :
  mbind m k h = (Ok b, h2) ->
  exists a h1, m h = (Ok a, h1) /\ k a h1 = (Ok b, h2).
Proof.
  unfold mbind. destruct (m h) as [[a | e] h1]; [eauto | discriminate].
Qed.

Lemma mbind_ok {A B : Type} (m : M A) (k : A -> M B) (h h1 : heap) (a : A) :
  m h = (Ok a, h1) -> mbind m k h = k a h1.
Proof. intros H. unfold mbind. now rewrite H. Qed.

Section Stable.
Variables h h' : heap.
Hypothesis Hext : extends h h'.

Lemma load_stable (a : addr) (o : obj) (h1 : heap) :
  load a h = (Ok o, h1) -> h1 = h /\ load a h' = (Ok o, h').
Proof.
  intros H. apply load_inv in H as [-> Hnth]. split; [reflexivity |].
  unfold load. now rewrite (Hext _ _ Hnth).
Qed.

Lemma load_as_stable {X : Type} (pr : obj -> option X) (a : addr) (x : X)
    (h1 : heap) :
  load_as pr a h = (Ok x, h1) -> h1 = h /\ load_as pr a h' = (Ok x, h').
Proof.
  unfold load_as. intros H. apply mbind_inv in H as (o & h2 & Hl & Hk).
  apply load_stable in Hl as [-> Hl'].
  rewrite (mbind_ok _ _ _ _ _ Hl').
  destruct (pr o); inversion Hk; subst; auto.
Qed.

Lemma load_counts_stable (a : addr) (d : dict Z) (h1 : heap) :
  load_counts a h = (Ok d, h1) -> h1 = h /\ load_counts a h' = (Ok d, h').
Proof. apply load_as_stable. Qed.

Lemma load_regions_stable (a : addr) (l : list string) (h1 : heap) :
  load_regions a h = (Ok l, h1) -> h1 = h /\ load_regions a h' = (Ok l, h').
Proof. apply load_as_stable. Qed.

Lemma load_tables_stable (a : addr) (d : dict addr) (h1 : heap) :
  load_tables a h = (Ok d, h1) -> h1 = h /\ load_tables a h' = (Ok d, h').
Proof. apply load_as_stable. Qed.

Lemma load_servers_stable (a : addr) (d : dict addr) (h1 : heap) :
  load_servers a h = (Ok d, h1) -> h1 = h /\ load_servers a h' = (Ok d, h').
Proof. apply load_as_stable. Qed.

Lemma read_counts_items_stable (items : list (string * addr)) (c : counts_t)
    (h1 : heap) :
  read_counts_items items h = (Ok c, h1) ->
  h1 = h /\ read_counts_items items h' = (Ok c, h').
Proof.
  revert c h1. induction items as [| [s a] items IH]; intros c h1 H;
    simpl in *.
  - inversion H; subst. auto.
  - apply mbind_inv in H as (d & h2 & Hl & H).
    apply load_counts_stable in Hl as [-> Hl'].
    apply mbind_inv in H as (tl & h3 & Hr & H).
    apply IH in Hr as [-> Hr'].
    rewrite (mbind_ok _ _ _ _ _ Hl'), (mbind_ok _ _ _ _ _ Hr').
    inversion H; subst. auto.
Qed.

Lemma read_lists_stable (items : list (string * addr))
    (d : dict (list string)) (h1 : heap) :
  read_lists items h = (Ok d, h1) ->
  h1 = h /\ read_lists items h' = (Ok d, h').
Proof.
  revert d h1. induction items as [| [t a] items IH]; intros d h1 H;
    simpl in *.
  - inversion H; subst. auto.
  - apply mbind_inv in H as (l & h2 & Hl & H).
    apply load_regions_stable in Hl as [-> Hl'].
    apply mbind_inv in H as (tl & h3 & Hr & H).
    apply IH in Hr as [-> Hr'].
    rewrite (mbind_ok _ _ _ _ _ Hl'), (mbind_ok _ _ _ _ _ Hr').
    inversion H; subst. auto.
Qed.

Lemma read_tables_items_stable (items : list (string * addr)) (r : regions_t)
    (h1 : heap) :
  read_tables_items items h = (Ok r, h1) ->
  h1 = h /\ read_tables_items items h' = (Ok r, h').
Proof.
  revert r h1. induction items as [| [s a] items IH]; intros r h1 H;
    simpl in *.
  - inversion H; subst. auto.
  - apply mbind_inv in H as (d & h2 & Hl & H).
    apply load_tables_stable in Hl as [-> Hl'].
    apply mbind_inv in H as (inner & h3 & Hi & H).
    apply read_lists_stable in Hi as [-> Hi'].
    apply mbind_inv in H as (tl & h4 & Hr & H).
    apply IH in Hr as [-> Hr'].
    rewrite (mbind_ok _ _ _ _ _ Hl'), (mbind_ok _ _ _ _ _ Hi'),
      (mbind_ok _ _ _ _ _ Hr').
    inversion H; subst. auto.
Qed.

Lemma read_snapshot_stable (ca ra : addr) (v : counts_t * regions_t)
    (h1 : heap) :
  read_snapshot ca ra h = (Ok v, h1) ->
  h1 = h /\ read_snapshot ca ra h' = (Ok v, h').
Proof.
  unfold read_snapshot, read_counts, read_regions. intros H.
  apply mbind_inv in H as (c & h2 & Hc & H).
  apply mbind_inv in Hc as (oc & h3 & Hoc & Hc).
  apply load_servers_stable in Hoc as [-> Hoc'].
  apply read_counts_items_stable in Hc as [-> Hc'].
  apply mbind_inv in H as (r & h4 & Hr & H).
  apply mbind_inv in Hr as (or & h5 & Hor & Hr).
  apply load_servers_stable in Hor as [-> Hor'].
  apply read_tables_items_stable in Hr as [-> Hr'].
  inversion H; subst. split; [reflexivity |].
  rewrite (mbind_ok _ _ h' h' c).
  - rewrite (mbind_ok _ _ h' h' r); [reflexivity |].
    now rewrite (mbind_ok _ _ _ _ _ Hor').
  - now rewrite (mbind_ok _ _ _ _ _ Hoc').
Qed.
End Stable.

End HeapFacts.

(** ** The planner on the store computes the planner on values *)

Module RefinementFacts.
Import Planner Heap Represents PyFacts HeapFacts.

Lemma dict_get_value_in {V : Type} (d : dict V) (k : string) (v : V) :
  dict_get d k = Some v -> In v (values d).
Proof.
  intros H. apply dict_get_in_items in H.
  apply in_map_iff. exists (k, v). split; [reflexivity | exact H].
Qed.

Section Rel.
Context {V W : Type}.
Variable R : V -> W -> Prop.

Lemma dict_rel_get (d1 : dict V) (d2 : dict W) (k : string) :
  dict_rel R d1 d2 ->
  match dict_get d1 k, dict_get d2 k with
  | Some v, Some w => R v w
  | None, None => True
  | _, _ => False
  end.
Proof.
  induction 1 as [| [k1 v] [k2 w] d1 d2 [Hk HR] _ IH]; simpl; [exact I |].
  simpl in Hk, HR. subst k2. destruct (String.eqb k1 k); [exact HR | exact IH].
Qed.

Lemma dict_rel_keys (d1 : dict V) (d2 : dict W) : dict_rel R d1 d2 -> keys d1 = keys d2.
Proof.
  induction 1 as [| [k1 v] [k2 w] d1 d2 [Hk HR] _ IH]; simpl; [reflexivity |].
  simpl in Hk. now rewrite Hk, IH.
Qed.

Lemma dict_rel_mem (d1 : dict V) (d2 : dict W) (k : string) :
  dict_rel R d1 d2 -> dict_mem d1 k = dict_mem d2 k.
Proof.
  intros H. pose proof (dict_rel_get d1 d2 k H) as Hg. unfold dict_mem.
  destruct (dict_get d1 k), (dict_get d2 k); tauto.
Qed.

Lemma dict_rel_set (d1 : dict V) (d2 : dict W) (k : string) (v : V) (w : W) :
  dict_rel R d1 d2 -> R v w -> dict_rel R (dict_set d1 k v) (dict_set d2 k w).
Proof.
  intros H HR.
  induction H as [| [k1 v1] [k2 w2] d1 d2 [Hk HR1] Hrest IH]; simpl.
  - repeat constructor; assumption.
  - simpl in Hk, HR1. subst k2. destruct (String.eqb k1 k).
    + constructor; [split; [reflexivity | exact HR] | exact Hrest].
    + constructor; [split; [reflexivity | exact HR1] | exact IH].
Qed.

Variable R' : V -> W -> Prop.

Lemma dict_rel_impl (d1 : dict V) (d2 : dict W) :
  (forall v w, In v (values d1) -> R v w -> R' v w) ->
  dict_rel R d1 d2 -> dict_rel R' d1 d2.
Proof.
  intros Himp H.
  induction H as [| [k1 v1] [k2 w2] d1 d2 [Hk HR1] Hrest IH].
  - constructor.
  - constructor.
    + split; [exact Hk |]. apply Himp; [now left | exact HR1].
    + apply IH. intros v w Hin. apply Himp. now right.
Qed.

(** Overwriting, on the right, the binding of [k] whose value [v] on the
    left is not shared with any other binding. *)
Lemma dict_rel_update (d1 : dict V) (d2 : dict W) (k : string) (v : V)
    (w' : W) :
  dict_rel R d1 d2 -> dict_get d1 k = Some v -> NoDup (values d1) ->
  R' v w' ->
  (forall v0 w0, In v0 (values d1) -> v0 <> v -> R v0 w0 -> R' v0 w0) ->
  dict_rel R' d1 (dict_set d2 k w').
Proof.
  intros H Hget Hnd HR' Hother.
  induction H as [| [k1 v1] [k2 w2] d1 d2 [Hk HR1] Hrest IH].
  - discriminate.
  - cbn [fst snd] in Hk, HR1. subst k2.
    cbn [dict_get] in Hget. cbn [dict_set].
    unfold values in Hnd, Hother. cbn [map snd] in Hnd, Hother.
    inversion Hnd as [| ? ? Hnotin Hnd']; subst.
    destruct (String.eqb k1 k) eqn:E.
    + injection Hget as ->. constructor; [split; [reflexivity | exact HR'] |].
      apply (dict_rel_impl d1 d2); [| exact Hrest].
      intros v0 w0 Hin. apply Hother; [now right |].
      intros ->. contradiction.
    + constructor.
      * split; [reflexivity |]. cbn [snd].
        apply Hother; [now left | | exact HR1].
        intros ->. apply Hnotin. eapply dict_get_value_in, Hget.
      * apply IH; auto. intros v0 w0 Hin. apply Hother. now right.
Qed.
End Rel.

Lemma mbind_eq {A B : Type} (m : M A) (k : A -> M B) (h h1 : heap)
    (r : result A) :
  m h = (r, h1) ->
  mbind m k h = match r with Ok a => k a h1 | Raise e => (Raise e, h1) end.
Proof. intros H. unfold mbind. now rewrite H. Qed.

Lemma load_as_at {X : Type} (pr : obj -> option X) (a : addr) (h : heap)
    (o : obj) (x : X) :
  nth_error h a = Some o -> pr o = Some x -> load_as pr a h = (Ok x, h).
Proof.
  intros Hn Hp. unfold load_as, mbind, load. rewrite Hn, Hp. reflexivity.
Qed.

Lemma load_servers_at (a : addr) (h : heap) (d : dict addr) :
  nth_error h a = Some (OServers d) -> load_servers a h = (Ok d, h).
Proof. intros H. exact (load_as_at as_servers a h _ d H eq_refl). Qed.

Lemma load_tables_at (a : addr) (h : heap) (d : dict addr) :
  nth_error h a = Some (OTables d) -> load_tables a h = (Ok d, h).
Proof. intros H. exact (load_as_at as_tables a h _ d H eq_refl). Qed.

Lemma load_counts_at (a : addr) (h : heap) (d : dict Z) :
  nth_error h a = Some (OCounts d) -> load_counts a h = (Ok d, h).
Proof. intros H. exact (load_as_at as_counts a h _ d H eq_refl). Qed.

Lemma load_regions_at (a : addr) (h : heap) (l : list string) :
  nth_error h a = Some (ORegions l) -> load_regions a h = (Ok l, h).
Proof. intros H. exact (load_as_at as_regions a h _ l H eq_refl). Qed.

Lemma dict_get_outer_of (shape : shape_t) (s : string) :
  dict_get (outer_of shape) s = option_map fst (dict_get shape s).
Proof.
  induction shape as [| [k [ta to]] shape IH]; simpl; [reflexivity |].
  destruct (String.eqb k s); [reflexivity | exact IH].
Qed.

Section Reads.
Variable h : heap.
Variables stc str : addr.
Variable co : dict addr.
Variable shape : shape_t.
Variable c : counts_t.
Variable r : regions_t.
Hypothesis Hco : nth_error h stc = Some (OServers co).
Hypothesis Hc : dict_rel (is_counts h) co c.
Hypothesis Hro : nth_error h str = Some (OServers (outer_of shape)).
Hypothesis Hr : dict_rel (is_tables h) shape r.

Lemma counts_at_eq (s : string) :
  counts_at stc s h =
  (match dict_get co s, dict_item c s with
   | Some a, Ok d => Ok (a, d)
   | _, Raise e => Raise e
   | None, Ok _ => Raise KeyError
   end, h).
Proof.
  unfold counts_at.
  rewrite (mbind_eq _ _ _ _ _ (load_servers_at stc h co Hco)).
  unfold lift, dict_item. unfold mbind at 1.
  pose proof (dict_rel_get _ co c s Hc) as Hg.
  destruct (dict_get co s) as [a |], (dict_get c s) as [d |]; try tauto.
  rewrite (mbind_eq _ _ _ _ _ (load_counts_at a h d Hg)). reflexivity.
Qed.

(** [stc[s]] followed by a use of the counts found. *)
Lemma counts_at_bind {B : Type} (s : string) (k : addr * dict Z -> M B)
    (k' : dict Z -> M B) :
  (forall a d, k (a, d) = k' d) ->
  mbind (counts_at stc s) k h =
  match dict_item c s with
  | Ok counts => k' counts h
  | Raise e => (Raise e, h)
  end.
Proof.
  intros Hk. rewrite (mbind_eq _ _ _ _ _ (counts_at_eq s)).
  unfold dict_item.
  pose proof (dict_rel_get _ co c s Hc) as Hg.
  destruct (dict_get co s) as [a |], (dict_get c s) as [d |]; try tauto.
  now rewrite Hk.
Qed.

Lemma classify_ref (hot_table : string) (hot_avg : Q) (servers : list string) :
  Heap.classify hot_table hot_avg stc servers h =
  (Planner.classify hot_table hot_avg c servers, h).
Proof.
  induction servers as [| server rest IH]; [reflexivity |].
  cbn [Heap.classify Planner.classify].
  erewrite counts_at_bind; [| intros a d; reflexivity].
  destruct (dict_item c server) as [counts | e]; [| reflexivity].
  cbn [bind]. rewrite (mbind_eq _ _ _ _ _ IH).
  destruct (Planner.classify hot_table hot_avg c rest) as [[ds rs] | e];
    [| reflexivity].
  cbn [bind].
  destruct (Qgtb _ hot_avg); [reflexivity |].
  destruct (Qltb _ hot_avg); reflexivity.
Qed.

Lemma classify_sorted_ref (hot_table : string) (hot_avg : Q)
    (servers : list string) :
  Heap.classify_sorted hot_table hot_avg stc servers h =
  (Planner.classify_sorted hot_table hot_avg c servers, h).
Proof.
  unfold Heap.classify_sorted, Planner.classify_sorted.
  rewrite (mbind_eq _ _ _ _ _ (classify_ref hot_table hot_avg servers)).
  destruct (Planner.classify hot_table hot_avg c servers) as [[ds rs] | e];
    reflexivity.
Qed.

Lemma scan_cold_ref (hot_table : string) (t_avg_of : string -> Q)
    (d rcv : string) (to : dict addr) (tables : dict (list string))
    (best : option (Q * string * string)) :
  dict_rel (is_regions h) to tables ->
  Heap.scan_cold hot_table t_avg_of stc d rcv to best h =
  (Planner.scan_cold hot_table t_avg_of c d rcv tables best, h).
Proof.
  intros Hrel. revert best.
  induction Hrel as [| [t la] [t' regions] to tables [Ht Hla] _ IH];
    intros best; [reflexivity |].
  cbn [fst snd] in Ht, Hla. subst t'.
  cbn [Heap.scan_cold Planner.scan_cold].
  rewrite (mbind_eq _ _ _ _ _ (load_regions_at la h regions Hla)).
  destruct (String.eqb t hot_table); [apply IH |].
  destruct regions as [| region0 regions]; [apply IH |].
  erewrite counts_at_bind; [| intros a0 d0; reflexivity].
  destruct (dict_item c rcv) as [counts_r | e]; [| reflexivity].
  cbn [bind].
  erewrite counts_at_bind; [| intros a0 d0; reflexivity].
  destruct (dict_item c d) as [counts_d | e]; [| reflexivity].
  cbn [bind].
  destruct (beats _ best); apply IH.
Qed.


Lemma tables_in_rel (s : string) :
  dict_rel (is_regions h) (tables_in shape s) (dict_get_default r s []).
Proof.
  unfold tables_in, dict_get_default.
  pose proof (dict_rel_get _ shape r s Hr) as Hg.
  destruct (dict_get shape s) as [[ta to] |], (dict_get r s) as [tables |];
    try tauto.
  - exact (proj2 Hg).
  - constructor.
Qed.

Lemma tables_get_ref (s : string) :
  tables_get str s h = (Ok (tables_in shape s), h).
Proof.
  unfold tables_get, tables_in.
  rewrite (mbind_eq _ _ _ _ _ (load_servers_at str h _ Hro)).
  rewrite dict_get_outer_of.
  pose proof (dict_rel_get _ shape r s Hr) as Hg.
  destruct (dict_get shape s) as [[ta to] |]; [| reflexivity].
  destruct (dict_get r s) as [tables |]; [| tauto].
  simpl. exact (load_tables_at ta h to (proj1 Hg)).
Qed.

Lemma regions_get_ref (s t : string) :
  regions_get str s t h =
  (Ok (dict_get_default (dict_get_default r s []) t []), h).
Proof.
  unfold regions_get. rewrite (mbind_eq _ _ _ _ _ (tables_get_ref s)).
  pose proof (dict_rel_get _ _ _ t (tables_in_rel s)) as Hg.
  unfold dict_get_default at 1.
  destruct (dict_get (tables_in shape s) t) as [la |],
    (dict_get (dict_get_default r s []) t) as [l |]; try tauto.
  exact (load_regions_at la h l Hg).
Qed.

Lemma try_receivers_ref (hot_table : string) (t_avg_of : string -> Q)
    (d hr : string) (receivers : list (string * Q)) :
  Heap.try_receivers hot_table t_avg_of stc str d hr receivers h =
  (Planner.try_receivers hot_table t_avg_of (State c r) d hr receivers, h).
Proof.
  induction receivers as [| [rcv w] receivers IH]; [reflexivity |].
  cbn [Heap.try_receivers Planner.try_receivers].
  rewrite (mbind_eq _ _ _ _ _ (tables_get_ref rcv)).
  rewrite (mbind_eq _ _ _ _ _
             (scan_cold_ref hot_table t_avg_of d rcv _ _ None
                (tables_in_rel rcv))).
  cbn [Planner.stc Planner.str_regions].
  destruct (Planner.scan_cold hot_table t_avg_of c d rcv
              (dict_get_default r rcv []) None) as [[[[sc t] r0] |] | e];
    cbn [bind]; [reflexivity | exact IH | reflexivity].
Qed.

Lemma try_donors_ref (hot_table : string) (t_avg_of : string -> Q)
    (donors receivers : list (string * Q)) :
  Heap.try_donors hot_table t_avg_of stc str donors receivers h =
  (Planner.try_donors hot_table t_avg_of (State c r) donors receivers, h).
Proof.
  induction donors as [| [d w] donors IH]; [reflexivity |].
  cbn [Heap.try_donors Planner.try_donors].
  rewrite (mbind_eq _ _ _ _ _ (regions_get_ref d hot_table)).
  cbn [Planner.stc Planner.str_regions].
  destruct (dict_get_default (dict_get_default r d []) hot_table [])
    as [| hr rest]; [exact IH |].
  rewrite (mbind_eq _ _ _ _ _
             (try_receivers_ref hot_table t_avg_of d hr receivers)).
  destruct (Planner.try_receivers hot_table t_avg_of (State c r) d hr
              receivers) as [[sw |] | e];
    cbn [bind]; [reflexivity | exact IH | reflexivity].
Qed.

Lemma find_swap_ref (hot_table : string) (hot_avg : Q)
    (t_avg_of : string -> Q) (servers : list string) :
  Heap.find_swap hot_table hot_avg t_avg_of stc str servers h =
  (Planner.find_swap hot_table hot_avg t_avg_of servers (State c r), h).
Proof.
  unfold Heap.find_swap, Planner.find_swap.
  rewrite (mbind_eq _ _ _ _ _ (classify_sorted_ref hot_table hot_avg servers)).
  cbn [Planner.stc].
  destruct (Planner.classify_sorted hot_table hot_avg c servers)
    as [[donors receivers] | e]; [| reflexivity].
  cbn [bind].
  destruct donors; [reflexivity |]. destruct receivers; [reflexivity |].
  apply try_donors_ref.
Qed.
End Reads.

Lemma nth_error_update_other (h : heap) (a b : addr) (o o' : obj) :
  a <> b -> nth_error h b = Some o -> nth_error (update h a o') b = Some o.
Proof.
  intros Hab Hb. rewrite nth_error_update.
  replace (Nat.eqb a b) with false; [exact Hb |].
  symmetry. now apply Nat.eqb_neq.
Qed.

Lemma nth_error_update_same (h : heap) (a : addr) (o o' : obj) :
  nth_error h a = Some o -> nth_error (update h a o') a = Some o'.
Proof.
  intros Ha. rewrite nth_error_update, Nat.eqb_refl, Ha. reflexivity.
Qed.

Lemma store_at (h : heap) (a : addr) (o o' : obj) :
  nth_error h a = Some o -> store a o' h = (Ok tt, update h a o').
Proof. intros H. unfold store. now rewrite H. Qed.

Lemma dict_rel_set_both {V W : Type} (R R' : V -> W -> Prop) (d1 : dict V)
    (d2 : dict W) (k : string) (v v' : V) (w' : W) :
  dict_rel R d1 d2 -> dict_get d1 k = Some v -> NoDup (values d1) ->
  R' v' w' ->
  (forall v0 w0, In v0 (values d1) -> v0 <> v -> R v0 w0 -> R' v0 w0) ->
  dict_rel R' (dict_set d1 k v') (dict_set d2 k w').
Proof.
  intros H Hget Hnd HR' Hother.
  induction H as [| [k1 v1] [k2 w2] d1 d2 [Hk HR1] Hrest IH].
  - discriminate.
  - cbn [fst snd] in Hk, HR1. subst k2.
    cbn [dict_get] in Hget. cbn [dict_set].
    unfold values in Hnd, Hother. cbn [map snd] in Hnd, Hother.
    inversion Hnd as [| ? ? Hnotin Hnd']; subst.
    destruct (String.eqb k1 k) eqn:E.
    + injection Hget as ->. constructor; [split; [reflexivity | exact HR'] |].
      apply (dict_rel_impl R R' d1 d2); [| exact Hrest].
      intros v0 w0 Hin. apply Hother; [now right |].
      intros ->. contradiction.
    + constructor.
      * split; [reflexivity |]. cbn [snd].
        apply Hother; [now left | | exact HR1].
        intros ->. apply Hnotin. eapply dict_get_value_in, Hget.
      * apply IH; auto. intros v0 w0 Hin. apply Hother. now right.
Qed.

Lemma NoDup_map_inv' {A B : Type} (f : A -> B) (l : list A) :
  NoDup (map f l) -> NoDup l.
Proof.
  induction l as [| x l IH]; simpl; intros H; [constructor |].
  inversion H as [| ? ? Hnotin Hnd]; subst. constructor; [| auto].
  intros Hin. apply Hnotin. now apply in_map.
Qed.

(** The list objects of two different servers are different. *)
Lemma list_addrs_disjoint (shape : shape_t) (x y : addr * dict addr)
    (a : addr) :
  NoDup (list_addrs shape) ->
  In x (values shape) -> In y (values shape) -> x <> y ->
  In a (values (snd x)) -> In a (values (snd y)) -> False.
Proof.
  unfold list_addrs, values.
  induction shape as [| [k z] shape IH]; simpl; [tauto |].
  intros Hnd Hx Hy Hxy Hax Hay.
  apply NoDup_app_remove_l in Hnd as Hnd'.
  assert (Hsplit : forall b, In b (map snd (snd z)) ->
            In b (flat_map (fun kx => map snd (snd (snd kx))) shape) ->
            False).
  { intros b Hb1 Hb2. clear - Hnd Hb1 Hb2.
    induction (map snd (snd z)) as [| c l IHl]; simpl in *; [tauto |].
    inversion Hnd as [| ? ? Hnotin Hnd1]; subst.
    destruct Hb1 as [-> | Hb1]; [| auto].
    apply Hnotin. apply in_or_app. now right. }
  assert (Hin : forall w, In w (map snd shape) -> In a (map snd (snd w)) ->
            In a (flat_map (fun kx => map snd (snd (snd kx))) shape)).
  { intros w Hw Haw. apply in_map_iff in Hw as ([k' w'] & <- & Hw).
    apply in_flat_map. exists (k', w'). split; assumption. }
  destruct Hx as [<- | Hx], Hy as [<- | Hy].
  - congruence.
  - apply (Hsplit a Hax). now apply (Hin y).
  - apply (Hsplit a Hay). now apply (Hin x).
  - now apply IH.
Qed.

Lemma list_addrs_sub (shape : shape_t) (s : string) (x : addr * dict addr) :
  NoDup (list_addrs shape) -> dict_get shape s = Some x ->
  NoDup (values (snd x)).
Proof.
  unfold list_addrs. intros Hnd Hget. apply dict_get_in_items in Hget.
  induction shape as [| [k z] shape IH]; simpl in *; [tauto |].
  destruct Hget as [[= -> ->] | Hget].
  - simpl in Hnd. now apply NoDup_app_remove_r in Hnd.
  - apply IH; [| exact Hget]. now apply NoDup_app_remove_l in Hnd.
Qed.

Section Stores.
Variable h : heap.
Variables stc str : addr.
Variable c : counts_t.
Variable r : regions_t.
Variable co : dict addr.
Variable shape : shape_t.
Hypothesis Hco : nth_error h stc = Some (OServers co).
Hypothesis Hc : dict_rel (is_counts h) co c.
Hypothesis Hcnd : NoDup (values co).
Hypothesis Hro : nth_error h str = Some (OServers (outer_of shape)).
Hypothesis Hr : dict_rel (is_tables h) shape r.
Hypothesis Htnd : NoDup (table_addrs shape).
Hypothesis Hlnd : NoDup (list_addrs shape).

Lemma counts_addr_holds (a : addr) :
  In a (values co) -> exists d, nth_error h a = Some (OCounts d).
Proof.
  intros Hin. clear - Hc Hin. unfold values in Hin.
  induction Hc as [| [k1 v1] [k2 w2] d1 d2 [Hk HR1] Hrest IH];
    simpl in Hin; [tauto |].
  destruct Hin as [<- | Hin]; [eexists; exact HR1 | auto].
Qed.

Lemma table_addr_holds (x : addr * dict addr) :
  In x (values shape) ->
  nth_error h (fst x) = Some (OTables (snd x))
  /\ forall la, In la (values (snd x)) ->
       exists l, nth_error h la = Some (ORegions l).
Proof.
  intros Hin. clear - Hr Hin. unfold values in Hin.
  induction Hr as [| [k1 v1] [k2 w2] d1 d2 [Hk [HR1 HR2]] Hrest IH];
    simpl in Hin; [tauto |].
  destruct Hin as [<- | Hin]; [| auto].
  split; [exact HR1 |]. intros la Hla. clear - HR2 Hla.
  cbn [snd] in HR2. unfold values in Hla.
  induction HR2 as [| [t1 a1] [t2 l2] d1 d2 [Hk HR] Hrest IH];
    simpl in Hla; [tauto |].
  destruct Hla as [<- | Hla]; [eexists; exact HR | auto].
Qed.

(** Writing an object at [a] leaves the counts side as it was when [a] is
    not one of its objects. *)
Lemma counts_side_update (a : addr) (o' : obj) :
  a <> stc -> ~ In a (values co) ->
  nth_error (update h a o') stc = Some (OServers co)
  /\ dict_rel (is_counts (update h a o')) co c.
Proof.
  intros Hstc Hnotin. split; [now apply nth_error_update_other |].
  apply (dict_rel_impl (is_counts h)); [| exact Hc].
  intros a0 d Hin Hd. apply nth_error_update_other; [| exact Hd].
  intros ->. contradiction.
Qed.

(** Likewise for the regions side. *)
Lemma regions_side_update (a : addr) (o' : obj) :
  a <> str -> ~ In a (table_addrs shape) -> ~ In a (list_addrs shape) ->
  nth_error (update h a o') str = Some (OServers (outer_of shape))
  /\ dict_rel (is_tables (update h a o')) shape r.
Proof.
  intros Hstr Hnt Hnl. split; [now apply nth_error_update_other |].
  apply (dict_rel_impl (is_tables h)); [| exact Hr].
  intros [ta to] tables Hin [Hta Hto]. cbn [fst snd] in *. split.
  - cbn [fst]. apply nth_error_update_other; [| exact Hta].
    intros ->. apply Hnt. unfold table_addrs.
    apply in_map_iff in Hin as ([k x] & Hx & Hin). simpl in Hx. subst x.
    apply in_map_iff. exists (k, (ta, to)). split; [reflexivity | exact Hin].
  - cbn [snd]. apply (dict_rel_impl (is_regions h)); [| exact Hto].
    intros la l Hla Hl. apply nth_error_update_other; [| exact Hl].
    intros ->. apply Hnl. unfold list_addrs.
    apply in_map_iff in Hin as ([k x] & Hx & Hin). simpl in Hx. subst x.
    apply in_flat_map. exists (k, (ta, to)). split; [exact Hin | exact Hla].
Qed.

Lemma not_counts_addr (a : addr) (o : obj) :
  nth_error h a = Some o -> as_counts o = None -> ~ In a (values co).
Proof.
  intros Ha Ho Hin. apply counts_addr_holds in Hin as (d & Hd).
  rewrite Ha in Hd. injection Hd as ->. discriminate.
Qed.

Lemma not_table_addr (a : addr) (o : obj) :
  nth_error h a = Some o -> as_tables o = None -> ~ In a (table_addrs shape).
Proof.
  intros Ha Ho Hin. unfold table_addrs in Hin.
  apply in_map_iff in Hin as ([k x] & Hx & Hin). simpl in Hx. subst a.
  assert (Hv : In x (values shape)).
  { apply in_map_iff. exists (k, x). split; [reflexivity | exact Hin]. }
  apply table_addr_holds in Hv as [Hta _]. rewrite Ha in Hta.
  injection Hta as ->. discriminate.
Qed.

Lemma not_list_addr (a : addr) (o : obj) :
  nth_error h a = Some o -> as_regions o = None -> ~ In a (list_addrs shape).
Proof.
  intros Ha Ho Hin. unfold list_addrs in Hin.
  apply in_flat_map in Hin as ([k x] & Hin & Hla). simpl in Hla.
  assert (Hv : In x (values shape)).
  { apply in_map_iff. exists (k, x). split; [reflexivity | exact Hin]. }
  apply table_addr_holds in Hv as [_ Hl]. destruct (Hl a Hla) as (l & Hl').
  rewrite Ha in Hl'. injection Hl' as ->. discriminate.
Qed.

(** Overwriting the counts object of server [s]. *)
Lemma store_counts_holds (s : string) (a : addr) (d' : dict Z) :
  dict_get co s = Some a ->
  holds (update h a (OCounts d')) stc str (State (dict_set c s d') r).
Proof.
  intros Hget.
  pose proof (dict_get_value_in _ _ _ Hget) as Hin.
  destruct (counts_addr_holds a Hin) as (d & Hd).
  exists co, shape. cbn [Planner.stc Planner.str_regions].
  assert (Hstc : a <> stc) by (intros ->; congruence).
  assert (Hstr : a <> str) by (intros ->; congruence).
  destruct (regions_side_update a (OCounts d') Hstr
              (not_table_addr a _ Hd eq_refl) (not_list_addr a _ Hd eq_refl))
    as [Hro' Hr'].
  repeat split; try assumption.
  - now apply nth_error_update_other.
  - apply (dict_rel_update (is_counts h) _ co c s a d' Hc Hget Hcnd).
    + unfold is_counts. eapply nth_error_update_same, Hd.
    + intros a0 d0 _ Hne Hd0. apply nth_error_update_other; [| exact Hd0].
      congruence.
Qed.

(** Overwriting the list object of table [t] on server [s]. *)
Lemma store_list_holds (s t : string) (x : addr * dict addr)
    (tables : dict (list string)) (la : addr) (l' : list string) :
  dict_get shape s = Some x -> dict_get r s = Some tables ->
  dict_get (snd x) t = Some la ->
  holds (update h la (ORegions l')) stc str
    (State c (dict_set r s (dict_set tables t l'))).
Proof.
  intros Hget Hgetr Hla.
  pose proof (dict_get_value_in _ _ _ Hget) as Hin.
  pose proof (dict_get_value_in _ _ _ Hla) as Hlain.
  destruct (table_addr_holds x Hin) as [Hta Hlists].
  destruct (Hlists la Hlain) as (l & Hl).
  exists co, shape. cbn [Planner.stc Planner.str_regions].
  assert (Hstc : la <> stc) by (intros ->; congruence).
  assert (Hstr : la <> str) by (intros ->; congruence).
  destruct (counts_side_update la (ORegions l') Hstc
              (not_counts_addr la _ Hl eq_refl)) as [Hco' Hc'].
  repeat split; try assumption.
  - now apply nth_error_update_other.
  - apply (dict_rel_update (is_tables h) _ shape r s x _ Hr Hget).
    + apply (NoDup_map_inv' fst). unfold values. rewrite map_map.
      exact Htnd.
    + pose proof (dict_rel_get _ shape r s Hr) as Hg.
      rewrite Hget, Hgetr in Hg. destruct Hg as [_ Hto]. split.
      * apply nth_error_update_other; [| exact Hta]. intros ->. congruence.
      * apply (dict_rel_update (is_regions h) _ (snd x) tables t la l' Hto Hla).
        -- eapply list_addrs_sub; eassumption.
        -- unfold is_regions. eapply nth_error_update_same, Hl.
        -- intros la0 l0 _ Hne Hl0.
           apply nth_error_update_other; [congruence | exact Hl0].
    + intros y tables0 Hy Hne [Hty Hly]. split.
      * apply nth_error_update_other; [| exact Hty]. intros ->. congruence.
      * apply (dict_rel_impl (is_regions h)); [| exact Hly].
        intros la0 l0 Hla0 Hl0.
        apply nth_error_update_other; [| exact Hl0].
        intros ->.
        exact (list_addrs_disjoint shape y x la0 Hlnd Hy Hin Hne Hla0 Hlain).
Qed.
End Stores.

Lemma extends_app (h : heap) (l : list obj) : extends h (h ++ l).
Proof.
  intros a o Ha. rewrite nth_error_app1; [exact Ha |].
  apply nth_error_Some. congruence.
Qed.

Lemma is_tables_extends (h h' : heap) (x : addr * dict addr)
    (tables : dict (list string)) :
  extends h h' -> is_tables h x tables -> is_tables h' x tables.
Proof.
  intros Hext [Hta Hto]. split; [apply Hext, Hta |].
  apply (dict_rel_impl (is_regions h)); [| exact Hto].
  intros la l _ Hl. apply Hext, Hl.
Qed.

Lemma holds_extends (h h' : heap) (stc str : addr) (st : state) :
  extends h h' -> holds h stc str st -> holds h' stc str st.
Proof.
  intros Hext (co & shape & Hco & Hc & Hcnd & Hro & Hr & Htnd & Hlnd).
  exists co, shape. repeat split; auto.
  - apply (dict_rel_impl (is_counts h)); [| exact Hc].
    intros a d _ Hd. apply Hext, Hd.
  - apply (dict_rel_impl (is_tables h)); [| exact Hr].
    intros x tables _. now apply is_tables_extends.
Qed.

Lemma values_dict_set_new {V : Type} (d : dict V) (k : string) (v : V) :
  dict_mem d k = false -> values (dict_set d k v) = (values d ++ [v])%list.
Proof.
  unfold dict_mem, values. induction d as [| [k0 v0] d IH]; simpl.
  - reflexivity.
  - destruct (String.eqb k0 k); [discriminate |]. intros H. simpl.
    now rewrite IH.
Qed.

Lemma outer_of_set (shape : shape_t) (s : string) (ta : addr)
    (to to' : dict addr) :
  dict_get shape s = Some (ta, to) ->
  outer_of (dict_set shape s (ta, to')) = outer_of shape.
Proof.
  unfold outer_of. induction shape as [| [k [a d]] shape IH]; simpl.
  - discriminate.
  - destruct (String.eqb k s).
    + intros [= -> ->]. reflexivity.
    + intros H. simpl. now rewrite IH.
Qed.

Lemma table_addrs_set (shape : shape_t) (s : string) (ta : addr)
    (to to' : dict addr) :
  dict_get shape s = Some (ta, to) ->
  table_addrs (dict_set shape s (ta, to')) = table_addrs shape.
Proof.
  unfold table_addrs. induction shape as [| [k [a d]] shape IH]; simpl.
  - discriminate.
  - destruct (String.eqb k s).
    + intros [= -> ->]. reflexivity.
    + intros H. simpl. now rewrite IH.
Qed.

Lemma list_addrs_set (shape : shape_t) (s : string) (ta : addr)
    (to to' : dict addr) (n : addr) :
  dict_get shape s = Some (ta, to) ->
  values to' = (values to ++ [n])%list ->
  Permutation (list_addrs (dict_set shape s (ta, to'))) (n :: list_addrs shape).
Proof.
  unfold list_addrs. intros Hget Hval.
  induction shape as [| [k [a d]] shape IH]; simpl in *.
  - discriminate.
  - destruct (String.eqb k s).
    + injection Hget as -> ->. simpl. rewrite Hval, <- app_assoc. simpl.
      apply Permutation_sym, Permutation_middle.
    + simpl. eapply perm_trans; [apply Permutation_app_head, IH, Hget |].
      apply Permutation_sym, Permutation_middle.
Qed.

Lemma NoDup_map_eq {A B : Type} (f : A -> B) (l : list A) (x y : A) :
  NoDup (map f l) -> In x l -> In y l -> f x = f y -> x = y.
Proof.
  induction l as [| z l IH]; simpl; [tauto |].
  intros Hnd Hx Hy Hf. inversion Hnd as [| ? ? Hnotin Hnd']; subst.
  destruct Hx as [<- | Hx], Hy as [<- | Hy]; auto.
  - exfalso. apply Hnotin. rewrite Hf. now apply in_map.
  - exfalso. apply Hnotin. rewrite <- Hf. now apply in_map.
Qed.

Section Ops.
Variables stc str : addr.

(** A new empty list for table [t] of server [s], which has none. *)
Lemma add_list_holds (h : heap) (c : counts_t) (r : regions_t) (s t : string)
    (co : dict addr) (shape : shape_t) (ta : addr) (to : dict addr)
    (tables : dict (list string)) :
  nth_error h stc = Some (OServers co) ->
  dict_rel (is_counts h) co c -> NoDup (values co) ->
  nth_error h str = Some (OServers (outer_of shape)) ->
  dict_rel (is_tables h) shape r ->
  NoDup (table_addrs shape) -> NoDup (list_addrs shape) ->
  dict_get shape s = Some (ta, to) -> dict_get r s = Some tables ->
  dict_mem to t = false ->
  holds (update (h ++ [ORegions []]) ta
           (OTables (dict_set to t (List.length h))))
    stc str (State c (dict_set r s (dict_set tables t []))).
Proof.
  intros Hco Hc Hcnd Hro Hr Htnd Hlnd Hget Hgetr Hmem.
  set (h1 := (h ++ [ORegions []])%list).
  set (n := List.length h).
  pose proof (extends_app h [ORegions []]) as Hext. fold h1 in Hext.
  pose proof (dict_get_value_in _ _ _ Hget) as Hin.
  destruct (table_addr_holds _ _ _ Hr (ta, to) Hin) as [Hta Hlists].
  cbn [fst snd] in Hta, Hlists.
  assert (Hn : nth_error h1 n = Some (ORegions [])).
  { unfold h1, n. rewrite nth_error_app2, Nat.sub_diag by lia. reflexivity. }
  assert (Hvalid : forall a o, nth_error h a = Some o -> a <> n).
  { intros a o Ha ->. unfold n in Ha.
    assert (nth_error h (List.length h) = None) by (apply nth_error_None; lia).
    congruence. }
  exists co, (dict_set shape s (ta, dict_set to t n)).
  cbn [Planner.stc Planner.str_regions].
  assert (Hstc : ta <> stc) by (intros ->; congruence).
  assert (Hstr : ta <> str) by (intros ->; congruence).
  split; [apply nth_error_update_other; [exact Hstc | apply Hext, Hco] |].
  split.
  { apply (dict_rel_impl (is_counts h)); [| exact Hc].
    intros a d Ha Hd. apply nth_error_update_other; [| apply Hext, Hd].
    intros ->. unfold is_counts in Hd. congruence. }
  split; [exact Hcnd |].
  split.
  { rewrite (outer_of_set _ _ _ _ _ Hget).
    apply nth_error_update_other; [exact Hstr | apply Hext, Hro]. }
  assert (Hlist_ok : forall la l, nth_error h la = Some (ORegions l) ->
            nth_error (update h1 ta (OTables (dict_set to t n))) la
            = Some (ORegions l)).
  { intros la l Hl. apply nth_error_update_other; [| apply Hext, Hl].
    intros ->. congruence. }
  split.
  { apply (dict_rel_set_both (is_tables h) _ shape r s (ta, to) _ _ Hr Hget).
    - apply (NoDup_map_inv' fst). unfold values. rewrite map_map. exact Htnd.
    - pose proof (dict_rel_get _ shape r s Hr) as Hg.
      rewrite Hget, Hgetr in Hg. destruct Hg as [_ Hto]. cbn [snd] in Hto.
      split; cbn [fst snd].
      + eapply nth_error_update_same. apply Hext, Hta.
      + apply dict_rel_set.
        * apply (dict_rel_impl (is_regions h)); [| exact Hto].
          intros la l _ Hl. now apply Hlist_ok.
        * unfold is_regions. apply nth_error_update_other; [| exact Hn].
          apply (Hvalid _ _ Hta).
    - intros y tables0 Hy Hne [Hty Hly]. split.
      + apply nth_error_update_other; [| apply Hext, Hty].
        intros Heq. apply Hne.
        apply (NoDup_map_eq fst (values shape)); auto.
        unfold values. rewrite map_map. exact Htnd.
      + apply (dict_rel_impl (is_regions h)); [| exact Hly].
        intros la l _ Hl. now apply Hlist_ok. }
  split; [now rewrite (table_addrs_set _ _ _ _ _ Hget) |].
  eapply Permutation_NoDup.
  - apply Permutation_sym.
    apply (list_addrs_set shape s ta to _ n Hget).
    now apply values_dict_set_new.
  - constructor; [| exact Hlnd].
    intros Hnin. unfold list_addrs in Hnin.
    apply in_flat_map in Hnin as ([k x] & Hx & Hla). simpl in Hla.
    assert (Hv : In x (values shape)).
    { apply in_map_iff. exists (k, x). split; [reflexivity | exact Hx]. }
    destruct (table_addr_holds _ _ _ Hr x Hv) as [_ Hl].
    destruct (Hl n Hla) as (l & Hl'). exact (Hvalid _ _ Hl' eq_refl).
Qed.
End Ops.

Lemma dict_set_set {V : Type} (d : dict V) (k : string) (v v' : V) :
  dict_set (dict_set d k v) k v' = dict_set d k v'.
Proof.
  induction d as [| [k0 v0] d IH]; simpl.
  - now rewrite String.eqb_refl.
  - destruct (String.eqb k0 k) eqn:E; simpl; rewrite E; [reflexivity |].
    now rewrite IH.
Qed.

Lemma tables_at_eq (h : heap) (str : addr) (shape : shape_t) (r : regions_t)
    (s : string) :
  nth_error h str = Some (OServers (outer_of shape)) ->
  dict_rel (is_tables h) shape r ->
  tables_at str s h =
  (match dict_get shape s with
   | Some x => Ok x
   | None => Raise KeyError
   end, h).
Proof.
  intros Hro Hr. unfold tables_at.
  rewrite (mbind_eq _ _ _ _ _ (load_servers_at str h _ Hro)).
  unfold lift, dict_item. unfold mbind at 1.
  rewrite dict_get_outer_of.
  pose proof (dict_rel_get _ shape r s Hr) as Hg.
  destruct (dict_get shape s) as [[ta to] |]; [| reflexivity].
  destruct (dict_get r s) as [tables |]; [| tauto].
  cbn [option_map fst].
  rewrite (mbind_eq _ _ _ _ _ (load_tables_at ta h to (proj1 Hg))).
  reflexivity.
Qed.

Lemma lift_item_at {V : Type} (d : dict V) (k : string) (v : V) (h : heap) :
  dict_get d k = Some v -> lift (dict_item d k) h = (Ok v, h).
Proof. intros H. unfold lift, dict_item. now rewrite H. Qed.

Lemma lift_item_none {V : Type} (d : dict V) (k : string) (h : heap) :
  dict_get d k = None -> lift (dict_item d k) h = (Raise KeyError, h).
Proof. intros H. unfold lift, dict_item. now rewrite H. Qed.

Ltac run H := rewrite (mbind_eq _ _ _ _ _ H); cbv beta iota.

Section OpsRef.
Variables stc str : addr.

(** [stc[s]] on a store that holds the state. *)
Lemma counts_at_holds (h : heap) (c : counts_t) (r : regions_t) (s : string) :
  holds h stc str (State c r) ->
  match dict_get c s with
  | Some d =>
      exists a, counts_at stc s h = (Ok (a, d), h)
                /\ forall d', holds (update h a (OCounts d')) stc str
                                (State (dict_set c s d') r)
  | None => counts_at stc s h = (Raise KeyError, h)
  end.
Proof.
  intros (co & shape & Hco & Hc & Hcnd & Hro & Hr & Htnd & Hlnd).
  cbn [Planner.stc Planner.str_regions] in *.
  rewrite (counts_at_eq h stc co c Hco Hc s).
  pose proof (dict_rel_get _ co c s Hc) as Hg. unfold dict_item.
  destruct (dict_get co s) as [a |] eqn:Ea, (dict_get c s) as [d |] eqn:Ed;
    try tauto.
  exists a. split; [reflexivity |]. intros d'.
  exact (store_counts_holds h stc str c r co shape Hco Hc Hcnd Hro Hr Htnd
           Hlnd s a d' Ea).
Qed.

Lemma counts_at_valid (h : heap) (s : string) (a : addr) (d : dict Z) :
  counts_at stc s h = (Ok (a, d), h) -> nth_error h a = Some (OCounts d).
Proof.
  unfold counts_at, load_servers, load_counts, load_as, load, mbind, lift, ret,
    raise.
  destruct (nth_error h stc) as [[| | | co] |]; simpl; try discriminate.
  destruct (dict_item co s) as [a0 | e]; [| discriminate].
  destruct (nth_error h a0) as [[d0 | | |] |] eqn:E; simpl; try discriminate.
  intros [= <- <-]. exact E.
Qed.

Lemma decr_tracks (h : heap) (c : counts_t) (r : regions_t) (s t : string) :
  holds h stc str (State c r) ->
  tracks stc str (Heap.decr stc s t) h
    (bind (Planner.decr c s t) (fun c' => Ok (State c' r))).
Proof.
  intros Hh. pose proof (counts_at_holds h c r s Hh) as Hat.
  unfold Planner.decr, dict_item at 1.
  destruct (dict_get c s) as [d |]; cbn [bind].
  - destruct Hat as (a & Hat & Hstore).
    unfold dict_item.
    destruct (dict_get d t) as [v |] eqn:Et; cbn [bind tracks].
    + eexists. split; [| apply Hstore].
      unfold Heap.decr. run Hat. run (lift_item_at d t v h Et).
      exact (store_at h a _ _ (counts_at_valid h s a d Hat)).
    + eexists. unfold Heap.decr. run Hat. run (lift_item_none d t h Et).
      reflexivity.
  - cbn [tracks]. eexists. unfold Heap.decr. run Hat. reflexivity.
Qed.

Lemma incr_tracks (h : heap) (c : counts_t) (r : regions_t) (s t : string) :
  holds h stc str (State c r) ->
  tracks stc str (Heap.incr stc s t) h
    (bind (Planner.incr c s t) (fun c' => Ok (State c' r))).
Proof.
  intros Hh. pose proof (counts_at_holds h c r s Hh) as Hat.
  unfold Planner.incr, dict_item at 1.
  destruct (dict_get c s) as [d |]; cbn [bind tracks].
  - destruct Hat as (a & Hat & Hstore).
    eexists. split; [| apply Hstore].
    unfold Heap.incr. run Hat.
    exact (store_at h a _ _ (counts_at_valid h s a d Hat)).
  - eexists. unfold Heap.incr. run Hat. reflexivity.
Qed.

(** The list object of table [t] on server [s], and what a write to it
    gives. *)
Lemma list_at (h : heap) (c : counts_t) (r : regions_t) (s t : string)
    (tables : dict (list string)) (l : list string) :
  holds h stc str (State c r) ->
  dict_get r s = Some tables -> dict_get tables t = Some l ->
  exists x la,
    tables_at str s h = (Ok x, h)
    /\ dict_rel (is_regions h) (snd x) tables
    /\ dict_get (snd x) t = Some la
    /\ nth_error h la = Some (ORegions l)
    /\ forall l', holds (update h la (ORegions l')) stc str
                    (State c (dict_set r s (dict_set tables t l'))).
Proof.
  intros (co & shape & Hco & Hc & Hcnd & Hro & Hr & Htnd & Hlnd) Hs Ht.
  cbn [Planner.stc Planner.str_regions] in *.
  pose proof (dict_rel_get _ shape r s Hr) as Hg. rewrite Hs in Hg.
  destruct (dict_get shape s) as [x |] eqn:Ex; [| tauto].
  destruct Hg as [Hta Hto].
  pose proof (dict_rel_get _ _ _ t Hto) as Hg. rewrite Ht in Hg.
  destruct (dict_get (snd x) t) as [la |] eqn:Ela; [| tauto].
  exists x, la. repeat split; auto.
  - rewrite (tables_at_eq h str shape r s Hro Hr), Ex. reflexivity.
  - intros l'.
    exact (store_list_holds h stc str c r co shape Hco Hc Hcnd Hro Hr Htnd
             Hlnd s t x tables la l' Ex Hs Ela).
Qed.

Lemma tables_at_absent (h : heap) (c : counts_t) (r : regions_t) (s : string) :
  holds h stc str (State c r) -> dict_get r s = None ->
  tables_at str s h = (Raise KeyError, h).
Proof.
  intros (co & shape & Hco & Hc & Hcnd & Hro & Hr & Htnd & Hlnd) Hs.
  cbn [Planner.stc Planner.str_regions] in *.
  rewrite (tables_at_eq h str shape r s Hro Hr).
  pose proof (dict_rel_get _ shape r s Hr) as Hg. rewrite Hs in Hg.
  destruct (dict_get shape s); [tauto | reflexivity].
Qed.

Lemma tables_at_present (h : heap) (c : counts_t) (r : regions_t) (s : string)
    (tables : dict (list string)) :
  holds h stc str (State c r) -> dict_get r s = Some tables ->
  exists x, tables_at str s h = (Ok x, h)
            /\ dict_rel (is_regions h) (snd x) tables.
Proof.
  intros (co & shape & Hco & Hc & Hcnd & Hro & Hr & Htnd & Hlnd) Hs.
  cbn [Planner.stc Planner.str_regions] in *.
  rewrite (tables_at_eq h str shape r s Hro Hr).
  pose proof (dict_rel_get _ shape r s Hr) as Hg. rewrite Hs in Hg.
  destruct (dict_get shape s) as [x |]; [| tauto].
  exists x. split; [reflexivity | exact (proj2 Hg)].
Qed.

Lemma remove_region_tracks (h : heap) (c : counts_t) (r : regions_t)
    (s t x : string) :
  holds h stc str (State c r) ->
  tracks stc str (Heap.remove_region str s t x) h
    (bind (Planner.remove_region r s t x) (fun r' => Ok (State c r'))).
Proof.
  intros Hh. unfold Planner.remove_region, dict_item at 1.
  destruct (dict_get r s) as [tables |] eqn:Es; cbn [bind].
  2:{ cbn [tracks]. eexists. unfold Heap.remove_region.
      run (tables_at_absent h c r s Hh Es). reflexivity. }
  unfold dict_item.
  destruct (dict_get tables t) as [l |] eqn:Et; cbn [bind].
  - destruct (list_at h c r s t tables l Hh Es Et)
      as ([ta to] & la & Hat & Hto & Hla & Hl & Hstore).
    cbn [snd] in *.
    destruct (list_remove x l) as [l' | e] eqn:El; cbn [bind tracks].
    + eexists. split; [| apply Hstore].
      unfold Heap.remove_region. run Hat. run (lift_item_at to t la h Hla).
      run (load_regions_at la h l Hl).
      run (f_equal (fun res => (res, h)) El : lift (list_remove x l) h = _).
      exact (store_at h la _ _ Hl).
    + eexists. unfold Heap.remove_region. run Hat.
      run (lift_item_at to t la h Hla). run (load_regions_at la h l Hl).
      run (f_equal (fun res => (res, h)) El : lift (list_remove x l) h = _).
      reflexivity.
  - destruct (tables_at_present h c r s tables Hh Es) as ([ta to] & Hat & Hto).
    cbn [snd] in *.
    pose proof (dict_rel_get _ _ _ t Hto) as Hg. rewrite Et in Hg.
    destruct (dict_get to t) eqn:Eto; [tauto |].
    cbn [tracks]. eexists. unfold Heap.remove_region. run Hat.
    run (lift_item_none to t h Eto). reflexivity.
Qed.

Lemma append_region_tracks (h : heap) (c : counts_t) (r : regions_t)
    (s t x : string) :
  holds h stc str (State c r) ->
  tracks stc str (Heap.append_region str s t x) h
    (bind (Planner.append_region r s t x) (fun r' => Ok (State c r'))).
Proof.
  intros Hh. unfold Planner.append_region, dict_item at 1.
  destruct (dict_get r s) as [tables |] eqn:Es; cbn [bind].
  2:{ cbn [tracks]. eexists. unfold Heap.append_region.
      run (tables_at_absent h c r s Hh Es). reflexivity. }
  destruct (tables_at_present h c r s tables Hh Es) as ([ta to] & Hat & Hto).
  cbn [snd] in *.
  pose proof (dict_rel_mem _ _ _ t Hto) as Hmem.
  destruct (dict_get tables t) as [l |] eqn:Et.
  - assert (Hmt : dict_mem tables t = true)
      by (unfold dict_mem; now rewrite Et).
    rewrite Hmt. unfold dict_item. rewrite Et. cbn [bind tracks].
    destruct (list_at h c r s t tables l Hh Es Et)
      as ([ta' to'] & la & Hat' & _ & Hla & Hl & Hstore).
    cbn [snd] in *.
    assert (Hm : dict_mem to t = true) by congruence.
    eexists. split; [| apply Hstore].
    unfold Heap.append_region. run Hat. rewrite Hm.
    run (eq_refl : ret tt h = (Ok tt, h)).
    run Hat'. run (lift_item_at to' t la h Hla).
    run (load_regions_at la h l Hl).
    exact (store_at h la _ _ Hl).
  - (* a new list first *)
    assert (Hmt : dict_mem tables t = false)
      by (unfold dict_mem; now rewrite Et).
    assert (Hm : dict_mem to t = false) by congruence.
    rewrite Hmt. unfold dict_item.
    assert (Hnew : exists h2,
               (let* la := alloc (ORegions []) in
                store ta (OTables (dict_set to t la))) h = (Ok tt, h2)
               /\ holds h2 stc str
                    (State c (dict_set r s (dict_set tables t [])))).
    { destruct Hh as (co & shape & Hco & Hc & Hcnd & Hro & Hr & Htnd & Hlnd).
      cbn [Planner.stc Planner.str_regions] in *.
      rewrite (tables_at_eq h str shape r s Hro Hr) in Hat.
      destruct (dict_get shape s) as [x0 |] eqn:Ex; [| discriminate].
      injection Hat as ->.
      pose proof (dict_get_value_in _ _ _ Ex) as Hin.
      destruct (table_addr_holds _ _ _ Hr (ta, to) Hin) as [Hta _].
      cbn [fst] in Hta.
      eexists. split.
      - unfold mbind, alloc.
        apply store_at with (o := OTables to).
        apply (extends_app h [ORegions []]), Hta.
      - apply (add_list_holds stc str h c r s t co shape ta to tables);
          auto. }
    destruct Hnew as (h2 & Hrun & Hh2).
    destruct (list_at h2 c _ s t (dict_set tables t []) [] Hh2
                (dict_get_set_same _ _ _) (dict_get_set_same _ _ _))
      as ([ta' to'] & la & Hat' & _ & Hla & Hl & Hstore).
    cbn [snd] in *.
    rewrite dict_get_set_same. cbn [bind tracks].
    eexists. split.
    + unfold Heap.append_region. run Hat. rewrite Hm. run Hrun.
      run Hat'. run (lift_item_at to' t la h2 Hla).
      run (load_regions_at la h2 [] Hl).
      exact (store_at h2 la _ _ Hl).
    + specialize (Hstore ([] ++ [x])%list).
      now rewrite (dict_set_set r s) in Hstore.
Qed.
End OpsRef.

Section LoopRef.
Variable hot_table : string.
Variable hot_avg : Q.
Variable t_avg_of : string -> Q.
Variables stc str : addr.

Lemma tracks_seq (m k : M unit) (h : heap) (res : result state)
    (f : state -> result state) :
  tracks stc str m h res ->
  (forall h1 st1, holds h1 stc str st1 -> tracks stc str k h1 (f st1)) ->
  tracks stc str (let* _ := m in k) h (bind res f).
Proof.
  intros Hm Hk. destruct res as [st1 | e]; cbn [bind tracks] in *.
  - destruct Hm as (h1 & Hrun & Hh1). specialize (Hk h1 st1 Hh1).
    destruct (f st1) as [st2 | e]; cbn [tracks] in *.
    + destruct Hk as (h2 & Hrun2 & Hh2). exists h2. split; [| exact Hh2].
      now rewrite (mbind_eq _ _ _ _ _ Hrun).
    + destruct Hk as (h2 & Hrun2). exists h2.
      now rewrite (mbind_eq _ _ _ _ _ Hrun).
  - destruct Hm as (h1 & Hrun). exists h1.
    now rewrite (mbind_eq _ _ _ _ _ Hrun).
Qed.

(** The eight updates of [apply_swap], each as a step on the whole state. *)
Lemma apply_swap_chain (st : state) (sw : swap) :
  Planner.apply_swap hot_table st sw =
  bind (bind (Planner.decr (Planner.stc st) (source sw) hot_table)
          (fun c' => Ok (State c' (Planner.str_regions st))))
  (fun st =>
  bind (bind (Planner.incr (Planner.stc st) (target sw) hot_table)
          (fun c' => Ok (State c' (Planner.str_regions st))))
  (fun st =>
  bind (bind (Planner.remove_region (Planner.str_regions st) (source sw)
                hot_table (hot_region sw))
          (fun r' => Ok (State (Planner.stc st) r')))
  (fun st =>
  bind (bind (Planner.append_region (Planner.str_regions st) (target sw)
                hot_table (hot_region sw))
          (fun r' => Ok (State (Planner.stc st) r')))
  (fun st =>
  bind (bind (Planner.decr (Planner.stc st) (target sw) (cold_table sw))
          (fun c' => Ok (State c' (Planner.str_regions st))))
  (fun st =>
  bind (bind (Planner.incr (Planner.stc st) (source sw) (cold_table sw))
          (fun c' => Ok (State c' (Planner.str_regions st))))
  (fun st =>
  bind (bind (Planner.remove_region (Planner.str_regions st) (target sw)
                (cold_table sw) (cold_region sw))
          (fun r' => Ok (State (Planner.stc st) r')))
  (fun st =>
  bind (Planner.append_region (Planner.str_regions st) (source sw)
          (cold_table sw) (cold_region sw))
       (fun r' => Ok (State (Planner.stc st) r'))))))))).
Proof.
  destruct st as [c r]. unfold Planner.apply_swap.
  cbn [Planner.stc Planner.str_regions].
  destruct (Planner.decr c (source sw) hot_table) as [c1 | e];
    cbn [bind Planner.stc Planner.str_regions]; [| reflexivity].
  destruct (Planner.incr c1 (target sw) hot_table) as [c2 | e];
    cbn [bind Planner.stc Planner.str_regions]; [| reflexivity].
  destruct (Planner.remove_region r (source sw) hot_table (hot_region sw))
    as [r1 | e]; cbn [bind Planner.stc Planner.str_regions]; [| reflexivity].
  destruct (Planner.append_region r1 (target sw) hot_table (hot_region sw))
    as [r2 | e]; cbn [bind Planner.stc Planner.str_regions]; [| reflexivity].
  destruct (Planner.decr c2 (target sw) (cold_table sw)) as [c3 | e];
    cbn [bind Planner.stc Planner.str_regions]; [| reflexivity].
  destruct (Planner.incr c3 (source sw) (cold_table sw)) as [c4 | e];
    cbn [bind Planner.stc Planner.str_regions]; [| reflexivity].
  destruct (Planner.remove_region r2 (target sw) (cold_table sw)
              (cold_region sw)) as [r3 | e];
    cbn [bind Planner.stc Planner.str_regions]; reflexivity.
Qed.

Lemma apply_swap_tracks (h : heap) (st : state) (sw : swap) :
  holds h stc str st ->
  tracks stc str (Heap.apply_swap hot_table stc str sw) h
    (Planner.apply_swap hot_table st sw).
Proof.
  intros Hh. rewrite apply_swap_chain. unfold Heap.apply_swap.
  destruct st as [c r]. cbn [Planner.stc Planner.str_regions] in *.
  apply tracks_seq; [now apply decr_tracks |].
  clear. intros h [c r] Hh. cbn [Planner.stc Planner.str_regions].
  apply tracks_seq; [now apply incr_tracks |].
  clear. intros h [c r] Hh. cbn [Planner.stc Planner.str_regions].
  apply tracks_seq; [now apply remove_region_tracks |].
  clear. intros h [c r] Hh. cbn [Planner.stc Planner.str_regions].
  apply tracks_seq; [now apply append_region_tracks |].
  clear. intros h [c r] Hh. cbn [Planner.stc Planner.str_regions].
  apply tracks_seq; [now apply decr_tracks |].
  clear. intros h [c r] Hh. cbn [Planner.stc Planner.str_regions].
  apply tracks_seq; [now apply incr_tracks |].
  clear. intros h [c r] Hh. cbn [Planner.stc Planner.str_regions].
  apply tracks_seq; [now apply remove_region_tracks |].
  clear. intros h [c r] Hh. cbn [Planner.stc Planner.str_regions].
  now apply append_region_tracks.
Qed.

Lemma find_swap_holds (h : heap) (st : state) (servers : list string) :
  holds h stc str st ->
  Heap.find_swap hot_table hot_avg t_avg_of stc str servers h =
  (Planner.find_swap hot_table hot_avg t_avg_of servers st, h).
Proof.
  intros (co & shape & Hco & Hc & Hcnd & Hro & Hr & Htnd & Hlnd).
  destruct st as [c r]. cbn [Planner.stc Planner.str_regions] in *.
  exact (find_swap_ref h stc str co shape c r Hco Hc Hro Hr hot_table hot_avg
           t_avg_of servers).
Qed.

(** The loop on the store returns the plan of the loop on values. *)
Lemma plan_loop_ref (fuel : nat) (servers : list string) :
  forall (h : heap) (st : state) (acc : list swap),
  holds h stc str st ->
  exists h',
    Heap.plan_loop hot_table hot_avg t_avg_of stc str fuel servers acc h =
    (bind (Planner.plan_loop hot_table hot_avg t_avg_of fuel servers st acc)
       (fun p => Ok (fst p)), h').
Proof.
  induction fuel as [| fuel IH]; intros h st acc Hh.
  - exists h. reflexivity.
  - cbn [Heap.plan_loop Planner.plan_loop].
    rewrite (mbind_eq _ _ _ _ _ (find_swap_holds h st servers Hh)).
    destruct (Planner.find_swap hot_table hot_avg t_avg_of servers st)
      as [[sw |] | e]; cbn [bind].
    + pose proof (apply_swap_tracks h st sw Hh) as Hsw.
      destruct (Planner.apply_swap hot_table st sw) as [st' | e];
        cbn [bind tracks] in *.
      * destruct Hsw as (h1 & Hrun & Hh1).
        rewrite (mbind_eq _ _ _ _ _ Hrun). apply IH, Hh1.
      * destruct Hsw as (h1 & Hrun). exists h1.
        now rewrite (mbind_eq _ _ _ _ _ Hrun).
    + exists h. reflexivity.
    + exists h. reflexivity.
Qed.
End LoopRef.

Lemma load_as_inv {X : Type} (pr : obj -> option X) (a : addr) (h h1 : heap)
    (x : X) :
  load_as pr a h = (Ok x, h1) ->
  h1 = h /\ exists o, nth_error h a = Some o /\ pr o = Some x.
Proof.
  unfold load_as, mbind, load, ret, raise.
  destruct (nth_error h a) as [o |]; [| discriminate].
  destruct (pr o) as [x0 |] eqn:E; [| discriminate].
  intros [= <- <-]. eauto.
Qed.

Lemma load_counts_inv (a : addr) (h h1 : heap) (d : dict Z) :
  load_counts a h = (Ok d, h1) -> h1 = h /\ nth_error h a = Some (OCounts d).
Proof.
  intros H. apply load_as_inv in H as (-> & o & Ho & Hp).
  destruct o; try discriminate. injection Hp as ->. auto.
Qed.

Lemma load_regions_inv (a : addr) (h h1 : heap) (l : list string) :
  load_regions a h = (Ok l, h1) -> h1 = h /\ nth_error h a = Some (ORegions l).
Proof.
  intros H. apply load_as_inv in H as (-> & o & Ho & Hp).
  destruct o; try discriminate. injection Hp as ->. auto.
Qed.

Lemma load_tables_inv (a : addr) (h h1 : heap) (d : dict addr) :
  load_tables a h = (Ok d, h1) -> h1 = h /\ nth_error h a = Some (OTables d).
Proof.
  intros H. apply load_as_inv in H as (-> & o & Ho & Hp).
  destruct o; try discriminate. injection Hp as ->. auto.
Qed.

Lemma load_servers_inv (a : addr) (h h1 : heap) (d : dict addr) :
  load_servers a h = (Ok d, h1) -> h1 = h /\ nth_error h a = Some (OServers d).
Proof.
  intros H. apply load_as_inv in H as (-> & o & Ho & Hp).
  destruct o; try discriminate. injection Hp as ->. auto.
Qed.

(** What a successful read says of the store. *)
Lemma read_counts_items_rel (items : dict addr) :
  forall (h h1 : heap) (c : counts_t),
  read_counts_items items h = (Ok c, h1) ->
  h1 = h /\ dict_rel (is_counts h) items c.
Proof.
  induction items as [| [s a] items IH]; intros h h1 c H.
  - injection H as <- <-. split; [reflexivity | constructor].
  - cbn [read_counts_items] in H.
    apply mbind_inv in H as (d & h2 & Hd & H).
    apply load_counts_inv in Hd as [-> Hd].
    apply mbind_inv in H as (tl & h3 & Htl & H).
    apply IH in Htl as [-> Htl]. injection H as <- <-.
    split; [reflexivity |]. constructor; [split; [reflexivity | exact Hd] |].
    exact Htl.
Qed.

(** And back: a store that holds the counts reads as them. *)
Lemma read_counts_items_at (items : dict addr) :
  forall (h : heap) (c : counts_t),
  dict_rel (is_counts h) items c -> read_counts_items items h = (Ok c, h).
Proof.
  induction items as [| [s a] items IH]; intros h c Hrel.
  - inversion Hrel; subst. reflexivity.
  - inversion Hrel as [| ? [s' d] ? c' [Hk Hd] Hrest]; subst.
    cbn [fst snd] in Hk, Hd. subst s'. cbn [read_counts_items].
    run (load_counts_at a h d Hd). run (IH _ _ Hrest). reflexivity.
Qed.

Lemma read_lists_rel (items : dict addr) :
  forall (h h1 : heap) (tables : dict (list string)),
  read_lists items h = (Ok tables, h1) ->
  h1 = h /\ dict_rel (is_regions h) items tables.
Proof.
  induction items as [| [t a] items IH]; intros h h1 tables H.
  - injection H as <- <-. split; [reflexivity | constructor].
  - cbn [read_lists] in H.
    apply mbind_inv in H as (l & h2 & Hl & H).
    apply load_regions_inv in Hl as [-> Hl].
    apply mbind_inv in H as (tl & h3 & Htl & H).
    apply IH in Htl as [-> Htl]. injection H as <- <-.
    split; [reflexivity |]. constructor; [split; [reflexivity | exact Hl] |].
    exact Htl.
Qed.

Lemma read_tables_items_rel (items : dict addr) :
  forall (h h1 : heap) (r : regions_t),
  read_tables_items items h = (Ok r, h1) ->
  h1 = h /\ dict_rel (has_tables h) items r.
Proof.
  induction items as [| [s a] items IH]; intros h h1 r H.
  - injection H as <- <-. split; [reflexivity | constructor].
  - cbn [read_tables_items] in H.
    apply mbind_inv in H as (d & h2 & Hd & H).
    apply load_tables_inv in Hd as [-> Hd].
    apply mbind_inv in H as (inner & h3 & Hin & H).
    apply read_lists_rel in Hin as [-> Hin].
    apply mbind_inv in H as (tl & h4 & Htl & H).
    apply IH in Htl as [-> Htl]. injection H as <- <-.
    split; [reflexivity |].
    constructor; [split; [reflexivity | exists d; auto] | exact Htl].
Qed.

Lemma extends_refl (h : heap) : extends h h.
Proof. intros a o H. exact H. Qed.

Lemma extends_trans (h1 h2 h3 : heap) :
  extends h1 h2 -> extends h2 h3 -> extends h1 h3.
Proof. intros H12 H23 a o H. apply H23, H12, H. Qed.

Lemma extends_length (h h' : heap) :
  extends h h' -> (List.length h <= List.length h')%nat.
Proof.
  intros Hext. destruct h as [| o h] using rev_ind; [simpl; lia |].
  clear IHh. rewrite length_app. simpl.
  assert (Hn : nth_error (h ++ [o]) (List.length h) = Some o)
    by (rewrite nth_error_app2, Nat.sub_diag by lia; reflexivity).
  apply Hext in Hn.
  assert (List.length h < List.length h')%nat
    by (apply nth_error_Some; congruence).
  lia.
Qed.

Lemma alloc_at (o : obj) (h : heap) :
  nth_error (h ++ [o]) (List.length h) = Some o.
Proof. rewrite nth_error_app2, Nat.sub_diag by lia. reflexivity. Qed.

Lemma in_range_mono (lo lo' hi hi' : nat) (l : list addr) :
  (lo' <= lo)%nat -> (hi <= hi')%nat ->
  Forall (in_range lo hi) l -> Forall (in_range lo' hi') l.
Proof.
  intros Hlo Hhi. apply Forall_impl. unfold in_range. intros a. lia.
Qed.

Lemma ranges_disjoint (lo mid hi : nat) (l1 l2 : list addr) :
  Forall (in_range lo mid) l1 -> Forall (in_range mid hi) l2 ->
  NoDup l1 -> NoDup l2 -> NoDup (l1 ++ l2).
Proof.
  intros H1 H2 N1 N2. induction l1 as [| a l1 IH]; [exact N2 |].
  inversion H1 as [| ? ? Ha H1']; subst.
  inversion N1 as [| ? ? Hnotin N1']; subst.
  simpl. constructor; [| now apply IH].
  intros Hin. apply in_app_or in Hin as [Hin | Hin]; [contradiction |].
  rewrite Forall_forall in H2. specialize (H2 a Hin).
  unfold in_range in *. lia.
Qed.

(** The copies: what they return and what they leave in the store. *)
Lemma copy_counts_items_spec (items : dict addr) :
  forall (h : heap) (c : counts_t),
  dict_rel (is_counts h) items c ->
  exists co h1,
    copy_counts_items items h = (Ok co, h1)
    /\ extends h h1
    /\ dict_rel (is_counts h1) co c
    /\ NoDup (values co)
    /\ Forall (in_range (List.length h) (List.length h1)) (values co).
Proof.
  induction items as [| [s a] items IH]; intros h c Hrel.
  - inversion Hrel; subst. exists [], h. repeat split.
    + apply extends_refl.
    + constructor.
    + constructor.
    + constructor.
  - inversion Hrel as [| ? [s' d] ? c' [Hk Hd] Hrest]; subst.
    cbn [fst snd] in Hk, Hd. subst s'.
    pose proof (extends_app h [OCounts d]) as Hext.
    destruct (IH (h ++ [OCounts d])%list c') as (co & h1 & Hrun & Hext1 & Hco
                                                & Hnd & Hrng).
    { apply (dict_rel_impl (is_counts h)); [| exact Hrest].
      intros a0 d0 _ H0. apply Hext, H0. }
    exists ((s, List.length h) :: co), h1.
    rewrite length_app in Hrng. cbn [List.length] in Hrng.
    pose proof (extends_length _ _ Hext1) as Hlen.
    rewrite length_app in Hlen. cbn [List.length] in Hlen.
    repeat split.
    + cbn [copy_counts_items].
      run (load_counts_at a h d Hd).
      run (eq_refl : alloc (OCounts d) h = (Ok (List.length h), _)).
      run Hrun. reflexivity.
    + eapply extends_trans; eassumption.
    + constructor; [| exact Hco]. split; [reflexivity |].
      cbn [snd]. apply Hext1, alloc_at.
    + unfold values. cbn [map snd]. constructor; [| exact Hnd].
      intros Hin. rewrite Forall_forall in Hrng. specialize (Hrng _ Hin).
      unfold in_range in Hrng. lia.
    + unfold values. cbn [map snd]. constructor.
      * unfold in_range. lia.
      * eapply in_range_mono; [| | exact Hrng]; lia.
Qed.

Lemma copy_lists_spec (items : dict addr) :
  forall (h : heap) (tables : dict (list string)),
  dict_rel (is_regions h) items tables ->
  exists to h1,
    copy_lists items h = (Ok to, h1)
    /\ extends h h1
    /\ dict_rel (is_regions h1) to tables
    /\ NoDup (values to)
    /\ Forall (in_range (List.length h) (List.length h1)) (values to).
Proof.
  induction items as [| [t a] items IH]; intros h tables Hrel.
  - inversion Hrel; subst. exists [], h. repeat split.
    + apply extends_refl.
    + constructor.
    + constructor.
    + constructor.
  - inversion Hrel as [| ? [t' l] ? tables' [Hk Hl] Hrest]; subst.
    cbn [fst snd] in Hk, Hl. subst t'.
    pose proof (extends_app h [ORegions l]) as Hext.
    destruct (IH (h ++ [ORegions l])%list tables')
      as (to & h1 & Hrun & Hext1 & Hto & Hnd & Hrng).
    { apply (dict_rel_impl (is_regions h)); [| exact Hrest].
      intros a0 d0 _ H0. apply Hext, H0. }
    exists ((t, List.length h) :: to), h1.
    rewrite length_app in Hrng. cbn [List.length] in Hrng.
    pose proof (extends_length _ _ Hext1) as Hlen.
    rewrite length_app in Hlen. cbn [List.length] in Hlen.
    repeat split.
    + cbn [copy_lists].
      run (load_regions_at a h l Hl).
      run (eq_refl : alloc (ORegions l) h = (Ok (List.length h), _)).
      run Hrun. reflexivity.
    + eapply extends_trans; eassumption.
    + constructor; [| exact Hto]. split; [reflexivity |].
      cbn [snd]. apply Hext1, alloc_at.
    + unfold values. cbn [map snd]. constructor; [| exact Hnd].
      intros Hin. rewrite Forall_forall in Hrng. specialize (Hrng _ Hin).
      unfold in_range in Hrng. lia.
    + unfold values. cbn [map snd]. constructor.
      * unfold in_range. lia.
      * eapply in_range_mono; [| | exact Hrng]; lia.
Qed.

Lemma has_tables_extends (h h' : heap) (ta : addr)
    (tables : dict (list string)) :
  extends h h' -> has_tables h ta tables -> has_tables h' ta tables.
Proof.
  intros Hext (to & Hta & Hto). exists to. split; [apply Hext, Hta |].
  apply (dict_rel_impl (is_regions h)); [| exact Hto].
  intros la l _ Hl. apply Hext, Hl.
Qed.

Lemma copy_tables_items_spec (items : dict addr) :
  forall (h : heap) (r : regions_t),
  dict_rel (has_tables h) items r ->
  exists shape h1,
    copy_tables_items items h = (Ok (outer_of shape), h1)
    /\ extends h h1
    /\ dict_rel (is_tables h1) shape r
    /\ NoDup (table_addrs shape)
    /\ NoDup (list_addrs shape)
    /\ Forall (in_range (List.length h) (List.length h1)) (table_addrs shape)
    /\ Forall (in_range (List.length h) (List.length h1)) (list_addrs shape).
Proof.
  induction items as [| [s a] items IH]; intros h r Hrel.
  - inversion Hrel; subst. exists [], h. repeat split.
    + apply extends_refl.
    + constructor.
    + constructor.
    + constructor.
    + constructor.
    + constructor.
  - inversion Hrel as [| ? [s' tables] ? r' [Hk (d & Hd & Hlists)] Hrest];
      subst.
    cbn [fst snd] in Hk, Hd, Hlists. subst s'.
    destruct (copy_lists_spec d h tables Hlists)
      as (to & h1 & Hrun1 & Hext1 & Hto & Hnd1 & Hrng1).
    pose proof (extends_app h1 [OTables to]) as Hext2.
    destruct (IH (h1 ++ [OTables to])%list r')
      as (shape & h2 & Hrun2 & Hext3 & Hshape & Htnd & Hlnd & Htr & Hlr).
    { apply (dict_rel_impl (has_tables h)); [| exact Hrest].
      intros a0 d0 _ H0. eapply has_tables_extends; [| exact H0].
      eapply extends_trans; eassumption. }
    exists ((s, (List.length h1, to)) :: shape), h2.
    rewrite length_app in Htr, Hlr. cbn [List.length] in Htr, Hlr.
    pose proof (extends_length _ _ Hext1) as Hlen1.
    pose proof (extends_length _ _ Hext3) as Hlen3.
    rewrite length_app in Hlen3. cbn [List.length] in Hlen3.
    repeat split.
    + cbn [copy_tables_items].
      run (load_tables_at a h d Hd). run Hrun1.
      run (eq_refl : alloc (OTables to) h1 = (Ok (List.length h1), _)).
      run Hrun2. reflexivity.
    + eapply extends_trans; [exact Hext1 |].
      eapply extends_trans; eassumption.
    + constructor; [| exact Hshape]. split; [reflexivity |].
      cbn [snd fst]. split.
      * apply Hext3, alloc_at.
      * apply (dict_rel_impl (is_regions h1)); [| exact Hto].
        intros la l _ Hl. apply Hext3, Hext2, Hl.
    + unfold table_addrs. cbn [map fst snd]. constructor; [| exact Htnd].
      intros Hin. rewrite Forall_forall in Htr. specialize (Htr _ Hin).
      unfold in_range in Htr. lia.
    + unfold list_addrs. cbn [flat_map fst snd].
      apply (ranges_disjoint (List.length h) (List.length h1)
               (List.length h2)); auto.
      eapply in_range_mono; [| | exact Hlr]; lia.
    + unfold table_addrs. cbn [map fst snd]. constructor.
      * unfold in_range. lia.
      * eapply in_range_mono; [| | exact Htr]; lia.
    + unfold list_addrs. cbn [flat_map fst snd]. apply Forall_app. split.
      * eapply in_range_mono; [| | exact Hrng1]; lia.
      * eapply in_range_mono; [| | exact Hlr]; lia.
Qed.

(** The planner on the store returns what the planner on values returns,
    for the values the store holds behind the two references. *)
Theorem compute_balance_plan_refines (hot_table : string) (ca ra : addr)
    (h h0 : heap) (c : counts_t) (ri : region_info_t) (r : regions_t) :
  read_snapshot ca ra h = (Ok (c, r), h0) ->
  exists h',
    Heap.compute_balance_plan hot_table ca ra h =
    (Planner.compute_balance_plan hot_table c ri r, h').
Proof.
  intros Hread. unfold read_snapshot in Hread.
  apply mbind_inv in Hread as (c' & h1 & Hc & Hread).
  apply mbind_inv in Hread as (r' & h2 & Hr & Hread).
  injection Hread as -> -> ->.
  unfold read_counts in Hc. apply mbind_inv in Hc as (oc & h3 & Hoc & Hc).
  apply load_servers_inv in Hoc as [-> Hoc].
  apply read_counts_items_rel in Hc as [-> Hc].
  unfold read_regions in Hr. apply mbind_inv in Hr as (orr & h3 & Hor & Hr).
  apply load_servers_inv in Hor as [-> Hor].
  apply read_tables_items_rel in Hr as [_ Hr].
  unfold Heap.compute_balance_plan, Planner.compute_balance_plan.
  run (load_servers_at ca h oc Hoc).
  rewrite (dict_rel_keys _ _ _ Hc).
  destruct (keys c) as [| s0 servers] eqn:Ekeys; [exists h; reflexivity |].
  rewrite <- Ekeys. clear s0 servers Ekeys.
  (* the two copies *)
  destruct (copy_counts_items_spec oc h c Hc)
    as (co & h1 & Hrun1 & Hext1 & Hco & Hcnd & _).
  set (stc := List.length h1).
  set (h2 := (h1 ++ [OServers co])%list).
  assert (Hcopy1 : copy_counts ca h = (Ok stc, h2)).
  { unfold copy_counts. run (load_servers_at ca h oc Hoc). run Hrun1.
    reflexivity. }
  assert (Hext2 : extends h h2).
  { eapply extends_trans; [exact Hext1 | apply extends_app]. }
  destruct (copy_tables_items_spec orr h2 r)
    as (shape & h3 & Hrun3 & Hext3 & Hshape & Htnd & Hlnd & _ & _).
  { apply (dict_rel_impl (has_tables h)); [| exact Hr].
    intros a0 d0 _ H0. eapply has_tables_extends; eassumption. }
  set (str := List.length h3).
  set (h4 := (h3 ++ [OServers (outer_of shape)])%list).
  assert (Hcopy2 : copy_regions ra h2 = (Ok str, h4)).
  { unfold copy_regions. run (load_servers_at ra h2 orr (Hext2 _ _ Hor)).
    run Hrun3. reflexivity. }
  assert (Hext4 : extends h2 h4).
  { eapply extends_trans; [exact Hext3 | apply extends_app]. }
  assert (Hext : extends h h4) by (eapply extends_trans; eassumption).
  run Hcopy1. run Hcopy2.
  assert (Hc4 : read_counts ca h4 = (Ok c, h4)).
  { unfold read_counts. run (load_servers_at ca h4 oc (Hext _ _ Hoc)).
    apply read_counts_items_at.
    apply (dict_rel_impl (is_counts h)); [| exact Hc].
    intros a0 d0 _ H0. apply Hext, H0. }
  run Hc4.
  assert (Hholds : holds h4 stc str (State c r)).
  { exists co, shape. cbn [Planner.stc Planner.str_regions]. repeat split.
    - apply Hext4. unfold stc, h2. apply alloc_at.
    - apply (dict_rel_impl (is_counts h1)); [| exact Hco].
      intros a0 d0 _ H0. apply Hext4. unfold h2. apply extends_app, H0.
    - exact Hcnd.
    - unfold str, h4. apply alloc_at.
    - apply (dict_rel_impl (is_tables h3)); [| exact Hshape].
      intros x tables _. apply is_tables_extends. apply extends_app.
    - exact Htnd.
    - exact Hlnd. }
  destruct (plan_loop_ref hot_table (table_avg_get c hot_table)
              (table_avg_get c) stc str max_iterations (keys c) h4 (State c r)
              [] Hholds) as (h5 & Hloop).
  exists h5. rewrite Hloop. unfold run_planner.
  destruct (Planner.plan_loop hot_table (table_avg_get c hot_table)
              (table_avg_get c) max_iterations (keys c) (State c r) [])
    as [[plan st] | e]; reflexivity.
Qed.

End RefinementFacts.

(** ** Properties of [main], of the exporter and of the working copy *)

Module RunProps.
Import Planner Exporter Main Notions Scenarios PyFacts UpdateFacts SearchFacts.
Import PairingFacts SwapFacts LoopFacts SnapshotFacts HeapFacts.

Local Open Scope string_scope.

Lemma write_pairs_cons (hot_table : string)
    (server_fullname : server_fullname_t) (k : nat) (sw : swap)
    (rest : list swap) :
  write_pairs hot_table server_fullname k (sw :: rest) =
  (write_pair hot_table server_fullname k sw
   ++ write_pairs hot_table server_fullname (S k) rest)%list.
Proof. reflexivity. Qed.

Lemma length_write_pair (hot_table : string)
    (server_fullname : server_fullname_t) (k : nat) (sw : swap) :
  List.length (write_pair hot_table server_fullname k sw) = 4%nat.
Proof. reflexivity. Qed.

Lemma nth_write_pairs (hot_table : string) (server_fullname : server_fullname_t)
    (swap_plan : list swap) (k i j : nat) (sw : swap) :
  nth_error swap_plan i = Some sw -> (j < 4)%nat ->
  nth_error (write_pairs hot_table server_fullname k swap_plan) (4 * i + j) =
  nth_error (write_pair hot_table server_fullname (k + i) sw) j.
Proof.
  revert k i. induction swap_plan as [| sw0 rest IH]; intros k i Hnth Hj.
  - destruct i; discriminate.
  - rewrite write_pairs_cons. destruct i as [| i]; simpl in Hnth.
    + injection Hnth as ->. rewrite Nat.add_0_r.
      replace (4 * 0 + j)%nat with j by lia.
      apply nth_error_app1. rewrite length_write_pair. exact Hj.
    + rewrite nth_error_app2 by (rewrite length_write_pair; lia).
      rewrite length_write_pair.
      replace (4 * S i + j - 4)%nat with (4 * i + j)%nat by lia.
      rewrite (IH (S k) i Hnth Hj). f_equal. f_equal. lia.
Qed.

(** C9.  For the swap at any position of the plan, the file holds, in its
    block, the directive [move 'region', 'server'] (and a line feed) moving
    the hot region to the receiver and the one moving the cold region to
    the donor; each server is written as its full identity when the mapping
    has the host, and as the host itself when it has not. *)
Theorem unresolved_host_passes_through (swap_plan : list swap)
    (output_file hot_table : string) (server_fullname : server_fullname_t)
    (i : nat) (sw : swap) :
  nth_error swap_plan i = Some sw ->
  let f := generate_plan swap_plan output_file hot_table server_fullname in
  let dest host :=
    match dict_get server_fullname host with
    | Some full => full
    | None => host
    end in
  let line_feed := String "010"%char EmptyString in
  nth_error (writes f) (4 + 4 * i + 1)
  = Some ("move '" ++ hot_region sw ++ "', '" ++ dest (target sw) ++ "'"
          ++ line_feed)
  /\ nth_error (writes f) (4 + 4 * i + 2)
     = Some ("move '" ++ cold_region sw ++ "', '" ++ dest (source sw) ++ "'"
             ++ line_feed).
Proof.
  intros Hnth f dest line_feed. unfold f, generate_plan. simpl writes.
  assert (H : forall j line,
             (j < 4)%nat ->
             nth_error (write_pair hot_table server_fullname (1 + i) sw) j
             = Some line ->
             nth_error
               (write_pairs hot_table server_fullname 1 swap_plan ++ [footer])
               (4 * i + j) = Some line).
  { intros j line Hj Hline.
    rewrite <- (nth_write_pairs _ _ _ _ _ _ _ Hnth Hj) in Hline.
    rewrite nth_error_app1; [exact Hline |].
    apply nth_error_Some. congruence. }
  split.
  - change (4 + 4 * i + 1)%nat with (S (S (S (S (4 * i + 1))))).
    simpl nth_error at 1. apply H; [lia | reflexivity].
  - change (4 + 4 * i + 2)%nat with (S (S (S (S (4 * i + 2))))).
    simpl nth_error at 1. apply H; [lia | reflexivity].
Qed.



(** *** The theorems at concrete inputs *)

Lemma unresolved_host_passes_through_witness :
  nth_error
    (writes (generate_plan plan_A "move_plan.rb" "hot" fullname_S1)) 5
  = Some ("move 'S1-hot-0', 'S2'" ++ String "010"%char EmptyString)
  /\ nth_error
       (writes (generate_plan plan_A "move_plan.rb" "hot" fullname_S1)) 6
     = Some ("move 'S2-a-0', 'S1,16020,1740626070375'"
             ++ String "010"%char EmptyString).
Proof.
  exact (unresolved_host_passes_through plan_A "move_plan.rb" "hot"
           fullname_S1 0 (Swap "S1-hot-0" "S2-a-0" "a" "S1" "S2") eq_refl).
Defined.


(** *** Remarks *)

(** On scenario A the planner on the store returns the plan of the planner
    on values, after allocating the working copy behind the snapshot. *)
Example store_run_A :
  fst (Heap.compute_balance_plan "hot" (fst refs_A) (snd refs_A) store_A)
  = Ok plan_A
  /\ List.length store_A = 14%nat
  /\ List.length
       (snd (Heap.compute_balance_plan "hot" (fst refs_A) (snd refs_A)
               store_A)) = 29%nat.
Proof. vm_compute. repeat split; reflexivity. Qed.

(** The same on scenario E, where the run stops at the cap. *)
Example store_run_E :
  match new_snapshot (counts_of_facts scenario_E) (regions_of_facts scenario_E)
          [] with
  | (Ok (ca, ra), h) =>
      fst (Heap.compute_balance_plan "hot" ca ra h)
      = compute_balance_plan "hot" (counts_of_facts scenario_E) []
          (regions_of_facts scenario_E)
  | (Raise _, _) => False
  end.
Proof. vm_compute. reflexivity. Qed.

(** Scenario D: the hot table is not in the dump. *)
Example scenario_D :
  main (Args "missing" "move_plan.rb" false) scenario_A
  = Ok (Outcome 1 (Some "Error: Table 'missing' not found in meta dump")
          None None).
Proof. vm_compute. reflexivity. Qed.

End RunProps.

(** ** More about the planner *)

Module PlanFacts.
Import Planner Main Notions Measures PyFacts UpdateFacts SearchFacts.
Import PairingFacts SwapFacts LoopFacts SnapshotFacts.

Section Run.
Variable hot_table : string.
Variable hot_avg : Q.
Variable t_avg_of : string -> Q.
Variable servers : list string.

Local Notation "'steps''" := (steps hot_table hot_avg t_avg_of servers).
Local Notation "'find_swap''" :=
  (find_swap hot_table hot_avg t_avg_of servers).
Local Notation "'plan_loop''" :=
  (plan_loop hot_table hot_avg t_avg_of).

Lemma steps_state_ok (st st' : state) (sws : list swap) :
  steps' st sws st' -> state_ok servers st -> state_ok servers st'.
Proof.
  induction 1 as [st | st st1 st2 sw sws Hfind Happly _ IH]; intros Hok.
  - exact Hok.
  - destruct (step_ok hot_table hot_avg t_avg_of servers st sw Hok Hfind)
      as (st1' & Happly' & Hok1).
    rewrite Happly in Happly'. injection Happly' as <-. now apply IH.
Qed.

(** The loop with exactly as many iterations as there are steps. *)
Lemma steps_plan_loop (st st' : state) (sws : list swap) :
  steps' st sws st' ->
  forall acc,
    plan_loop' (List.length sws) servers st acc = Ok ((acc ++ sws)%list, st').
Proof.
  induction 1 as [st | st st1 st2 sw sws Hfind Happly _ IH]; intros acc.
  - simpl. now rewrite app_nil_r.
  - cbn [List.length].
    rewrite (plan_loop_continue _ _ _ _ _ _ _ _ Hfind), Happly. cbn [bind].
    rewrite IH, <- app_assoc. reflexivity.
Qed.

(** The loop left before its iterations ran out stopped on a [break]. *)
Lemma plan_loop_stops (fuel : nat) :
  forall (st st' : state) (acc plan : list swap),
  plan_loop' fuel servers st acc = Ok (plan, st') ->
  (List.length plan < List.length acc + fuel)%nat ->
  find_swap' st' = Ok None.
Proof.
  induction fuel as [| fuel IH]; intros st st' acc plan Hrun Hlen.
  - injection Hrun as <- <-. lia.
  - cbn [plan_loop] in Hrun.
    destruct (find_swap' st) as [[sw |] | e] eqn:Hfind; cbn [bind] in Hrun.
    + destruct (apply_swap hot_table st sw) as [st1 | e] eqn:Happly;
        cbn [bind] in Hrun; [| discriminate].
      apply (IH _ _ _ _ Hrun). rewrite length_app. simpl. lia.
    + injection Hrun as <- <-. exact Hfind.
    + discriminate.
Qed.

Lemma steps_nth_keys (st st' : state) (sws : list swap) (i : nat) (sw : swap) :
  steps' st sws st' -> nth_error sws i = Some sw ->
  exists sa sb,
    steps' st (firstn i sws) sa
    /\ find_swap' sa = Ok (Some sw)
    /\ apply_swap hot_table sa sw = Ok sb
    /\ keys (stc sa) = keys (stc st).
Proof.
  intros Hsteps Hnth.
  destruct (steps_nth _ _ _ _ _ _ _ Hsteps i sw Hnth)
    as (sa & sb & Hpre & Hfind & Happly & _).
  exists sa, sb. repeat split; auto.
  eapply steps_keys, Hpre.
Qed.
End Run.

(** The swap at a position of the returned plan, in the iteration that
    found it. *)
Lemma plan_nth (hot_table : string) (c : counts_t) (ri : region_info_t)
    (r : regions_t) (plan : list swap) (i : nat) (sw : swap) :
  compute_balance_plan hot_table c ri r = Ok plan ->
  nth_error plan i = Some sw ->
  exists sa sb,
    steps hot_table (table_avg_get c hot_table) (table_avg_get c) (keys c)
      (State c r) (firstn i plan) sa
    /\ find_swap hot_table (table_avg_get c hot_table) (table_avg_get c)
         (keys c) sa = Ok (Some sw)
    /\ apply_swap hot_table sa sw = Ok sb
    /\ keys (stc sa) = keys c.
Proof.
  intros Hplan Hnth.
  destruct (compute_balance_plan_run _ _ _ _ _ Hplan) as [-> | (st' & Hrun)].
  - destruct i; discriminate.
  - apply run_planner_steps in Hrun as [Hsteps _].
    exact (steps_nth_keys _ _ _ _ _ _ _ _ _ Hsteps Hnth).
Qed.

Lemma plan_endpoints (hot_table : string) (c : counts_t) (ri : region_info_t)
    (r : regions_t) (plan : list swap) (sw : swap) :
  compute_balance_plan hot_table c ri r = Ok plan -> In sw plan ->
  In (source sw) (keys c) /\ In (target sw) (keys c)
  /\ source sw <> target sw /\ cold_table sw <> hot_table.
Proof.
  intros Hplan Hin. apply In_nth_error in Hin as (i & Hnth).
  destruct (plan_nth _ _ _ _ _ _ _ Hplan Hnth)
    as (sa & sb & _ & Hfind & _ & Hkeys).
  apply find_swap_facts in Hfind
    as (Hs & Hover & Ht & Hunder & Hcold & _ & _).
  2:{ rewrite Hkeys. apply incl_refl. }
  repeat split; auto.
  intros Heq. rewrite Heq in Hover.
  apply (Qlt_irrefl (table_avg_get c hot_table)).
  eapply Qlt_trans; eassumption.
Qed.

(** The working copy a run leaves, and the replay of its plan. *)
Lemma plan_final (hot_table : string) (c : counts_t) (ri : region_info_t)
    (r : regions_t) (plan : list swap) :
  compute_balance_plan hot_table c ri r = Ok plan -> c <> [] ->
  exists st',
    run_planner max_iterations hot_table c r = Ok (plan, st')
    /\ steps hot_table (table_avg_get c hot_table) (table_avg_get c) (keys c)
         (State c r) plan st'
    /\ simulate hot_table plan c = Ok (stc st').
Proof.
  intros Hplan Hne.
  assert (Hrun : bind (run_planner max_iterations hot_table c r)
                   (fun p => Ok (fst p)) = Ok plan).
  { unfold compute_balance_plan in Hplan.
    destruct (keys c) as [| s0 rest] eqn:Ekeys.
    - destruct c; [congruence | discriminate].
    - destruct (run_planner max_iterations hot_table c r) as [[p st'] | e];
        exact Hplan. }
  destruct (run_planner max_iterations hot_table c r) as [[p st'] | e] eqn:E;
    cbn [bind fst] in Hrun; [| discriminate].
  injection Hrun as ->. exists st'. split; [reflexivity |].
  apply run_planner_steps in E as [Hsteps _].
  split; [exact Hsteps |].
  exact (steps_simulate _ _ _ _ _ _ _ Hsteps).
Qed.

(** The swap at a position of the plan moves the first hot region listed on
    its source and the first region listed for the cold table on its
    target, in the working copy the earlier swaps leave. *)
Lemma plan_hosted (hot_table : string) (c : counts_t) (ri : region_info_t)
    (r : regions_t) (plan : list swap) (i : nat) (sw : swap) :
  snapshot_wf c r ->
  compute_balance_plan hot_table c ri r = Ok plan ->
  nth_error plan i = Some sw ->
  exists st,
    run_planner i hot_table c r = Ok (firstn i plan, st)
    /\ (exists rest,
          regions_of (str_regions st) (source sw) hot_table
          = hot_region sw :: rest)
    /\ (exists regs,
          regions_of (str_regions st) (target sw) (cold_table sw)
          = cold_region sw :: regs).
Proof.
  intros [Hwf Hagree] Hplan Hnth.
  destruct (plan_nth _ _ _ _ _ _ _ Hplan Hnth)
    as (sa & sb & Hpre & Hfind & _ & Hkeys).
  assert (Hok : state_ok (keys c) sa).
  { apply (steps_state_ok _ _ _ _ _ _ _ Hpre).
    repeat split; [apply incl_refl | exact Hwf | exact Hagree]. }
  apply find_swap_facts in Hfind
    as (_ & _ & _ & _ & _ & Hhot & (regs & Hcold)); [| apply Hok].
  exists sa. split; [| split].
  - unfold run_planner.
    pose proof (steps_plan_loop _ _ _ _ _ _ _ Hpre []) as Hloop.
    rewrite length_firstn, Nat.min_l in Hloop; [exact Hloop |].
    apply Nat.lt_le_incl, nth_error_Some. congruence.
  - exact Hhot.
  - exists regs. apply listed_regions; [apply Hok | exact Hcold].
Qed.



(** *** The regions a server hosts, over all tables *)

Lemma sum_values_new (d : dict Z) (k : string) (v : Z) :
  dict_get d k = None -> sum (values (dict_set d k v)) = sum (values d) + v.
Proof.
  unfold values. induction d as [| [k0 v0] d IH]; simpl; [lia |].
  destruct (String.eqb k0 k); [discriminate |]. intros H. simpl.
  rewrite (IH H). lia.
Qed.

Lemma sum_values_over (d : dict Z) (k : string) (v v' : Z) :
  dict_get d k = Some v' ->
  sum (values (dict_set d k v)) = sum (values d) - v' + v.
Proof.
  intros H. pose proof (sum_values_set (fun x => x) d k v v' H) as Hs.
  now rewrite !map_id in Hs.
Qed.

Lemma server_total_set (c : counts_t) (s s' : string) (inner : dict Z) :
  server_total (dict_set c s inner) s' =
  if String.eqb s s' then sum (values inner) else server_total c s'.
Proof.
  unfold server_total, dict_get_default. rewrite dict_get_set.
  destruct (String.eqb s s'); reflexivity.
Qed.

Lemma server_total_at (c : counts_t) (s : string) (inner : dict Z) :
  dict_get c s = Some inner -> server_total c s = sum (values inner).
Proof. intros H. unfold server_total, dict_get_default. now rewrite H. Qed.

Lemma decr_server_total (c c' : counts_t) (s t : string) :
  decr c s t = Ok c' ->
  forall s', server_total c' s' =
             server_total c s' - (if String.eqb s s' then 1 else 0).
Proof.
  intros H s'. apply decr_inv in H as (inner & v & H1 & H2 & ->).
  rewrite server_total_set. destruct (String.eqb s s') eqn:E; [| lia].
  apply String.eqb_eq in E. subst s'.
  rewrite (server_total_at _ _ _ H1), (sum_values_over _ _ _ _ H2). lia.
Qed.

Lemma incr_server_total (c c' : counts_t) (s t : string) :
  incr c s t = Ok c' ->
  forall s', server_total c' s' =
             server_total c s' + (if String.eqb s s' then 1 else 0).
Proof.
  intros H s'. apply incr_inv in H as (inner & H1 & ->).
  rewrite server_total_set. destruct (String.eqb s s') eqn:E; [| lia].
  apply String.eqb_eq in E. subst s'.
  rewrite (server_total_at _ _ _ H1). unfold dict_get_default.
  destruct (dict_get inner t) as [v |] eqn:Et.
  - rewrite (sum_values_over _ _ _ _ Et). lia.
  - rewrite (sum_values_new _ _ _ Et). lia.
Qed.

Lemma replay_swap_server_total (hot_table : string) (c c' : counts_t)
    (sw : swap) :
  replay_swap hot_table c sw = Ok c' ->
  forall s, server_total c' s = server_total c s.
Proof.
  unfold replay_swap. intros H s.
  inv_bind H. inv_bind H.
  inv_bind H.
  rewrite (incr_server_total _ _ _ _ H), (decr_server_total _ _ _ _ E1),
    (incr_server_total _ _ _ _ E0), (decr_server_total _ _ _ _ E).
  destruct (String.eqb (source sw) s), (String.eqb (target sw) s); lia.
Qed.

Lemma simulate_server_total (hot_table : string) (sws : list swap) :
  forall c c', simulate hot_table sws c = Ok c' ->
  forall s, server_total c' s = server_total c s.
Proof.
  induction sws as [| sw sws IH]; intros c c' H s.
  - injection H as <-. reflexivity.
  - cbn [simulate] in H. inv_bind H.
    rewrite (IH _ _ H). eapply replay_swap_server_total, E.
Qed.

(** Every prefix of the returned plan replays. *)
Lemma plan_prefix_replays (hot_table : string) (c : counts_t)
    (ri : region_info_t) (r : regions_t) (plan : list swap) (n : nat) :
  compute_balance_plan hot_table c ri r = Ok plan ->
  exists c', simulate hot_table (firstn n plan) c = Ok c'.
Proof.
  intros Hplan.
  destruct (compute_balance_plan_run _ _ _ _ _ Hplan) as [-> | (st' & Hrun)].
  - exists c. now rewrite firstn_nil.
  - apply run_planner_steps in Hrun as [Hsteps _].
    destruct (steps_firstn _ _ _ _ _ _ _ Hsteps n) as (sn & Hn).
    exists (stc sn). exact (steps_simulate _ _ _ _ _ _ _ Hn).
Qed.

(** *** A whole hot average *)

Lemma sum_map_drop {A : Type} (f g : A -> Z) (l : list A) (x : A) :
  (forall y, g y <= f y) -> In x l -> g x <= f x - 1 ->
  sum (map g l) <= sum (map f l) - 1.
Proof.
  intros Hle Hin Hx. induction l as [| y l IH]; [destruct Hin |].
  simpl. destruct Hin as [-> | Hin].
  - assert (sum (map g l) <= sum (map f l)).
    { clear - Hle. induction l as [| z l IH]; simpl; [lia |].
      specialize (Hle z). lia. }
    lia.
  - specialize (IH Hin). specialize (Hle y). lia.
Qed.

Lemma sum_map_nonneg {A : Type} (f : A -> Z) (l : list A) :
  (forall y, 0 <= f y) -> 0 <= sum (map f l).
Proof.
  intros H. induction l as [| y l IH]; simpl; [lia |].
  specialize (H y). lia.
Qed.

Section Whole.
Variable hot_table : string.
Variable hot_avg : Q.
Variable t_avg_of : string -> Q.
Variable servers : list string.
Variable a : Z.
Hypothesis Hwhole : (hot_avg == inject_Z a)%Q.

Local Notation "'over''" :=
  (fun c => sum (map (fun s => Z.max 0 (count_of c s hot_table - a)) servers)).

Lemma step_over (st st1 : state) (sw : swap) :
  incl servers (keys (stc st)) ->
  find_swap hot_table hot_avg t_avg_of servers st = Ok (Some sw) ->
  apply_swap hot_table st sw = Ok st1 ->
  over' (stc st1) <= over' (stc st) - 1.
Proof.
  intros Hincl Hfind Happly.
  apply find_swap_facts in Hfind
    as (Hs & Hover & _ & Hunder & Hcold & _ & _); [| exact Hincl].
  rewrite Hwhole in Hover, Hunder.
  rewrite <- Zlt_Qlt in Hover, Hunder.
  apply apply_swap_stc in Happly.
  pose proof (replay_swap_count _ _ _ _ Happly) as Hcount.
  assert (Hc : forall s,
             count_of (stc st1) s hot_table =
             count_of (stc st) s hot_table
             - hits (source sw) hot_table s hot_table
             + hits (target sw) hot_table s hot_table).
  { intros s. rewrite Hcount.
    rewrite (hits_other_table (target sw) (cold_table sw) s hot_table Hcold),
      (hits_other_table (source sw) (cold_table sw) s hot_table Hcold).
    lia. }
  apply sum_map_drop with (x := source sw); [| exact Hs |].
  - intros s. rewrite Hc. unfold hits. rewrite String.eqb_refl, !andb_true_r.
    destruct (String.eqb (source sw) s) eqn:E1,
      (String.eqb (target sw) s) eqn:E2;
      try apply String.eqb_eq in E1; try apply String.eqb_eq in E2;
      subst; lia.
  - rewrite Hc. rewrite hits_same.
    rewrite hits_other_server; [lia |].
    intros Heq. rewrite Heq in Hunder. lia.
Qed.

Lemma steps_over (st st' : state) (sws : list swap) :
  steps hot_table hot_avg t_avg_of servers st sws st' ->
  incl servers (keys (stc st)) ->
  Z.of_nat (List.length sws) <= over' (stc st) - over' (stc st').
Proof.
  induction 1 as [st | st st1 st2 sw sws Hfind Happly _ IH]; intros Hincl.
  - simpl. lia.
  - pose proof (step_over _ _ _ Hincl Hfind Happly) as Hstep.
    assert (Hincl1 : incl servers (keys (stc st1))).
    { now rewrite (apply_swap_keys _ _ _ _ Happly). }
    specialize (IH Hincl1). cbn [List.length]. cbv beta in Hstep, IH |- *.
    lia.
Qed.
End Whole.


(** *** The listings of a region *)

Lemma list_remove_count (x y : string) (l l' : list string) :
  list_remove x l = Ok l' ->
  Z.of_nat (count_occ string_dec l y) =
  Z.of_nat (count_occ string_dec l' y) + (if String.eqb x y then 1 else 0).
Proof.
  revert l'. induction l as [| z l IH]; intros l' H; [discriminate |].
  cbn [list_remove] in H. destruct (String.eqb z x) eqn:E.
  - injection H as <-. apply String.eqb_eq in E. subst z.
    cbn [count_occ]. destruct (string_dec x y) as [-> | Hne].
    + rewrite String.eqb_refl. lia.
    + apply String.eqb_neq in Hne. rewrite Hne. lia.
  - inv_bind H. injection H as <-. specialize (IH _ E0).
    cbn [count_occ]. destruct (string_dec z y); lia.
Qed.

Lemma count_occ_snoc (x y : string) (l : list string) :
  Z.of_nat (count_occ string_dec (l ++ [x]) y) =
  Z.of_nat (count_occ string_dec l y) + (if String.eqb x y then 1 else 0).
Proof.
  rewrite count_occ_app. cbn [count_occ].
  destruct (string_dec x y) as [-> | Hne].
  - rewrite String.eqb_refl. lia.
  - apply String.eqb_neq in Hne. rewrite Hne. lia.
Qed.

Lemma sum_map_bump (f g : string -> Z) (l : list string) (x : string)
    (d : Z) :
  NoDup l -> In x l -> g x = f x + d -> (forall y, y <> x -> g y = f y) ->
  sum (map g l) = sum (map f l) + d.
Proof.
  intros Hnd Hin Hx Hother. induction l as [| y l IH]; [destruct Hin |].
  inversion Hnd as [| ? ? Hnotin Hnd']; subst. simpl.
  destruct Hin as [-> | Hin].
  - rewrite Hx.
    assert (map g l = map f l) as ->; [| lia].
    apply map_ext_in. intros z Hz. apply Hother. intros ->. contradiction.
  - rewrite (IH Hnd' Hin), Hother; [lia |]. intros ->. contradiction.
Qed.

Lemma remove_region_inv (r r' : regions_t) (s t x : string) :
  remove_region r s t x = Ok r' ->
  exists inner l l',
    dict_get r s = Some inner /\ dict_get inner t = Some l
    /\ list_remove x l = Ok l'
    /\ r' = dict_set r s (dict_set inner t l').
Proof.
  unfold remove_region, dict_item. intros H.
  destruct (dict_get r s) as [inner |] eqn:Es; [| discriminate].
  cbn [bind] in H.
  destruct (dict_get inner t) as [l |] eqn:Et; [| discriminate].
  cbn [bind] in H.
  destruct (list_remove x l) as [l' |] eqn:E; [| discriminate].
  injection H as <-. exists inner, l, l'. auto.
Qed.

Lemma remove_region_copies (r r' : regions_t) (s t x : string) :
  dict_wf r -> remove_region r s t x = Ok r' ->
  dict_wf r'
  /\ forall t' y,
       region_copies r' t' y =
       region_copies r t' y
       - (if String.eqb t t' && String.eqb x y then 1 else 0).
Proof.
  intros Hwf H.
  apply remove_region_inv in H as (inner & l & l' & Hs & Ht & Hrem & ->).
  pose proof (keys_dict_set_present r s (dict_set inner t l') inner Hs) as Hk.
  split; [unfold dict_wf; now rewrite Hk |].
  intros t' y. unfold region_copies. rewrite Hk.
  assert (Hreg : forall s' t0,
             regions_of (dict_set r s (dict_set inner t l')) s' t0 =
             if String.eqb s s' && String.eqb t t0 then l'
             else regions_of r s' t0).
  { intros s' t0. unfold regions_of. now apply get2_set2. }
  destruct (String.eqb t t') eqn:Et; cbn [andb].
  - apply String.eqb_eq in Et. subst t'.
    replace (sum (map (fun s0 => Z.of_nat (count_occ string_dec
                                             (regions_of r s0 t) y)) (keys r))
             - (if String.eqb x y then 1 else 0))
      with (sum (map (fun s0 => Z.of_nat (count_occ string_dec
                                            (regions_of r s0 t) y)) (keys r))
            + - (if String.eqb x y then 1 else 0)) by lia.
    apply sum_map_bump with (x := s).
    + exact Hwf.
    + eapply dict_get_some_In, Hs.
    + rewrite Hreg, !String.eqb_refl. cbn [andb].
      unfold regions_of. rewrite (get2_item _ _ _ _ _ [] Hs Ht).
      pose proof (list_remove_count x y l l' Hrem). lia.
    + intros s' Hne. rewrite Hreg.
      assert (String.eqb s s' = false) as ->
        by (apply String.eqb_neq; congruence).
      reflexivity.
  - assert (map (fun s0 => Z.of_nat
                   (count_occ string_dec
                      (regions_of (dict_set r s (dict_set inner t l')) s0 t')
                      y)) (keys r)
            = map (fun s0 => Z.of_nat
                     (count_occ string_dec (regions_of r s0 t') y)) (keys r))
      as ->; [| lia].
    apply map_ext. intros s'. rewrite Hreg, Et, andb_false_r. reflexivity.
Qed.

Lemma append_region_copies (r r' : regions_t) (s t x : string) :
  dict_wf r -> append_region r s t x = Ok r' ->
  dict_wf r'
  /\ forall t' y,
       region_copies r' t' y =
       region_copies r t' y
       + (if String.eqb t t' && String.eqb x y then 1 else 0).
Proof.
  intros Hwf H.
  assert (Hin : In s (keys r)).
  { unfold append_region, dict_item in H.
    destruct (dict_get r s) eqn:E; [| discriminate].
    eapply dict_get_some_In, E. }
  destruct (append_region_spec r s t x Hin) as (r1 & Hrun & Hreg & _ & Hk).
  rewrite H in Hrun. injection Hrun as <-.
  split; [unfold dict_wf; now rewrite Hk |].
  intros t' y. unfold region_copies. rewrite Hk.
  destruct (String.eqb t t') eqn:Et; cbn [andb].
  - apply String.eqb_eq in Et. subst t'.
    apply sum_map_bump with (x := s); auto.
    + rewrite Hreg. unfold hit. rewrite !String.eqb_refl. cbn [andb].
      apply count_occ_snoc.
    + intros s' Hne. rewrite Hreg. unfold hit.
      assert (String.eqb s s' = false) as ->
        by (apply String.eqb_neq; congruence).
      reflexivity.
  - assert (map (fun s0 => Z.of_nat
                   (count_occ string_dec (regions_of r' s0 t') y)) (keys r)
            = map (fun s0 => Z.of_nat
                     (count_occ string_dec (regions_of r s0 t') y)) (keys r))
      as ->; [| lia].
    apply map_ext. intros s'. rewrite Hreg. unfold hit.
    rewrite Et, andb_false_r. reflexivity.
Qed.

Lemma apply_swap_copies (hot_table : string) (st st' : state) (sw : swap) :
  dict_wf (str_regions st) -> apply_swap hot_table st sw = Ok st' ->
  dict_wf (str_regions st')
  /\ forall t x,
       region_copies (str_regions st') t x = region_copies (str_regions st) t x.
Proof.
  intros Hwf H. unfold apply_swap in H.
  inv_bind H. inv_bind H. inv_bind H. inv_bind H.
  inv_bind H. inv_bind H. inv_bind H. inv_bind H.
  injection H as <-. cbn [str_regions].
  destruct (remove_region_copies _ _ _ _ _ Hwf E1) as [Hwf1 H1].
  destruct (append_region_copies _ _ _ _ _ Hwf1 E2) as [Hwf2 H2].
  destruct (remove_region_copies _ _ _ _ _ Hwf2 E5) as [Hwf3 H3].
  destruct (append_region_copies _ _ _ _ _ Hwf3 E6) as [Hwf4 H4].
  split; [exact Hwf4 |].
  intros t x. rewrite H4, H3, H2, H1. lia.
Qed.

Lemma steps_copies (hot_table : string) (hot_avg : Q)
    (t_avg_of : string -> Q) (servers : list string) (st st' : state)
    (sws : list swap) :
  steps hot_table hot_avg t_avg_of servers st sws st' ->
  dict_wf (str_regions st) ->
  forall t x,
    region_copies (str_regions st') t x = region_copies (str_regions st) t x.
Proof.
  induction 1 as [st | st st1 st2 sw sws Hfind Happly _ IH]; intros Hwf t x.
  - reflexivity.
  - destruct (apply_swap_copies _ _ _ _ Hwf Happly) as [Hwf1 H1].
    rewrite (IH Hwf1), H1. reflexivity.
Qed.

(** *** Servers over and under the average *)

Lemma count_of_head (c : counts_t) (k : string) (v : dict Z) (t : string) :
  count_of ((k, v) :: c) k t = dict_get_default v t 0.
Proof.
  unfold count_of, get2, dict_get_default. cbn [dict_get].
  now rewrite String.eqb_refl.
Qed.

Lemma count_of_tail (c : counts_t) (k s : string) (v : dict Z) (t : string) :
  s <> k -> count_of ((k, v) :: c) s t = count_of c s t.
Proof.
  intros Hne. unfold count_of, get2, dict_get_default at 2 4.
  cbn [dict_get].
  assert (String.eqb k s = false) as -> by (apply String.eqb_neq; congruence).
  reflexivity.
Qed.

Lemma sum_counts_total (c : counts_t) (t : string) :
  dict_wf c -> sum (map (fun s => count_of c s t) (keys c)) = table_total c t.
Proof.
  unfold dict_wf.
  induction c as [| [k v] c IH]; intros Hnd; [reflexivity |].
  inversion Hnd as [| ? ? Hnotin Hnd']; subst.
  change (count_of ((k, v) :: c) k t
          + sum (map (fun s => count_of ((k, v) :: c) s t) (keys c))
          = dict_get_default v t 0 + table_total c t).
  rewrite count_of_head, <- (IH Hnd'). f_equal. f_equal.
  apply map_ext_in.
  intros s Hs. apply count_of_tail. intros ->. contradiction.
Qed.

Lemma sum_zero_all {A : Type} (f : A -> Z) (l : list A) :
  (forall y, In y l -> 0 <= f y) -> sum (map f l) = 0 ->
  forall y, In y l -> f y = 0.
Proof.
  induction l as [| z l IH]; intros Hnn Hsum y Hin; [destruct Hin |].
  simpl in Hsum.
  assert (0 <= sum (map f l)).
  { clear - Hnn. induction l as [| w l IH]; simpl; [lia |].
    assert (0 <= f w) by (apply Hnn; right; now left).
    assert (0 <= sum (map f l)); [| lia].
    apply IH. intros y [-> | Hy]; apply Hnn; [now left | right; now right]. }
  assert (0 <= f z) by (apply Hnn; now left).
  destruct Hin as [-> | Hin]; [lia |].
  apply IH; auto; [| lia]. intros w Hw. apply Hnn. now right.
Qed.

Lemma sum_map_scale {A : Type} (f : A -> Z) (l : list A) (n T : Z) :
  sum (map (fun y => T - n * f y) l) =
  Z.of_nat (List.length l) * T - n * sum (map f l).
Proof. induction l as [| z l IH]; simpl sum; cbn [List.length map]; [lia |].
  change (sum (map (fun y => T - n * f y) (z :: l)))
    with (T - n * f z + sum (map (fun y => T - n * f y) l)).
  change (sum (map f (z :: l))) with (f z + sum (map f l)).
  rewrite IH. lia.
Qed.

(** The average as a quotient of integers. *)
Lemma avg_le_iff (T n x : Z) :
  0 < n -> (inject_Z x <= inject_Z T / inject_Z n)%Q <-> n * x <= T.
Proof.
  intros Hn.
  assert (Hq : (0 < inject_Z n)%Q) by (rewrite <- (Zlt_Qlt 0); exact Hn).
  split.
  - intros H.
    apply (Qmult_le_compat_r _ _ (inject_Z n)) in H; [| now apply Qlt_le_weak].
    assert (E : (inject_Z T / inject_Z n * inject_Z n == inject_Z T)%Q).
    { field. intros E0. rewrite E0 in Hq. now apply Qlt_irrefl in Hq. }
    rewrite E, <- inject_Z_mult, <- Zle_Qle in H. lia.
  - intros H. apply Qle_shift_div_l; [exact Hq |].
    rewrite <- inject_Z_mult, <- Zle_Qle. lia.
Qed.

Lemma avg_ge_iff (T n x : Z) :
  0 < n -> (inject_Z T / inject_Z n <= inject_Z x)%Q <-> T <= n * x.
Proof.
  intros Hn.
  assert (Hq : (0 < inject_Z n)%Q) by (rewrite <- (Zlt_Qlt 0); exact Hn).
  split.
  - intros H.
    apply (Qmult_le_compat_r _ _ (inject_Z n)) in H; [| now apply Qlt_le_weak].
    assert (E : (inject_Z T / inject_Z n * inject_Z n == inject_Z T)%Q).
    { field. intros E0. rewrite E0 in Hq. now apply Qlt_irrefl in Hq. }
    rewrite E, <- inject_Z_mult, <- Zle_Qle in H. lia.
  - intros H. apply Qle_shift_div_r; [exact Hq |].
    rewrite <- inject_Z_mult, <- Zle_Qle. lia.
Qed.

(** Counts with the servers and the total of [c]: when no server is over
    the average of [c], or none is under it, every server is at it. *)
Lemma level_when_one_sided (c c' : counts_t) (t : string) :
  dict_wf c -> keys c' = keys c -> table_total c' t = table_total c t ->
  (forall s, In s (keys c) ->
     (inject_Z (count_of c' s t) <= compute_table_avg t c)%Q)
  \/ (forall s, In s (keys c) ->
        (compute_table_avg t c <= inject_Z (count_of c' s t))%Q) ->
  forall s, In s (keys c) ->
    (inject_Z (count_of c' s t) == compute_table_avg t c)%Q.
Proof.
  intros Hwf Hk Ht Hside s Hs.
  assert (Hwf' : dict_wf c') by (unfold dict_wf; now rewrite Hk).
  pose proof (sum_counts_total c' t Hwf') as Hsum. rewrite Hk, Ht in Hsum.
  unfold compute_table_avg in *.
  set (n := Z.of_nat (List.length c)) in *.
  set (T := table_total c t) in *.
  assert (Hlen : Z.of_nat (List.length (keys c)) = n).
  { unfold keys. now rewrite length_map. }
  assert (Hn : 0 < n).
  { unfold n. destruct c; [destruct Hs | simpl; lia]. }
  assert (E : (0 <? n) = true) by (apply Z.ltb_lt; exact Hn).
  rewrite E in *.
  pose proof (sum_map_scale (fun s => count_of c' s t) (keys c) n T) as Hsc.
  rewrite Hsum, Hlen in Hsc.
  destruct Hside as [Hle | Hge].
  - assert (H0 : T - n * count_of c' s t = 0).
    { apply (sum_zero_all (fun y => T - n * count_of c' y t) (keys c));
        [| lia | exact Hs].
      intros y Hy. specialize (Hle y Hy).
      apply (proj1 (avg_le_iff T n _ Hn)) in Hle. lia. }
    apply Qle_antisym;
      [apply (proj2 (avg_le_iff T n _ Hn)) | apply (proj2 (avg_ge_iff T n _ Hn))];
      lia.
  - assert (H0 : n * count_of c' s t - T = 0).
    { pose proof (sum_zero_all (fun y => - (T - n * count_of c' y t))
                    (keys c)) as Hz.
      cbv beta in Hz. rewrite <- (Z.opp_involutive (n * _ - T)).
      replace (- (n * count_of c' s t - T)) with (T - n * count_of c' s t)
        by lia.
      assert (Hs0 : - (T - n * count_of c' s t) = 0); [| lia].
      apply Hz; [| | exact Hs].
      + intros y Hy. specialize (Hge y Hy).
        apply (proj1 (avg_ge_iff T n _ Hn)) in Hge. lia.
      + clear - Hsc. revert Hsc. generalize (keys c). intros l.
        assert (forall l0, sum (map (fun y => - (T - n * count_of c' y t)) l0)
                           = - sum (map (fun y => T - n * count_of c' y t) l0)).
        { induction l0 as [| z l0 IH]; simpl; [reflexivity |].
          rewrite IH. lia. }
        rewrite H. lia. }
    apply Qle_antisym;
      [apply (proj2 (avg_le_iff T n _ Hn)) | apply (proj2 (avg_ge_iff T n _ Hn))];
      lia.
Qed.


(** *** The regions of the plan are regions of the snapshot *)

Lemma sum_map_pos {A : Type} (f : A -> Z) (l : list A) :
  (forall y, 0 <= f y) -> 0 < sum (map f l) -> exists x, In x l /\ 0 < f x.
Proof.
  intros Hnn. induction l as [| y l IH]; simpl; [lia |].
  intros Hpos. destruct (Z_lt_le_dec 0 (f y)) as [Hy | Hy].
  - exists y. auto.
  - destruct IH as (x & Hx & Hfx); [specialize (Hnn y); lia |].
    exists x. auto.
Qed.

Lemma sum_map_in {A : Type} (f : A -> Z) (l : list A) (x : A) :
  (forall y, 0 <= f y) -> In x l -> f x <= sum (map f l).
Proof.
  intros Hnn Hin. induction l as [| y l IH]; [destruct Hin |].
  simpl. destruct Hin as [-> | Hin].
  - pose proof (sum_map_nonneg f l Hnn). lia.
  - specialize (IH Hin). specialize (Hnn y). lia.
Qed.

Lemma listed_has_copy (r : regions_t) (s t x : string) (rest : list string) :
  regions_of r s t = x :: rest -> 0 < region_copies r t x.
Proof.
  intros Hreg. unfold region_copies.
  assert (Hin : In s (keys r)).
  { apply regions_of_present in Hreg as (inner & Hs & _).
    eapply dict_get_some_In, Hs. }
  pose proof (sum_map_in
                (fun s0 => Z.of_nat (count_occ string_dec (regions_of r s0 t) x))
                (keys r) s (fun y => Nat2Z.is_nonneg _) Hin) as Hle.
  cbv beta in Hle. rewrite Hreg in Hle. cbn [count_occ] in Hle.
  destruct (string_dec x x); [lia | contradiction].
Qed.

Lemma copy_is_listed (r : regions_t) (t x : string) :
  0 < region_copies r t x ->
  exists s, In s (keys r) /\ In x (regions_of r s t).
Proof.
  intros Hpos. unfold region_copies in Hpos.
  apply sum_map_pos in Hpos as (s & Hs & Hc);
    [| intros y; apply Nat2Z.is_nonneg].
  exists s. split; [exact Hs |].
  apply (count_occ_In string_dec). lia.
Qed.

(** *** A run that levels the hot table *)

Lemma counts_wf_set (c : counts_t) (s : string) (inner : dict Z) :
  counts_wf c -> dict_wf inner -> counts_wf (dict_set c s inner).
Proof.
  intros Hwf Hin s' counts Hget. rewrite dict_get_set in Hget.
  destruct (String.eqb s s'); [injection Hget as <-; exact Hin |].
  exact (Hwf _ _ Hget).
Qed.

Lemma decr_counts_wf (c c' : counts_t) (s t : string) :
  decr c s t = Ok c' -> counts_wf c -> counts_wf c'.
Proof.
  intros H Hwf. apply decr_inv in H as (inner & v & H1 & H2 & ->).
  apply counts_wf_set; [exact Hwf |]. apply dict_wf_set. exact (Hwf _ _ H1).
Qed.

Lemma incr_counts_wf (c c' : counts_t) (s t : string) :
  incr c s t = Ok c' -> counts_wf c -> counts_wf c'.
Proof.
  intros H Hwf. apply incr_inv in H as (inner & H1 & ->).
  apply counts_wf_set; [exact Hwf |]. apply dict_wf_set. exact (Hwf _ _ H1).
Qed.

Lemma simulate_counts_wf (hot_table : string) (sws : list swap) :
  forall c c', simulate hot_table sws c = Ok c' -> counts_wf c -> counts_wf c'.
Proof.
  induction sws as [| sw sws IH]; intros c c' H Hwf.
  - injection H as <-. exact Hwf.
  - cbn [simulate] in H. inv_bind H. apply (IH _ _ H).
    unfold replay_swap in E. inv_bind E. inv_bind E. inv_bind E.
    eapply incr_counts_wf; [eassumption |].
    eapply decr_counts_wf; [eassumption |].
    eapply incr_counts_wf; [eassumption |].
    eapply decr_counts_wf; eassumption.
Qed.

Lemma sum_values_nonpos (d : dict Z) :
  (forall t v, In (t, v) d -> v <= 0) -> sum (values d) <= 0.
Proof.
  induction d as [| [k v] d IH]; intros H; simpl; [lia |].
  assert (v <= 0) by (apply (H k); now left).
  assert (sum (values d) <= 0); [| unfold values in *; lia].
  apply IH. intros t v0 Hin. apply (H t). now right.
Qed.

(** A dict of counts that sums to more than its count of [hot] has a
    positive count for another table. *)
Lemma other_table_counted (d : dict Z) (hot : string) :
  dict_wf d -> dict_get_default d hot 0 < sum (values d) ->
  exists t v, In (t, v) d /\ t <> hot /\ 0 < v.
Proof.
  unfold dict_wf. induction d as [| [k v] d IH]; intros Hnd Hlt.
  - simpl in Hlt. unfold dict_get_default in Hlt. simpl in Hlt. lia.
  - inversion Hnd as [| ? ? Hnotin Hnd']; subst.
    change (sum (values ((k, v) :: d))) with (v + sum (values d)) in Hlt.
    unfold dict_get_default in Hlt. cbn [dict_get] in Hlt.
    destruct (String.eqb k hot) eqn:E.
    + apply String.eqb_eq in E. subst k.
      destruct (Z_lt_le_dec 0 (sum (values d))) as [Hpos | Hle]; [| lia].
      assert (Hex : exists t v0, In (t, v0) d /\ 0 < v0).
      { clear - Hpos. induction d as [| [k0 v0] d IH]; [simpl in Hpos; lia |].
        change (sum (values ((k0, v0) :: d))) with (v0 + sum (values d))
          in Hpos.
        destruct (Z_lt_le_dec 0 v0) as [Hv | Hv].
        - exists k0, v0. split; [now left | exact Hv].
        - destruct IH as (t & v1 & Hin & Hv1); [lia |].
          exists t, v1. split; [now right | exact Hv1]. }
      destruct Hex as (t & v0 & Hin & Hv0).
      exists t, v0. repeat split; [now right | | exact Hv0].
      intros ->. apply Hnotin. apply in_map_iff. exists (hot, v0). auto.
    + destruct (Z_lt_le_dec 0 v) as [Hv | Hv].
      * exists k, v. repeat split; [now left | | exact Hv].
        now apply String.eqb_neq.
      * fold (dict_get_default d hot 0) in Hlt.
        destruct (IH Hnd') as (t & v0 & Hin & Hne & Hv0); [lia |].
        exists t, v0. repeat split; [now right | exact Hne | exact Hv0].
Qed.

Lemma counted_is_listed (c : counts_t) (r : regions_t) (s t : string) :
  counts_agree c r -> 0 < count_of c s t ->
  exists x l, regions_of r s t = x :: l.
Proof.
  intros Hagree Hpos. rewrite Hagree in Hpos.
  destruct (regions_of r s t) as [| x l]; [simpl in Hpos; lia | eauto].
Qed.

(** In a working copy whose counts agree with its lists, a server with
    more hot regions than [a] and a server with fewer of them than regions
    in all can trade. *)
Lemma loaded_servers_trade (hot_table : string) (st : state) (d rcv : string)
    (a : Q) :
  counts_agree (stc st) (str_regions st) -> counts_wf (stc st) ->
  In rcv (keys (stc st)) ->
  (0 <= a)%Q -> (a < inject_Z (count_of (stc st) d hot_table))%Q ->
  count_of (stc st) rcv hot_table < server_total (stc st) rcv ->
  yields hot_table st d rcv.
Proof.
  intros Hagree Hcwf Hrcv Ha Hd Hr. split.
  - assert (Hpos : 0 < count_of (stc st) d hot_table).
    { rewrite (Zlt_Qlt 0). eapply Qle_lt_trans; eassumption. }
    destruct (counted_is_listed _ _ _ _ Hagree Hpos) as (x & l & E).
    rewrite E. discriminate.
  - apply dict_get_In in Hrcv.
    destruct (dict_get (stc st) rcv) as [counts |] eqn:Ec; [| congruence].
    rewrite (server_total_at _ _ _ Ec) in Hr.
    unfold count_of in Hr. rewrite (get2_inner _ _ _ _ 0 Ec) in Hr.
    destruct (other_table_counted counts hot_table (Hcwf _ _ Ec) Hr)
      as (t & v & Hin & Hne & Hv).
    assert (Hcount : count_of (stc st) rcv t = v).
    { unfold count_of. apply (get2_item _ _ _ _ _ _ Ec).
      apply dict_wf_item; [exact (Hcwf _ _ Ec) | exact Hin]. }
    assert (Hpos : 0 < count_of (stc st) rcv t) by lia.
    destruct (counted_is_listed _ _ _ _ Hagree Hpos) as (x & l & E).
    apply regions_of_present in E as (inner & Hs & Ht).
    assert (Hcand : In (t, x :: l) (candidates hot_table st rcv)).
    { unfold candidates. apply filter_In. split.
      - unfold dict_get_default. rewrite Hs.
        now apply dict_get_in_items.
      - apply eligible_true. now apply String.eqb_neq. }
    intros E0. rewrite E0 in Hcand. destruct Hcand.
Qed.

Lemma avg_nonneg (c : counts_t) (t : string) :
  dict_wf c -> (forall s, 0 <= count_of c s t) ->
  (0 <= compute_table_avg t c)%Q.
Proof.
  intros Hwf Hnn. unfold compute_table_avg.
  destruct (0 <? Z.of_nat (List.length c)) eqn:E; [| apply Qle_refl].
  apply Z.ltb_lt in E.
  apply Qle_shift_div_l; [rewrite <- (Zlt_Qlt 0); exact E |].
  rewrite Qmult_0_l, <- (Zle_Qle 0), <- (sum_counts_total c t Hwf).
  apply sum_map_nonneg. exact Hnn.
Qed.

(** Counts with the servers and the hot total of [c], classified against
    the average of [c]: with no donor or no receiver, every server is at
    the average. *)
Lemma unclassified_level (hot_table : string) (c c' : counts_t)
    (donors receivers : list (string * Q)) :
  dict_wf c -> keys c' = keys c ->
  table_total c' hot_table = table_total c hot_table ->
  classify_sorted hot_table (table_avg_get c hot_table) c' (keys c)
  = Ok (donors, receivers) ->
  donors = [] \/ receivers = [] ->
  forall s, In s (keys c) ->
    (inject_Z (count_of c' s hot_table) == compute_table_avg hot_table c)%Q.
Proof.
  intros Hwf Hk Ht Hcs Hside.
  destruct (classify_sorted_members _ _ _ _ _ _ Hcs) as (Hd & Hr & _).
  apply (level_when_one_sided c c' hot_table Hwf Hk Ht).
  destruct Hside as [-> | ->].
  - left. intros s Hs. rewrite <- table_avg_get_compute.
    apply Qnot_lt_le. intros Hlt.
    apply (proj2 (Hd s _) (conj Hs (conj Hlt eq_refl))).
  - right. intros s Hs. rewrite <- table_avg_get_compute.
    apply Qnot_lt_le. intros Hlt.
    apply (proj2 (Hr s _) (conj Hs (conj Hlt eq_refl))).
Qed.

End PlanFacts.

(** ** More about the snapshot builder *)

Module DumpFacts.
Import Planner Exporter Main Notions Measures PyFacts UpdateFacts SwapFacts.
Import SnapshotFacts PlanFacts.

(** What recording one region does to the four dicts. *)
Lemma record_region_regions (a : analysis) (f : fact) (s t : string) :
  regions_of (server_table_regions (record_region a f)) s t =
  (regions_of (server_table_regions a) s t
   ++ (if recorded_on s t f then [encoded_name f] else []))%list.
Proof.
  unfold record_region, regions_of, recorded_on. cbn [server_table_regions].
  rewrite get2_set2_default. unfold hit.
  destruct (String.eqb (server_host f) s && String.eqb (table_name f) t)
    eqn:E; [| now rewrite app_nil_r].
  apply andb_true_iff in E as [E1 E2].
  apply String.eqb_eq in E1, E2. subst. reflexivity.
Qed.

Lemma record_region_count (a : analysis) (f : fact) (s t : string) :
  count_of (server_table_count (record_region a f)) s t =
  count_of (server_table_count a) s t
  + (if recorded_on s t f then 1 else 0).
Proof.
  unfold record_region, count_of, recorded_on. cbn [server_table_count].
  rewrite get2_set2_default. unfold hit.
  destruct (String.eqb (server_host f) s && String.eqb (table_name f) t)
    eqn:E; [| lia].
  apply andb_true_iff in E as [E1 E2].
  apply String.eqb_eq in E1, E2. subst. reflexivity.
Qed.

Lemma fold_regions (facts : list fact) :
  forall (a : analysis) (s t : string),
  regions_of (server_table_regions (fold_left record_region facts a)) s t =
  (regions_of (server_table_regions a) s t
   ++ map encoded_name (filter (recorded_on s t) facts))%list.
Proof.
  induction facts as [| f facts IH]; intros a s t; cbn [fold_left filter].
  - now rewrite app_nil_r.
  - rewrite IH, record_region_regions, <- app_assoc.
    destruct (recorded_on s t f); reflexivity.
Qed.

Lemma fold_count (facts : list fact) :
  forall (a : analysis) (s t : string),
  count_of (server_table_count (fold_left record_region facts a)) s t =
  count_of (server_table_count a) s t
  + Z.of_nat (List.length (filter (recorded_on s t) facts)).
Proof.
  induction facts as [| f facts IH]; intros a s t; cbn [fold_left filter].
  - simpl. lia.
  - rewrite IH, record_region_count.
    destruct (recorded_on s t f); cbn [List.length]; lia.
Qed.

Lemma find_last_cons {A : Type} (p : A -> bool) (x : A) (l : list A) :
  find_last p (x :: l) =
  match find_last p l with
  | Some y => Some y
  | None => if p x then Some x else None
  end.
Proof.
  unfold find_last. cbn [rev].
  induction (rev l) as [| y l' IH]; cbn [app find]; [reflexivity |].
  destruct (p y); [reflexivity | exact IH].
Qed.

Lemma find_last_some {A : Type} (p : A -> bool) (l : list A) (x : A) :
  find_last p l = Some x -> In x l /\ p x = true.
Proof.
  unfold find_last. intros H. apply find_some in H as [Hin Hp].
  split; [now apply in_rev | exact Hp].
Qed.

Lemma find_last_none {A : Type} (p : A -> bool) (l : list A) :
  find_last p l = None -> forall x, In x l -> p x = false.
Proof.
  unfold find_last. intros H x Hin.
  apply (find_none _ _ H). now apply in_rev in Hin.
Qed.

(** Dicts written with the same key at every step: the last write wins. *)
Lemma fold_last_write {V : Type} (proj : analysis -> dict V)
    (key : fact -> string) (val : fact -> V) :
  (forall a f, proj (record_region a f) = dict_set (proj a) (key f) (val f)) ->
  forall (facts : list fact) (a : analysis) (k : string),
    dict_get (proj (fold_left record_region facts a)) k =
    match find_last (fun f => String.eqb (key f) k) facts with
    | Some f => Some (val f)
    | None => dict_get (proj a) k
    end.
Proof.
  intros Hstep. induction facts as [| f facts IH]; intros a k.
  - reflexivity.
  - cbn [fold_left]. rewrite IH, find_last_cons, Hstep, dict_get_set.
    destruct (find_last (fun f0 => String.eqb (key f0) k) facts);
      [reflexivity |].
    destruct (String.eqb (key f) k); reflexivity.
Qed.

Lemma keys_dict_set_same {V W : Type} (d1 : dict V) (d2 : dict W) (k : string)
    (v : V) (w : W) :
  keys d1 = keys d2 -> keys (dict_set d1 k v) = keys (dict_set d2 k w).
Proof.
  revert d2. induction d1 as [| [k1 v1] d1 IH]; intros [| [k2 w2] d2] H;
    try discriminate; [reflexivity |].
  cbn [keys map fst] in H. injection H as -> H. cbn [dict_set].
  destruct (String.eqb k2 k); cbn [keys map fst]; f_equal.
  - exact H.
  - apply IH, H.
Qed.

Lemma fold_keys (facts : list fact) :
  forall a : analysis,
  keys (server_table_regions a) = keys (server_table_count a) ->
  keys (server_fullname a) = keys (server_table_count a) ->
  keys (server_table_regions (fold_left record_region facts a))
  = keys (server_table_count (fold_left record_region facts a))
  /\ keys (server_fullname (fold_left record_region facts a))
     = keys (server_table_count (fold_left record_region facts a)).
Proof.
  induction facts as [| f facts IH]; intros a H1 H2; [now split |].
  cbn [fold_left]. apply IH.
  - unfold record_region. cbn [server_table_regions server_table_count].
    now apply keys_dict_set_same.
  - unfold record_region. cbn [server_fullname server_table_count].
    now apply keys_dict_set_same.
Qed.

Lemma keys_recorded (facts : list fact) :
  forall (a : analysis) (h : string),
  In h (keys (server_table_count (fold_left record_region facts a))) <->
  In h (keys (server_table_count a))
  \/ exists f, In f facts /\ server_host f = h.
Proof.
  induction facts as [| f facts IH]; intros a h; cbn [fold_left].
  - split; [auto | intros [H | (f & [] & _)]; exact H].
  - rewrite IH.
    assert (Hstep : In h (keys (server_table_count (record_region a f))) <->
                    In h (keys (server_table_count a)) \/ server_host f = h).
    { unfold record_region. cbn [server_table_count]. rewrite keys_dict_set.
      destruct (dict_mem (server_table_count a) (server_host f)) eqn:Em.
      - split; [auto |]. intros [H | <-]; [exact H |].
        apply dict_get_In. unfold dict_mem in Em.
        destruct (dict_get (server_table_count a) (server_host f));
          [discriminate | discriminate].
      - rewrite in_app_iff. cbn [In]. tauto. }
    rewrite Hstep. split.
    + intros [[H | H] | (f0 & H0 & E)].
      * now left.
      * right. exists f. split; [now left | exact H].
      * right. exists f0. split; [now right | exact E].
    + intros [H | (f0 & [H0 | H0] & E)].
      * left. now left.
      * left. right. now subst f0.
      * right. exists f0. auto.
Qed.

Lemma analyze_outer_wf (facts : list fact) :
  dict_wf (server_table_count (analyze_distribution facts))
  /\ dict_wf (server_table_regions (analyze_distribution facts)).
Proof.
  unfold analyze_distribution.
  assert (H0 : dict_wf (server_table_count (Analysis [] [] [] []))
               /\ dict_wf (server_table_regions (Analysis [] [] [] [])))
    by (split; constructor).
  revert H0. generalize (Analysis [] [] [] []).
  induction facts as [| f facts IH]; intros a [H1 H2]; [now split |].
  cbn [fold_left]. apply IH. unfold record_region.
  cbn [server_table_count server_table_regions].
  split; apply dict_wf_set; assumption.
Qed.

Lemma analyze_counts_wf (facts : list fact) :
  counts_wf (server_table_count (analyze_distribution facts)).
Proof.
  unfold analyze_distribution.
  assert (H0 : counts_wf (server_table_count (Analysis [] [] [] [])))
    by (intros s counts; discriminate).
  revert H0. generalize (Analysis [] [] [] []).
  induction facts as [| f facts IH]; intros a Ha; [exact Ha |].
  cbn [fold_left]. apply IH. unfold record_region.
  cbn [server_table_count]. apply counts_wf_set; [exact Ha |].
  apply dict_wf_set. unfold dict_get_default.
  destruct (dict_get (server_table_count a) (server_host f)) eqn:E.
  - exact (Ha _ _ E).
  - constructor.
Qed.

(** *** The loop over the lines *)

Lemma analyze_snoc (facts : list fact) (f : fact) :
  analyze_distribution (facts ++ [f]) =
  record_region (analyze_distribution facts) f.
Proof. unfold analyze_distribution. now rewrite fold_left_app. Qed.

Lemma read_row_inv (rows : list Dump.row) (l : Dump.row)
    (st : Dump.region_server_info_t * analysis) :
  In l rows ->
  from_server_rows rows (fst st)
  /\ (exists facts, snd st = analyze_distribution facts
                    /\ Forall (from_rows rows) facts) ->
  from_server_rows rows (fst (Dump.read_row st l))
  /\ (exists facts, snd (Dump.read_row st l) = analyze_distribution facts
                    /\ Forall (from_rows rows) facts).
Proof.
  intros Hin [Hrsi (facts & Ha & Hfacts)].
  destruct l as [ftn e h p | e sc |]; cbn [Dump.read_row].
  - destruct (String.prefix "hbase:" (Dump.before_comma ftn)) eqn:Ep.
    + split; [exact Hrsi | eauto].
    + cbn [fst snd]. split; [| eauto].
      intros e' t' h' p' Hget. rewrite dict_get_set in Hget.
      destruct (String.eqb e e') eqn:Ee.
      * apply String.eqb_eq in Ee. subst e'. injection Hget as <- <- <-.
        split; [exact Ep | eauto].
      * exact (Hrsi _ _ _ _ Hget).
  - destruct (dict_get (fst st) e) as [[[t h] p] |] eqn:Eg.
    + cbn [fst snd]. split; [exact Hrsi |].
      exists (facts ++ [Fact t e h p sc])%list. split.
      * now rewrite analyze_snoc, Ha.
      * apply Forall_app. split; [exact Hfacts |].
        constructor; [| constructor].
        destruct (Hrsi _ _ _ _ Eg) as [Hp Hrow].
        repeat split; [exact Hp | exact Hin | exact Hrow].
    + split; [exact Hrsi | eauto].
  - split; [exact Hrsi | eauto].
Qed.

Lemma read_rows_inv (all rows : list Dump.row) :
  forall st : Dump.region_server_info_t * analysis,
  incl rows all ->
  from_server_rows all (fst st)
  /\ (exists facts, snd st = analyze_distribution facts
                    /\ Forall (from_rows all) facts) ->
  from_server_rows all (fst (fold_left Dump.read_row rows st))
  /\ (exists facts,
        snd (fold_left Dump.read_row rows st) = analyze_distribution facts
        /\ Forall (from_rows all) facts).
Proof.
  induction rows as [| l rows IH]; intros st Hincl Hinv; [exact Hinv |].
  cbn [fold_left]. apply IH.
  - intros x Hx. apply Hincl. now right.
  - apply read_row_inv; [apply Hincl; now left | exact Hinv].
Qed.

(** The snapshot read from the lines is the snapshot of the regions
    recorded, each from a start code row and a server row of a user
    table. *)
Lemma rows_recorded (rows : list Dump.row) :
  exists facts,
    Dump.analyze_distribution rows = analyze_distribution facts
    /\ Forall (from_rows rows) facts.
Proof.
  unfold Dump.analyze_distribution.
  apply (read_rows_inv rows rows ([], Analysis [] [] [] []) (incl_refl _)).
  split.
  - intros e t h p Hget. discriminate.
  - exists []. split; [reflexivity | constructor].
Qed.

Lemma find_last_snoc {A : Type} (p : A -> bool) (l : list A) (x : A) :
  find_last p (l ++ [x]) = if p x then Some x else find_last p l.
Proof.
  unfold find_last. rewrite rev_app_distr. reflexivity.
Qed.

Lemma read_row_last_server_row (seen : list Dump.row)
    (rsi : Dump.region_server_info_t) (an : analysis) (l : Dump.row) :
  last_server_row seen rsi ->
  last_server_row (seen ++ [l]) (fst (Dump.read_row (rsi, an) l)).
Proof.
  intros Hinv e. rewrite find_last_snoc.
  destruct l as [ftn e' h p | e' sc |]; cbn [Dump.read_row fst snd].
  - cbn [user_server_row].
    destruct (String.prefix "hbase:" (Dump.before_comma ftn)) eqn:Ep;
      cbn [negb fst].
    + rewrite andb_false_r. apply Hinv.
    + rewrite andb_true_r, dict_get_set.
      destruct (String.eqb e' e); [reflexivity | apply Hinv].
  - cbn [user_server_row].
    destruct (dict_get rsi e') as [[[t h] p] |]; apply Hinv.
  - apply Hinv.
Qed.

Lemma read_rows_recorded_after (rows seen : list Dump.row)
    (rsi : Dump.region_server_info_t) (an : analysis) :
  last_server_row seen rsi ->
  snd (fold_left Dump.read_row rows (rsi, an))
  = fold_left record_region (recorded_after seen rows) an.
Proof.
  revert seen rsi an.
  induction rows as [| l rows IH]; intros seen rsi an Hinv; [reflexivity |].
  cbn [fold_left recorded_after]. rewrite fold_left_app.
  pose proof (read_row_last_server_row seen rsi an l Hinv) as Hinv'.
  destruct (Dump.read_row (rsi, an) l) as [rsi' an'] eqn:Er.
  cbn [fst] in Hinv'. rewrite (IH _ _ _ Hinv'). f_equal.
  destruct l as [ftn e' h p | e' sc |]; cbn [Dump.read_row fst snd] in Er.
  - destruct (String.prefix "hbase:" (Dump.before_comma ftn));
      injection Er as _ <-; reflexivity.
  - rewrite (Hinv e') in Er.
    destruct (find_last (user_server_row e') seen) as [[ftn ? h p | |] |];
      injection Er as _ <-; reflexivity.
  - injection Er as _ <-. reflexivity.
Qed.

End DumpFacts.

(** ** More about the reports and the exporter *)

Module ReportFacts.
Import Planner Exporter Main Notions Measures Report PyFacts UpdateFacts.
Import SwapFacts SnapshotFacts PlanFacts DumpFacts RunProps.

(** *** [sorted] *)

Section SortedFacts.
Context {A K : Type} (ltb : K -> K -> bool) (key : A -> K).
Hypothesis ltb_asym : forall a b, ltb a b = true -> ltb b a = false.
Hypothesis ltb_trans :
  forall a b c, ltb b a = false -> ltb c b = false -> ltb c a = false.

Lemma sorted_insert_perm (x : A) (l : list A) :
  Permutation (sorted_insert ltb key x l) (x :: l).
Proof.
  induction l as [| y l IH]; cbn [sorted_insert]; [reflexivity |].
  destruct (ltb (key y) (key x)); [| reflexivity].
  rewrite IH. apply perm_swap.
Qed.

Lemma sorted_by_perm (l : list A) : Permutation (sorted_by ltb key l) l.
Proof.
  induction l as [| x l IH]; cbn [sorted_by fold_right]; [reflexivity |].
  fold (sorted_by ltb key l). rewrite sorted_insert_perm. now constructor.
Qed.

Lemma sorted_insert_order (before : A -> A -> Prop) (x : A) (l : list A) :
  Forall (before x) l -> StronglySorted (in_order ltb key before) l ->
  StronglySorted (in_order ltb key before) (sorted_insert ltb key x l).
Proof.
  intros Hx Hs. induction Hs as [| y l Hs IH Hy]; cbn [sorted_insert].
  - repeat constructor.
  - inversion Hx as [| ? ? Hxy Hxl]; subst.
    destruct (ltb (key y) (key x)) eqn:E.
    + constructor; [apply IH, Hxl |].
      eapply Permutation_Forall;
        [apply Permutation_sym, sorted_insert_perm |].
      constructor; [| exact Hy].
      split; [now apply ltb_asym | intros E'; congruence].
    + constructor; [now constructor |].
      constructor; [split; [exact E | intros _; exact Hxy] |].
      rewrite Forall_forall in Hy, Hxl |- *. intros z Hz.
      split; [| intros _; now apply Hxl].
      apply (ltb_trans _ (key y)); [exact E | apply (Hy z Hz)].
Qed.

(** The sort is stable. *)
Lemma sorted_by_order (before : A -> A -> Prop) (l : list A) :
  StronglySorted before l ->
  StronglySorted (in_order ltb key before) (sorted_by ltb key l).
Proof.
  induction 1 as [| x l Hs IH Hx]; cbn [sorted_by fold_right];
    [constructor |].
  fold (sorted_by ltb key l). apply sorted_insert_order; [| exact IH].
  eapply Permutation_Forall; [apply Permutation_sym, sorted_by_perm |].
  exact Hx.
Qed.
End SortedFacts.

Lemma all_sorted_trivially {A : Type} (l : list A) :
  StronglySorted (fun _ _ => True) l.
Proof.
  induction l as [| x l IH]; constructor; [exact IH |].
  apply Forall_forall. auto.
Qed.

Lemma StronglySorted_impl {A : Type} (R R' : A -> A -> Prop) (l : list A) :
  (forall a b, R a b -> R' a b) -> StronglySorted R l -> StronglySorted R' l.
Proof.
  intros Himp. induction 1 as [| x l Hs IH Hx]; constructor; [exact IH |].
  eapply Forall_impl; [apply Himp | exact Hx].
Qed.

Lemma StronglySorted_map {A B : Type} (f : A -> B) (R : B -> B -> Prop)
    (l : list A) :
  StronglySorted (fun a b => R (f a) (f b)) l -> StronglySorted R (map f l).
Proof.
  induction 1 as [| x l Hs IH Hx]; cbn [map]; constructor; [exact IH |].
  apply Forall_map. exact Hx.
Qed.

(** *** The order of strings and of integers *)

Lemma string_ltb_asym (a b : string) :
  String.ltb a b = true -> String.ltb b a = false.
Proof.
  unfold String.ltb. rewrite (String.compare_antisym b a).
  destruct (String.compare a b); cbn; congruence.
Qed.

Lemma string_ltb_lt (a b : string) :
  String.ltb a b = true <-> String_as_OT.lt a b.
Proof.
  rewrite <- String_as_OT.cmp_lt. unfold String.ltb, String_as_OT.cmp.
  destruct (String.compare a b); split; congruence.
Qed.

Lemma string_ltb_trans (a b c : string) :
  String.ltb b a = false -> String.ltb c b = false -> String.ltb c a = false.
Proof.
  intros Hba Hcb. destruct (String.ltb c a) eqn:Hca; [| reflexivity].
  exfalso.
  (* c < a; then b <= c gives b < a or b = c *)
  unfold String.ltb in Hcb.
  destruct (String.compare c b) eqn:Ecb; try discriminate.
  - apply String.compare_eq_iff in Ecb. subst c. congruence.
  - assert (Hbc : String_as_OT.lt b c).
    { apply String_as_OT.cmp_lt. unfold String_as_OT.cmp.
      rewrite String.compare_antisym, Ecb. reflexivity. }
    apply string_ltb_lt in Hca.
    pose proof (String_as_OT.lt_trans _ _ _ Hbc Hca) as Hlt.
    apply string_ltb_lt in Hlt. congruence.
Qed.

Lemma string_ltb_leb (a b : string) :
  String.ltb b a = false <-> String.leb a b = true.
Proof.
  unfold String.ltb, String.leb. rewrite (String.compare_antisym b a).
  destruct (String.compare a b); cbn; split; congruence.
Qed.

Lemma Z_ltb_asym (a b : Z) : Z.ltb a b = true -> Z.ltb b a = false.
Proof. lia. Qed.

Lemma Z_ltb_trans (a b c : Z) :
  Z.ltb b a = false -> Z.ltb c b = false -> Z.ltb c a = false.
Proof. lia. Qed.

(** *** [print_distribution] *)

Lemma distribution_items_servers (t : string) (c : counts_t) :
  Permutation (map row_server (distribution_items t c)) (keys c).
Proof.
  unfold distribution_items. rewrite map_map. cbn [row_server].
  unfold keys. apply Permutation_map. apply sorted_by_perm.
Qed.

Lemma distribution_items_sorted (t : string) (c : counts_t) :
  StronglySorted
    (fun a b => String.leb (row_server a) (row_server b) = true)
    (distribution_items t c).
Proof.
  unfold distribution_items. apply StronglySorted_map. cbn [row_server].
  eapply StronglySorted_impl;
    [| apply (sorted_by_order String.ltb fst string_ltb_asym string_ltb_trans
                (fun _ _ => True)), all_sorted_trivially].
  intros x y [H _]. now apply string_ltb_leb.
Qed.

Lemma distribution_items_rows (t : string) (c : counts_t) :
  Forall
    (fun x =>
       (exists counts, In (row_server x, counts) c
                       /\ row_count x = dict_get_default counts t 0)
       /\ row_diff x = (inject_Z (row_count x) - compute_table_avg t c)%Q
       /\ row_sign x =
          if Qgtb (inject_Z (row_count x)) (compute_table_avg t c)
          then "+"%string else ""%string)
    (distribution_items t c).
Proof.
  unfold distribution_items. apply Forall_map.
  eapply Permutation_Forall; [apply Permutation_sym, sorted_by_perm |].
  apply Forall_forall. intros [s counts] Hin. cbn [fst snd].
  repeat split.
  - exists counts. auto.
  - unfold Qgtb, Qltb.
    set (x := inject_Z (dict_get_default counts t 0)).
    set (avg := compute_table_avg t c).
    assert (E : (0 ?= x - avg)%Q = (avg ?= x)%Q).
    { destruct (avg ?= x)%Q eqn:E.
      - apply Qeq_alt in E. apply Qeq_alt. rewrite E. ring.
      - apply Qlt_alt in E. apply Qlt_alt.
        apply (Qplus_lt_l _ _ avg). ring_simplify. exact E.
      - apply Qgt_alt in E. apply Qgt_alt.
        apply (Qplus_lt_l _ _ avg). ring_simplify. exact E. }
    now rewrite E.
Qed.

(** *** [cold_table_stats] *)

Lemma stats_fold (plan : list swap) :
  forall d : dict Z,
  dict_wf d ->
  let stats :=
    fold_left (fun stats sw =>
                 dict_set stats (cold_table sw)
                   (dict_get_default stats (cold_table sw) 0 + 1))
      plan d in
  dict_wf stats
  /\ (forall t, dict_get_default stats t 0 =
                dict_get_default d t 0
                + Z.of_nat (count_occ string_dec (map cold_table plan) t))
  /\ sum (values stats) = sum (values d) + Z.of_nat (List.length plan)
  /\ (forall t, In t (keys stats) <->
                In t (keys d) \/ In t (map cold_table plan)).
Proof.
  induction plan as [| sw plan IH]; intros d Hwf; cbn [fold_left].
  - cbn zeta. repeat split; try (simpl; lia); auto.
    intros [H | []]. exact H.
  - set (d1 := dict_set d (cold_table sw)
                 (dict_get_default d (cold_table sw) 0 + 1)).
    destruct (IH d1 (dict_wf_set _ _ _ Hwf)) as (H1 & H2 & H3 & H4).
    cbn zeta. split; [exact H1 |]. split; [| split].
    + intros t. rewrite H2. unfold d1, dict_get_default at 1.
      rewrite dict_get_set. cbn [map count_occ].
      destruct (string_dec (cold_table sw) t) as [-> | Hne].
      * rewrite String.eqb_refl.
        fold (dict_get_default d t 0). lia.
      * apply String.eqb_neq in Hne. rewrite Hne.
        fold (dict_get_default d t 0). lia.
    + rewrite H3. unfold d1, dict_get_default.
      destruct (dict_get d (cold_table sw)) as [v |] eqn:E.
      * rewrite (sum_values_over _ _ _ _ E). cbn [List.length]. lia.
      * rewrite (sum_values_new _ _ _ E). cbn [List.length]. lia.
    + intros t. rewrite H4. unfold d1. rewrite keys_dict_set.
      cbn [map In].
      destruct (dict_mem d (cold_table sw)) eqn:Em.
      * split; [tauto |]. intros [H | [<- | H]]; auto.
        left. apply dict_get_In. unfold dict_mem in Em.
        destruct (dict_get d (cold_table sw)); [discriminate | discriminate].
      * rewrite in_app_iff. cbn [In]. tauto.
Qed.

(** *** [generate_plan] *)

Lemma length_write_pairs (hot_table : string)
    (server_fullname : server_fullname_t) (swap_plan : list swap) :
  forall k,
  List.length (write_pairs hot_table server_fullname k swap_plan)
  = (4 * List.length swap_plan)%nat.
Proof.
  induction swap_plan as [| sw rest IH]; intros k; [reflexivity |].
  rewrite write_pairs_cons, length_app, length_write_pair, IH.
  cbn [List.length]. lia.
Qed.

Lemma nth_generate_plan (swap_plan : list swap)
    (output_file hot_table : string) (server_fullname : server_fullname_t)
    (i j : nat) (sw : swap) :
  nth_error swap_plan i = Some sw -> (j < 4)%nat ->
  nth_error
    (writes (generate_plan swap_plan output_file hot_table server_fullname))
    (4 + 4 * i + j)
  = nth_error (write_pair hot_table server_fullname (1 + i) sw) j.
Proof.
  intros Hnth Hj. unfold generate_plan. cbn [writes].
  replace (4 + 4 * i + j)%nat with (4 + (4 * i + j))%nat by lia.
  rewrite nth_error_app2; cbn [List.length]; [| lia].
  replace (4 + (4 * i + j) - 4)%nat with (4 * i + j)%nat by lia.
  rewrite nth_error_app1.
  - exact (nth_write_pairs _ _ _ _ _ _ _ Hnth Hj).
  - rewrite length_write_pairs.
    assert (i < List.length swap_plan)%nat
      by (apply nth_error_Some; congruence).
    lia.
Qed.

(** *** The file [main] writes *)

Lemma main_written (a : args) (facts : list fact) (o : outcome) (f : file) :
  main a facts = Ok o -> written o = Some f ->
  exists plan,
    compute_balance_plan (hot_table a)
      (server_table_count (analyze_distribution facts))
      (region_info (analyze_distribution facts))
      (server_table_regions (analyze_distribution facts)) = Ok plan
    /\ plan <> [] /\ dry_run a = false
    /\ planned o = Some plan
    /\ f = generate_plan plan (output a) (hot_table a)
             (server_fullname (analyze_distribution facts)).
Proof.
  unfold main. intros H Hw.
  destruct (server_table_count (analyze_distribution facts)) as [| kv c] eqn:Ec.
  { injection H as <-. discriminate. }
  rewrite <- Ec in *. clear kv c Ec.
  destruct (table_total _ (hot_table a) =? 0)%Z.
  { injection H as <-. discriminate. }
  destruct (compute_balance_plan _ _ _ _) as [plan | e]; [| discriminate].
  cbn [bind] in H. exists plan. split; [reflexivity |].
  destruct plan as [| sw plan].
  { injection H as <-. discriminate. }
  destruct (simulate _ _ _); [| discriminate]. cbn [bind] in H.
  destruct (dry_run a); cbn [negb] in H; injection H as <-;
    cbn [written planned] in *; [discriminate |].
  injection Hw as <-. repeat split; congruence.
Qed.

Lemma fullname_of_server (facts : list fact) (h : string) :
  In h (keys (server_table_count (analyze_distribution facts))) ->
  exists f,
    In f facts /\ server_host f = h
    /\ dict_get (server_fullname (analyze_distribution facts)) h
       = Some (full_server_name f).
Proof.
  unfold analyze_distribution. intros Hin.
  apply keys_recorded in Hin as [[] | (f0 & Hf0 & Eh)].
  pose proof (fold_last_write server_fullname server_host full_server_name
                (fun a f => eq_refl) facts (Analysis [] [] [] []) h) as Hget.
  destruct (find_last (fun f => String.eqb (server_host f) h) facts)
    as [f |] eqn:Ef.
  - apply find_last_some in Ef as [Hf Eh']. apply String.eqb_eq in Eh'.
    exists f. auto.
  - pose proof (find_last_none _ _ Ef f0 Hf0) as Hno. cbn beta in Hno.
    rewrite Eh, String.eqb_refl in Hno. discriminate.
Qed.

End ReportFacts.

(** ** Further properties of the planner *)

Module PlanProps.
Import Planner Main Notions Measures Scenarios Cases PyFacts UpdateFacts.
Import SearchFacts PairingFacts SwapFacts LoopFacts SnapshotFacts PlanFacts.
Import DumpFacts.

Local Open Scope string_scope.






(** X6.  When no server lists a region of any table but the hot one, the
    plan is empty, however uneven the hot table is: a hot region is never
    moved without a region of another table coming back. *)
Theorem nothing_to_trade_empty_plan (hot_table : string) (c : counts_t)
    (ri : region_info_t) (r : regions_t) :
  (forall s tables t l,
     dict_get r s = Some tables -> In (t, l) tables ->
     t = hot_table \/ l = []) ->
  compute_balance_plan hot_table c ri r = Ok [].
Proof.
  intros Honly. unfold compute_balance_plan.
  destruct (keys c) as [| s0 rest] eqn:Ekeys; [reflexivity |].
  clear s0 rest Ekeys. unfold run_planner, max_iterations.
  destruct (find_swap_spec hot_table (table_avg_get c)
              (table_avg_get c hot_table) (keys c) (State c r)
              (incl_refl _))
    as (donors & receivers & found & _ & Hfound & Hcase).
  destruct found as [sw |].
  - exfalso.
    destruct Hcase as (_ & _ & _ & _ & _ & _ & _ & _ & _ & _ & _ & Hbest).
    destruct Hbest as (before & regs & after & Hsplit & _ & _).
    assert (Hin : In (cold_table sw, cold_region sw :: regs)
                     (candidates hot_table (State c r) (target sw))).
    { rewrite Hsplit. apply in_or_app. right. now left. }
    unfold candidates in Hin. apply filter_In in Hin as [Hin Hel].
    apply eligible_inv in Hel as [Hne _]. cbn [fst] in Hne.
    cbn [str_regions] in Hin. unfold dict_get_default in Hin.
    destruct (dict_get r (target sw)) as [tables |] eqn:E; [| destruct Hin].
    destruct (Honly _ _ _ _ E Hin); [contradiction | discriminate].
  - now rewrite (plan_loop_break _ _ _ _ _ _ _ Hfound).
Qed.

(** X7.  The average the planner precomputes for a table,
    [table_avg.get(table, 0)], is the value of [compute_table_avg] for that
    table on the snapshot, also for a table no server has. *)
Theorem planner_average_is_table_average (c : counts_t) (t : string) :
  (table_avg_get c t == compute_table_avg t c)%Q.
Proof. apply table_avg_get_compute. Qed.






(** *** The theorems at concrete snapshots *)






Lemma nothing_to_trade_empty_plan_witness :
  compute_balance_plan "hot" counts_hot_only [] regions_hot_only = Ok [].
Proof.
  apply (nothing_to_trade_empty_plan "hot" counts_hot_only []
           regions_hot_only).
  intros s tables t l Hget Hin. left.
  unfold regions_hot_only in Hget. cbn [dict_get] in Hget.
  destruct (String.eqb "S1" s).
  - injection Hget as <-. destruct Hin as [[= <- _] | []]. reflexivity.
  - destruct (String.eqb "S2" s); [| discriminate].
    injection Hget as <-. destruct Hin as [[= <- _] | []]. reflexivity.
Defined.






End PlanProps.

(** ** Further properties of the snapshot builder *)

Module DumpProps.
Import Planner Exporter Main Notions Measures Scenarios Cases PyFacts.
Import UpdateFacts SwapFacts SnapshotFacts DumpFacts.

Local Open Scope string_scope.

(** X11.  In the snapshot built from a dump, the region list of a server
    and table holds the encoded names of the regions recorded for that
    server and table, in the order of the dump, and the count is their
    number. *)
Theorem snapshot_lists_recorded_regions (facts : list fact) (s t : string) :
  let an := analyze_distribution facts in
  regions_of (server_table_regions an) s t
  = map encoded_name (filter (recorded_on s t) facts)
  /\ count_of (server_table_count an) s t
     = Z.of_nat (List.length (filter (recorded_on s t) facts)).
Proof.
  cbn zeta. unfold analyze_distribution. split.
  - rewrite fold_regions. reflexivity.
  - rewrite fold_count. reflexivity.
Qed.

(** X12.  The three dicts keyed by server have the same servers in the
    same order, so every server of the snapshot has a full name; the full
    name of a host is ["host,port,startcode"] with the port and start code
    of the last region recorded on that host. *)
Theorem every_server_has_full_name (facts : list fact) :
  let an := analyze_distribution facts in
  keys (server_table_regions an) = keys (server_table_count an)
  /\ keys (server_fullname an) = keys (server_table_count an)
  /\ forall h,
       dict_get (server_fullname an) h
       = option_map full_server_name
           (find_last (fun f => String.eqb (server_host f) h) facts).
Proof.
  cbn zeta. unfold analyze_distribution.
  destruct (fold_keys facts (Analysis [] [] [] []) eq_refl eq_refl)
    as [H1 H2].
  repeat split; [exact H1 | exact H2 |].
  intros h.
  rewrite (fold_last_write server_fullname server_host full_server_name
             (fun a f => eq_refl) facts (Analysis [] [] [] []) h).
  destruct (find_last _ facts); reflexivity.
Qed.

(** X13.  [region_info] maps an encoded name to the table and the host of
    the last region recorded under that name, and has no other key. *)
Theorem region_info_last_record (facts : list fact) (e : string) :
  dict_get (region_info (analyze_distribution facts)) e
  = option_map (fun f => (table_name f, server_host f))
      (find_last (fun f => String.eqb (encoded_name f) e) facts).
Proof.
  unfold analyze_distribution.
  rewrite (fold_last_write region_info encoded_name
             (fun f => (table_name f, server_host f))
             (fun a f => eq_refl) facts (Analysis [] [] [] []) e).
  destruct (find_last _ facts); reflexivity.
Qed.

(** X14.  The loop over the lines of the dump records exactly one region
    for each start code row whose region has, among the rows before it, a
    server row naming a table that is not a system table, and none for any
    other row; the region is recorded with the start code of its row and
    with the table (the text before the first comma), the host and the port
    of the last such server row before it, and the regions are recorded in
    the order of their start code rows: the snapshot built from the rows
    is the snapshot of this list of regions. *)
Theorem lines_record_regions (rows : list Dump.row) :
  Dump.analyze_distribution rows
  = analyze_distribution (recorded_after [] rows).
Proof.
  unfold Dump.analyze_distribution, analyze_distribution.
  apply read_rows_recorded_after. intros e. reflexivity.
Qed.

(** X15.  No region of a table whose name starts with ["hbase:"] is in the
    snapshot built from the lines: such a table has count 0 and no region
    on every server, and no entry of [region_info] names it. *)
Theorem system_tables_left_out (rows : list Dump.row) (s t : string) :
  String.prefix "hbase:" t = true ->
  let an := Dump.analyze_distribution rows in
  count_of (server_table_count an) s t = 0
  /\ regions_of (server_table_regions an) s t = []
  /\ forall e h, dict_get (region_info an) e <> Some (t, h).
Proof.
  intros Hp. cbn zeta.
  destruct (rows_recorded rows) as (facts & -> & Hfacts).
  rewrite Forall_forall in Hfacts.
  assert (Hnone : filter (recorded_on s t) facts = []).
  { assert (Hall : forall f, In f facts -> recorded_on s t f = false).
    { intros f Hf. unfold recorded_on.
      destruct (String.eqb (table_name f) t) eqn:E;
        [| now rewrite andb_false_r].
      apply String.eqb_eq in E. destruct (Hfacts f Hf) as [Hu _].
      congruence. }
    clear - Hall. induction facts as [| f facts IH]; [reflexivity |].
    cbn [filter]. rewrite (Hall f (or_introl eq_refl)).
    apply IH. intros f0 Hf0. apply Hall. now right. }
  unfold analyze_distribution. rewrite fold_count, fold_regions, Hnone.
  repeat split.
  intros e h Hget.
  rewrite (fold_last_write region_info encoded_name
             (fun f => (table_name f, server_host f))
             (fun a f => eq_refl) facts (Analysis [] [] [] []) e) in Hget.
  destruct (find_last _ facts) as [f |] eqn:Ef; [| discriminate].
  apply find_last_some in Ef as [Hf _]. injection Hget as Ht _.
  destruct (Hfacts f Hf) as [Hu _]. congruence.
Qed.

(** X16.  A dump with no start code row gives the empty snapshot, whatever
    its server rows. *)
Theorem no_start_code_no_region (rows : list Dump.row) :
  (forall e sc, ~ In (Dump.StartcodeRow e sc) rows) ->
  Dump.analyze_distribution rows = Analysis [] [] [] [].
Proof.
  intros Hno. destruct (rows_recorded rows) as (facts & -> & Hfacts).
  destruct facts as [| f facts]; [reflexivity |].
  inversion Hfacts as [| ? ? (_ & Hin & _) _]; subst.
  destruct (Hno _ _ Hin).
Qed.

(** *** The theorems at concrete dumps *)

Lemma system_tables_left_out_witness :
  let an := Dump.analyze_distribution rows_D in
  count_of (server_table_count an) "S1" "hbase:namespace" = 0
  /\ regions_of (server_table_regions an) "S1" "hbase:namespace" = []
  /\ forall e h, dict_get (region_info an) e <> Some ("hbase:namespace", h).
Proof.
  exact (system_tables_left_out rows_D "S1" "hbase:namespace" eq_refl).
Defined.

Lemma no_start_code_no_region_witness :
  Dump.analyze_distribution rows_no_startcode = Analysis [] [] [] [].
Proof.
  apply (no_start_code_no_region rows_no_startcode).
  intros e sc [H | [H | []]]; discriminate H.
Defined.

(** The rows [rows_D] give one region, of the user table, on S2. *)
Example rows_D_snapshot :
  Dump.analyze_distribution rows_D
  = Analysis [("S2", [("search:ads", 1)])]
      [("b9", ("search:ads", "S2"))]
      [("S2", [("search:ads", ["b9"])])]
      [("S2", "S2,16020,1740626070375")].
Proof. reflexivity. Qed.

(** They stand for one region: the start code row of [0a] has only a
    server row of a system table before it, and [c7] has no server row. *)
Example rows_D_recorded :
  recorded_after [] rows_D
  = [Fact "search:ads" "b9" "S2" "16020" "1740626070375"].
Proof. reflexivity. Qed.

(** A region with two server rows is recorded on the server of the later
    one; a server row that comes after the start code row is not used. *)
Example later_server_row_wins :
  recorded_after []
    [ Dump.ServerRow "t,,1" "b9" "S1" "16020";
      Dump.ServerRow "t,,1" "b9" "S2" "16030";
      Dump.StartcodeRow "b9" "5";
      Dump.StartcodeRow "c7" "6";
      Dump.ServerRow "t,,2" "c7" "S1" "16020" ]
  = [Fact "t" "b9" "S2" "16030" "5"].
Proof. reflexivity. Qed.

End DumpProps.

(** ** Further properties of the reports, the exporter and [main] *)

Module ReportProps.
Import Planner Exporter Main Notions Measures Report Scenarios Cases PyFacts.
Import UpdateFacts SwapFacts SnapshotFacts PlanFacts DumpFacts RunProps.
Import ReportFacts.

Local Open Scope string_scope.

(** X17.  [print_distribution] prints one line for every server of the
    dict, by descending count and, between servers with the same count, by
    ascending server name.  The count of a line is the count of the table
    on its server (0 when the server does not have the table), the
    difference is the count minus the average of [compute_table_avg], and
    the sign is ["+"] exactly when the count is over the average. *)
Theorem distribution_lines (table_name : string) (c : counts_t) :
  let rows := print_distribution table_name c in
  Permutation (map row_server rows) (keys c)
  /\ StronglySorted
       (fun a b =>
          row_count b <= row_count a
          /\ (row_count a = row_count b ->
              String.leb (row_server a) (row_server b) = true))
       rows
  /\ Forall
       (fun x =>
          (exists counts, In (row_server x, counts) c
                          /\ row_count x = dict_get_default counts table_name 0)
          /\ row_diff x
             = (inject_Z (row_count x) - compute_table_avg table_name c)%Q
          /\ row_sign x =
             if Qgtb (inject_Z (row_count x)) (compute_table_avg table_name c)
             then "+" else "")
       rows.
Proof.
  cbn zeta. unfold print_distribution. split; [| split].
  - rewrite (Permutation_map row_server
               (sorted_by_perm Z.ltb (fun x => - row_count x) _)).
    apply distribution_items_servers.
  - eapply StronglySorted_impl;
      [| apply (sorted_by_order Z.ltb (fun x => - row_count x)
                  Z_ltb_asym Z_ltb_trans), distribution_items_sorted].
    intros a b [H1 H2]. cbv beta in H1, H2. split; [lia |].
    intros E. apply H2. lia.
  - eapply Permutation_Forall; [apply Permutation_sym, sorted_by_perm |].
    apply distribution_items_rows.
Qed.

(** X18.  [cold_table_stats] has one entry for each table traded back by a
    swap of the plan, with the number of swaps that trade it back; the
    numbers add up to the length of the plan, and the report lists the
    entries by descending number. *)
Theorem cold_table_stats_count (swap_plan : list swap) :
  let stats := cold_table_stats swap_plan in
  dict_wf stats
  /\ (forall t, In t (keys stats) <-> In t (map cold_table swap_plan))
  /\ (forall t, dict_get_default stats t 0
                = Z.of_nat (count_occ string_dec (map cold_table swap_plan) t))
  /\ sum (values stats) = Z.of_nat (List.length swap_plan)
  /\ Permutation (cold_table_report swap_plan) stats
  /\ StronglySorted (fun a b => snd b <= snd a) (cold_table_report swap_plan).
Proof.
  cbn zeta. unfold cold_table_stats.
  destruct (stats_fold swap_plan [] (NoDup_nil _)) as (H1 & H2 & H3 & H4).
  cbn zeta in H1, H2, H3, H4.
  split; [exact H1 |]. split; [| split; [| split; [| split]]].
  - intros t. rewrite H4. cbn [keys map In]. tauto.
  - intros t. rewrite H2. reflexivity.
  - rewrite H3. reflexivity.
  - apply sorted_by_perm.
  - unfold cold_table_report, cold_table_stats.
    eapply StronglySorted_impl;
      [| apply (sorted_by_order Z.ltb (fun x : string * Z => - snd x)
                  Z_ltb_asym Z_ltb_trans (fun _ _ => True)),
           all_sorted_trivially].
    intros a b [H _]. cbv beta in H. lia.
Qed.

(** X19.  The file written for a plan of [n] swaps has [5 + 4 n] writes:
    four header writes, two comment lines, then [# Total swaps: n] and the
    directive [balance_switch false], then four writes for each swap, and
    last the line [# balance_switch true # Uncomment to enable after
    verification], a comment: no write of the file starts with
    [balance_switch true], so the file never switches the balancer back
    on.  The block of the swap at position [i] starts with the comment line
    of pair [i + 1] and ends with an empty line. *)
Theorem plan_file_layout (swap_plan : list swap)
    (output_file hot_table : string) (server_fullname : server_fullname_t) :
  let f := generate_plan swap_plan output_file hot_table server_fullname in
  let n := List.length swap_plan in
  let line_feed := String "010"%char EmptyString in
  let decimal k := NilEmpty.string_of_uint (Nat.to_uint k) in
  path f = output_file
  /\ List.length (writes f) = (5 + 4 * n)%nat
  /\ nth_error (writes f) 0
     = Some ("# Auto-generated swap plan for balancing" ++ line_feed)
  /\ nth_error (writes f) 1 = Some ("# Hot table: " ++ hot_table ++ line_feed)
  /\ nth_error (writes f) 2
     = Some ("# Total swaps: " ++ decimal n ++ line_feed ++ line_feed)
  /\ nth_error (writes f) 3
     = Some ("balance_switch false" ++ line_feed ++ line_feed)
  /\ nth_error (writes f) (4 + 4 * n)
     = Some ("# balance_switch true # Uncomment to enable after verification"
             ++ line_feed)
  /\ (forall k line, nth_error (writes f) k = Some line ->
        String.prefix "balance_switch true" line = false)
  /\ forall i sw, nth_error swap_plan i = Some sw ->
       nth_error (writes f) (4 + 4 * i)
       = Some ("# Pair " ++ decimal (S i) ++ ": " ++ hot_table
               ++ " (" ++ source sw ++ " -> " ++ target sw ++ "), "
               ++ cold_table sw
               ++ " (" ++ target sw ++ " -> " ++ source sw ++ ")"
               ++ line_feed)
       /\ nth_error (writes f) (4 + 4 * i + 3) = Some line_feed.
Proof.
  cbn zeta. repeat split.
  - unfold generate_plan. cbn [writes].
    rewrite !length_app, length_write_pairs. cbn [List.length]. lia.
  - unfold generate_plan. cbn [writes].
    replace (4 + 4 * List.length swap_plan)%nat
      with (4 + (4 * List.length swap_plan + 0))%nat by lia.
    rewrite nth_error_app2; cbn [List.length]; [| lia].
    replace (4 + (4 * List.length swap_plan + 0) - 4)%nat
      with (List.length (write_pairs hot_table server_fullname 1 swap_plan)
            + 0)%nat
      by (rewrite length_write_pairs; lia).
    rewrite nth_error_app2; [| lia].
    replace (_ + 0 - _)%nat with 0%nat by lia. reflexivity.
  - intros k line Hk. apply nth_error_In in Hk.
    unfold generate_plan in Hk. cbn [writes] in Hk.
    assert (Hpairs : forall j plan l,
               In l (write_pairs hot_table server_fullname j plan) ->
               String.prefix "balance_switch true" l = false).
    { intros j plan. revert j.
      induction plan as [| sw0 rest IH]; intros j l Hl; [destruct Hl |].
      rewrite write_pairs_cons in Hl. apply in_app_or in Hl.
      destruct Hl as [Hl | Hl]; [| exact (IH _ _ Hl)].
      cbn [write_pair In] in Hl.
      destruct Hl as [<- | [<- | [<- | [<- | []]]]]; reflexivity. }
    apply in_app_or in Hk. destruct Hk as [Hk | Hk].
    + cbn [In] in Hk.
      destruct Hk as [<- | [<- | [<- | [<- | []]]]]; reflexivity.
    + apply in_app_or in Hk. destruct Hk as [Hk | Hk];
        [exact (Hpairs _ _ _ Hk) |].
      destruct Hk as [<- | []]. reflexivity.
  - replace (4 + 4 * i)%nat with (4 + 4 * i + 0)%nat by lia.
    rewrite (nth_generate_plan _ _ _ _ _ 0 _ H); [reflexivity | lia].
  - rewrite (nth_generate_plan _ _ _ _ _ 3 _ H); [reflexivity | lia].
Qed.


(** *** The theorems at concrete inputs *)

Lemma plan_file_layout_witness :
  let f := generate_plan plan_A "move_plan.rb" "hot" fullname_S1 in
  nth_error (writes f) (4 + 4 * 1)
  = Some ("# Pair 2: hot (S1 -> S3), b (S3 -> S1)"
          ++ String "010"%char EmptyString)
  /\ nth_error (writes f) (4 + 4 * 1 + 3)
     = Some (String "010"%char EmptyString).
Proof.
  exact (proj2 (proj2 (proj2 (proj2 (proj2 (proj2 (proj2 (proj2
           (plan_file_layout plan_A "move_plan.rb" "hot" fullname_S1))))))))
           1%nat (Swap "S1-hot-1" "S3-b-0" "b" "S1" "S3") eq_refl).
Defined.


End ReportProps.

